(** * check_coverage.py: the golang test-presence and line-coverage linter

    A shallow embedding of [go-build/check_coverage.py] and the properties
    of its two gates.  The script is Python 2; its values, exceptions and
    library calls are modelled as follows.

    - Strings are [string] (the paths and names involved are ASCII).
    - A call that may raise returns an [outcome]; every call of the
      operating system and of [logging] is recorded, in order, in a trace
      of [event]s, so that what the script did not do can be stated.
    - [float] is IEEE binary64, through the reference implementation
      [SpecFloat] of the Rocq library (precision 53, [emax] 1024).
    - The regular-expression engine, the parsing of a decimal string by
      [float()] and the file system are not part of the script: they are
      variables of the section that holds the script. *)

From Stdlib Require Import ZArith String Ascii List Lia.
From Stdlib Require Import Floats.SpecFloat.
From stdpp Require Import base option list strings gmap.

Local Open Scope string_scope.
Local Open Scope list_scope.

(** ** Python strings *)

Module Str.

(** [s.startswith(pre)] *)
Definition startswith (s pre : string) : bool := String.prefix pre s.

(** [s.endswith(suf)] *)
Definition endswith (s suf : string) : bool :=
  (String.length suf <=? String.length s)%nat
  && String.eqb
       (String.substring (String.length s - String.length suf)
                         (String.length suf) s)
       suf.

(** [sub in s] for two strings *)
Fixpoint contains (s sub : string) : bool :=
  String.prefix sub s
  || match s with
     | EmptyString => false
     | String _ s' => contains s' sub
     end.

(** [s.split(sep)] for a one-character separator: the pieces between
    the separators, empty pieces included. *)
Fixpoint split (sep : ascii) (s : string) : list string :=
  match s with
  | EmptyString => [EmptyString]
  | String c s' =>
      if Ascii.eqb c sep then EmptyString :: split sep s'
      else match split sep s' with
           | [] => [String c EmptyString]
           | w :: ws => String c w :: ws
           end
  end.

(** The characters [str.isspace] accepts in the ASCII range. *)
Definition isspace (c : ascii) : bool :=
  let n := nat_of_ascii c in
  (n =? 32)%nat || ((9 <=? n)%nat && (n <=? 13)%nat).

(** [s.split()]: the maximal runs of characters that are not
    whitespace.  [cur] is the run being read, reversed. *)
Fixpoint split_ws_aux (cur : list ascii) (s : string) : list string :=
  let flush := match cur with
               | [] => []
               | _ => [string_of_list_ascii (rev cur)]
               end in
  match s with
  | EmptyString => flush
  | String c s' =>
      if isspace c then flush ++ split_ws_aux [] s'
      else split_ws_aux (c :: cur) s'
  end.

Definition split_ws (s : string) : list string := split_ws_aux [] s.

(** [s.strip()] *)
Fixpoint lstrip (s : string) : string :=
  match s with
  | String c s' => if isspace c then lstrip s' else s
  | EmptyString => EmptyString
  end.

Definition strip (s : string) : string :=
  let r := string_of_list_ascii (rev (list_ascii_of_string (lstrip s))) in
  string_of_list_ascii (rev (list_ascii_of_string (lstrip r))).

(** [sep.join(l)] *)
Fixpoint join (sep : string) (l : list string) : string :=
  match l with
  | [] => EmptyString
  | [x] => x
  | x :: l' => (x ++ sep ++ join sep l')%string
  end.

End Str.

(** ** Exceptions, outcomes and the trace of effects *)

Inductive exn :=
| TypeError | KeyError | ValueError | OSError | IOError
| OverflowError | ZeroDivisionError | ReError | ParseError.

Inductive outcome (A : Type) :=
| Ret (a : A)
| Raise (e : exn).
Arguments Ret {A} a.
Arguments Raise {A} e.

Inductive level := DEBUG | INFO | ERROR.

Inductive logarg :=
| AStr (s : string)
| AInt (n : Z)
| AFloat (f : spec_float)
| AExn (e : exn).

(** One entry per call that leaves the interpreter. *)
Inductive event :=
| EvIsFile (p : string)      (* os.path.isfile(p) *)
| EvIsDir (p : string)       (* os.path.isdir(p) *)
| EvIsLink (p : string)      (* os.path.islink(p) *)
| EvListdir (p : string)     (* os.listdir(p) *)
| EvOpen (p : string)        (* open(p) *)
| EvParseXml (p : string)    (* xml.etree.ElementTree.parse(p) *)
| EvLog (l : level) (fmt : string) (args : list logarg).

(** A computation: its outcome and the events it emitted. *)
Definition py (A : Type) : Type := outcome A * list event.

Definition ret {A} (a : A) : py A := (Ret a, []).
Definition raise {A} (e : exn) : py A := (Raise e, []).
Definition emit (ev : event) : py unit := (Ret tt, [ev]).
Definition lift {A} (o : outcome A) : py A := (o, []).

Definition bind {A B} (m : py A) (k : A -> py B) : py B :=
  match m with
  | (Ret a, t) => let '(r, t') := k a in (r, t ++ t')
  | (Raise e, t) => (Raise e, t)
  end.

Declare Scope py_scope.
Delimit Scope py_scope with py.
Notation "x <- m ;; k" := (bind m (fun x => k))
  (at level 100, m at next level, right associativity) : py_scope.
Notation "m ;;; k" := (bind m (fun _ => k))
  (at level 100, right associativity) : py_scope.

Definition logging (l : level) (fmt : string) (args : list logarg) : py unit :=
  emit (EvLog l fmt args).

(** [for x in l: body x], the state the body updates threaded through. *)
Fixpoint for_each {A S} (l : list A) (body : S -> A -> py S) (s : S) : py S :=
  match l with
  | [] => ret s
  | x :: l' => bind (body s x) (for_each l' body)
  end.


(** ** Python floats: IEEE binary64 *)

Module Float.

Definition prec : Z := 53.
Definition emax : Z := 1024.
(** The exponent of the least subnormal number *)
Definition emin : Z := 3 - emax - prec.

(** [float(n)] for a Python integer: round to nearest, ties to even;
    [OverflowError] when the rounded value is not finite. *)
Definition of_int (n : Z) : outcome spec_float :=
  match binary_normalize prec emax n 0 false with
  | S754_infinity _ => Raise OverflowError
  | f => Ret f
  end.

Definition mul (x y : spec_float) : spec_float := SFmul prec emax x y.

(** [x / y]: Python raises on a zero divisor of either sign. *)
Definition div (x y : spec_float) : outcome spec_float :=
  match y with
  | S754_zero _ => Raise ZeroDivisionError
  | _ => Ret (SFdiv prec emax x y)
  end.

(** [x < y] and [x >= y] *)
Definition lt (x y : spec_float) : bool := SFltb x y.
Definition ge (x y : spec_float) : bool := SFleb y x.

Definition is_nan (x : spec_float) : bool :=
  match x with S754_nan => true | _ => false end.

(** Zero or an ordinary number: neither NaN nor an infinity. *)
Definition is_finite (x : spec_float) : bool :=
  match x with S754_zero _ | S754_finite _ _ _ => true | _ => false end.

(** The literal [100.0] *)
Definition hundred : spec_float := S754_finite false 7036874417766400 (-46).

End Float.

Set Warnings "-register-all".

(** ** The values [json.load] returns

    [JNull] is Python's [None].  An object is a Python [dict]; the keys
    are strings. *)

Inductive json :=
| JNull
| JBool (b : bool)
| JInt (n : Z)
| JFloat (f : spec_float)
| JStr (s : string)
| JArr (l : list json)
| JObj (d : gmap string json).

Module Json.

(** [key in container], for a string [key] *)
Definition contains (key : string) (container : json) : outcome bool :=
  match container with
  | JObj d => Ret (bool_decide (is_Some (d !! key)))
  | JArr l => Ret (existsb (fun x => match x with
                                     | JStr s => String.eqb s key
                                     | _ => false
                                     end) l)
  | JStr s => Ret (Str.contains s key)
  | _ => Raise TypeError
  end.

(** [container[key]], for a string [key] *)
Definition getitem (container : json) (key : string) : outcome json :=
  match container with
  | JObj d => match d !! key with
              | Some v => Ret v
              | None => Raise KeyError
              end
  | _ => Raise TypeError
  end.

(** The elements [for x in v] goes through: the elements of a list,
    the keys of a dict, the characters of a string. *)
Definition iter (v : json) : outcome (list json) :=
  match v with
  | JArr l => Ret l
  | JObj d => Ret (JStr <$> (map_to_list d).*1)
  | JStr s => Ret ((fun c => JStr (String c EmptyString))
                     <$> list_ascii_of_string s)
  | _ => Raise TypeError
  end.

(** Lists and dicts are not hashable. *)
Definition hashable (v : json) : bool :=
  match v with
  | JArr _ | JObj _ => false
  | _ => true
  end.

End Json.

(** ** [os.path] on POSIX ([posixpath]) *)

Module PosixPath.

(** [os.path.join(a, b)] *)
Definition join (a b : string) : string :=
  if Str.startswith b "/" then b
  else if String.eqb a "" || Str.endswith a "/" then (a ++ b)%string
  else (a ++ "/" ++ b)%string.

(** [os.path.join] applied to the components of a list that is not empty *)
Definition join_all (l : list string) : string :=
  match l with
  | [] => ""
  | a :: p => fold_left join p a
  end.

Definition isabs (p : string) : bool := Str.startswith p "/".

(** The loop of [normpath] over the components; [new_comps] is held
    last component first.  [initial_slashes] is 0, 1 or 2 in the
    source and only tested for being zero. *)
Fixpoint normpath_comps (initial_slashes : bool) (new_comps : list string)
         (comps : list string) : list string :=
  match comps with
  | [] => rev new_comps
  | comp :: comps' =>
      if String.eqb comp "" || String.eqb comp "." then
        normpath_comps initial_slashes new_comps comps'
      else if negb (String.eqb comp "..")
              || (negb initial_slashes
                  && match new_comps with [] => true | _ => false end)
              || match new_comps with
                 | last :: _ => String.eqb last ".."
                 | [] => false
                 end
      then normpath_comps initial_slashes (comp :: new_comps) comps'
      else match new_comps with
           | _ :: popped => normpath_comps initial_slashes popped comps'
           | [] => normpath_comps initial_slashes new_comps comps'
           end
  end.

(** [os.path.normpath(path)] *)
Definition normpath (path : string) : string :=
  if String.eqb path "" then "."
  else
    let initial_slashes := Str.startswith path "/" in
    let two := Str.startswith path "//" && negb (Str.startswith path "///") in
    let comps := normpath_comps initial_slashes [] (Str.split "/" path) in
    let p := Str.join "/" comps in
    let p := if initial_slashes
             then ((if two then "//" else "/") ++ p)%string else p in
    if String.eqb p "" then "." else p.

(** [os.path.abspath(path)], [cwd] being what [os.getcwd()] returns *)
Definition abspath (cwd path : string) : string :=
  normpath (if isabs path then path else join cwd path).

(** [len(os.path.commonprefix([l1, l2]))] on lists of components *)
Fixpoint commonprefix_len (l1 l2 : list string) : nat :=
  match l1, l2 with
  | x :: l1', y :: l2' =>
      if String.eqb x y then S (commonprefix_len l1' l2') else 0
  | _, _ => 0
  end.

Definition nonempty (x : string) : bool := negb (String.eqb x "").

(** [os.path.relpath(path, start)] *)
Definition relpath (cwd path start : string) : outcome string :=
  if String.eqb path "" then Raise ValueError
  else
    let start_list := filter nonempty (Str.split "/" (abspath cwd start)) in
    let path_list := filter nonempty (Str.split "/" (abspath cwd path)) in
    let i := commonprefix_len start_list path_list in
    let rel_list := repeat ".." (length start_list - i) ++ drop i path_list in
    match rel_list with
    | [] => Ret "."
    | _ => Ret (join_all rel_list)
    end.

End PosixPath.

(** ** [xml.etree.ElementTree] *)

Inductive element :=
| Element (tag : string) (attrib : gmap string string) (children : list element).

Module ET.

Definition tag (e : element) : string :=
  match e with Element t _ _ => t end.

(** [e.get(key)]: [None] when the attribute is absent *)
Definition get (e : element) (key : string) : option string :=
  match e with Element _ a _ => a !! key end.

(** [e.iter(tag)]: [e] itself if its tag is [tag], then what the
    children yield, in document order. *)
Fixpoint iter (t : string) (e : element) : list element :=
  match e with
  | Element t' _ cs =>
      (if String.eqb t' t then [e] else []) ++ concat (map (iter t) cs)
  end.

End ET.

(** ** Computations that hold a loop without a bound

    The [while] loop of the scanner is run with fuel: [None] says that
    the fuel given did not suffice, and is no outcome of the script. *)

Definition run (A : Type) : Type := option (py A).

Definition step {A} (m : py A) : run A := Some m.

Definition bind_run {A B} (m : run A) (k : A -> run B) : run B :=
  match m with
  | None => None
  | Some (Raise e, t) => Some (Raise e, t)
  | Some (Ret a, t) =>
      match k a with
      | None => None
      | Some (r, t') => Some (r, t ++ t')
      end
  end.

Declare Scope run_scope.
Delimit Scope run_scope with run.
Notation "x <- m ;; k" := (bind_run m (fun x => k))
  (at level 100, m at next level, right associativity) : run_scope.
Notation "m ;;; k" := (bind_run m (fun _ => k))
  (at level 100, right associativity) : run_scope.

(** [l.pop()] on a list that is not empty: the last element and the rest *)
Definition pop {A} (l : list A) : option (A * list A) :=
  match rev l with
  | [] => None
  | x :: r => Some (x, rev r)
  end.

(** ** The file system the script reads *)

Inductive json_file :=
| CannotOpen                 (* open() raises IOError *)
| NotJson                    (* json.load raises ValueError *)
| Parsed (v : json).

Record filesystem := {
  fs_cwd : string;                               (* os.getcwd() *)
  fs_isdir : string -> bool;                     (* stat, S_ISDIR *)
  fs_islink : string -> bool;                    (* lstat, S_ISLNK *)
  fs_isfile : string -> bool;                    (* stat, S_ISREG *)
  fs_listdir : string -> option (list string);   (* None: OSError *)
  fs_json : string -> json_file;
  fs_xml : string -> option element              (* None: parse() raises *)
}.

(** The parsed command line, as [parse_args] returns it *)
Record Namespace := {
  verbose : bool;
  debug : bool;
  cover_ignore_srcs : option string
}.

(** The state of a [SkippedPathDetecter] object.  [set(...)] of the
    configured paths is kept as the set of its strings: a path, a string,
    is equal to no element of another type. *)
Record SkippedPathDetecter (regex : Type) := {
  _path_root : string;
  _skipped_paths : gset string;
  _skipped_regex_paths : list regex
}.
Arguments _path_root {regex} _.
Arguments _skipped_paths {regex} _.
Arguments _skipped_regex_paths {regex} _.

Definition GO_FILE_SUFFIX := ".go".
Definition GO_TEST_FILE_SUFFIX := "_test.go".
Definition COVERAGE_REPORT_FILE := "coverage.xml".
Definition CONFIG_FILE_NAME := ".golang_coverage_lintrc.json".
Definition CONFIG_KEY_SKIPPED_PATHS := "skipped paths".
Definition CONFIG_KEY_SKIPPED_REGEX_PATHS := "skipped regex paths".
Definition CONFIG_KEY_COVERAGE := "coverage".
Definition CONFIG_KEY_MIN_PERCENTAGE := "min percentage".

Definition _ALWAYS_SKIPPED : list string :=
  [".git"; ".gen"; ".tmp"; "vendor"; "go-build"].

(** ** A small concrete world, for the examples

    A project at [/p]: a tested root package, an untested package [lib]
    with a tested one below it, a [vendor] tree and a symbolic link. *)

Module Demo.

Inductive node := Dir (entries : list string) | File | LinkToDir.

Definition lookup_node (table : list (string * node)) (p : string)
  : option node :=
  snd <$> find (fun x => String.eqb (fst x) p) table.

Definition fs_of (cwd : string) (table : list (string * node))
           (config : json_file) (report : option element) : filesystem :=
  {| fs_cwd := cwd;
     fs_isdir p := match lookup_node table p with
                   | Some (Dir _) | Some LinkToDir => true
                   | _ => false
                   end;
     fs_islink p := match lookup_node table p with
                    | Some LinkToDir => true
                    | _ => false
                    end;
     fs_isfile p := match lookup_node table p with
                    | Some File => true
                    | _ => false
                    end;
     fs_listdir p := match lookup_node table p with
                     | Some (Dir es) => Some es
                     | _ => None
                     end;
     fs_json p := if String.eqb p (PosixPath.join cwd CONFIG_FILE_NAME)
                  then config else CannotOpen;
     fs_xml p := if String.eqb p (PosixPath.join cwd COVERAGE_REPORT_FILE)
                 then report else None |}.

(** A regular-expression engine for patterns without metacharacters:
    such a pattern matches the strings it is a prefix of. *)
Definition regex := string.
Definition re_compile (pattern : string) : option regex := Some pattern.
Definition re_match (prog : regex) (s : string) : bool := String.prefix prog s.

(** [float(s)] for a string, as Python 2.7 reads it; [None] stands for
    [ValueError].  White space around the numeral is dropped.  The
    numeral is an optional sign followed by [inf], [infinity] or [nan]
    in any case, or by decimal digits with an optional fraction and an
    optional exponent, with a digit before or after the point.  The
    value is the nearest double, ties to even; beyond the range it is
    an infinity. *)
Definition is_digit (c : ascii) : bool :=
  let n := nat_of_ascii c in (48 <=? n)%nat && (n <=? 57)%nat.

Definition digit_value (c : ascii) : Z := Z.of_nat (nat_of_ascii c - 48).

(** The digits at the head of a string, read after the number [acc]:
    the number, how many digits were read, and what follows them. *)
Fixpoint read_digits (acc : Z) (count : nat) (s : string)
  : Z * nat * string :=
  match s with
  | String c s' =>
      if is_digit c
      then read_digits (10 * acc + digit_value c) (S count) s'
      else (acc, count, s)
  | EmptyString => (acc, count, s)
  end.

(** An optional sign: whether it is a minus, and what follows it. *)
Definition read_sign (s : string) : bool * string :=
  match s with
  | String c s' =>
      if Ascii.eqb c "-" then (true, s')
      else if Ascii.eqb c "+" then (false, s')
      else (false, s)
  | EmptyString => (false, s)
  end.

Definition lower (c : ascii) : ascii :=
  let n := nat_of_ascii c in
  if (65 <=? n)%nat && (n <=? 90)%nat then ascii_of_nat (n + 32) else c.

Fixpoint lowercase (s : string) : string :=
  match s with
  | String c s' => String (lower c) (lowercase s')
  | EmptyString => EmptyString
  end.

(** What follows the mantissa: nothing, or [e] or [E] with an optional
    sign and digits up to the end. *)
Definition read_exponent (s : string) : option Z :=
  match s with
  | EmptyString => Some 0%Z
  | String c s' =>
      if Ascii.eqb c "e" || Ascii.eqb c "E" then
        let '(neg, s1) := read_sign s' in
        let '(n, count, rest) := read_digits 0 0 s1 in
        if (count =? 0)%nat || negb (String.eqb rest "") then None
        else Some (if neg : bool then - n else n)%Z
      else None
  end.

(** The double nearest to [m * 10 ^ e10], with the sign [neg]. *)
Definition decimal (neg : bool) (m e10 : Z) : spec_float :=
  if (m =? 0)%Z then S754_zero neg
  else if (0 <=? e10)%Z then
    binary_normalize Float.prec Float.emax
                     ((if neg then - m else m) * 10 ^ e10) 0 neg
  else
    SFdiv Float.prec Float.emax
          (S754_finite neg (Z.to_pos m) 0)
          (S754_finite false (Z.to_pos (10 ^ (- e10))) 0).

Definition float_of_string (s : string) : option spec_float :=
  let '(neg, body) := read_sign (Str.strip s) in
  let word := lowercase body in
  if String.eqb word "inf" || String.eqb word "infinity"
  then Some (S754_infinity neg)
  else if String.eqb word "nan" then Some S754_nan
  else
    let '(int_part, int_count, after_int) := read_digits 0 0 body in
    let '(m, frac_count, after_frac) :=
      match after_int with
      | String c s' =>
          if Ascii.eqb c "." then read_digits int_part 0 s'
          else (int_part, 0, after_int)
      | EmptyString => (int_part, 0, after_int)
      end in
    if (int_count + frac_count =? 0)%nat then None
    else match read_exponent after_frac with
         | None => None
         | Some e => Some (decimal neg m (e - Z.of_nat frac_count))
         end.

Definition tree : list (string * node) :=
  [("/p", Dir [".golang_coverage_lintrc.json"; "coverage.xml"; "main.go";
               "main_test.go"; "vendor"; "lib"; "lnk"]);
   ("/p/.golang_coverage_lintrc.json", File);
   ("/p/coverage.xml", File);
   ("/p/main.go", File);
   ("/p/main_test.go", File);
   ("/p/vendor", Dir ["v.go"]);
   ("/p/vendor/v.go", File);
   ("/p/lib", Dir ["a.go"; "testlib"; "sub"]);
   ("/p/lib/a.go", File);
   ("/p/lib/testlib", Dir ["t.go"]);
   ("/p/lib/testlib/t.go", File);
   ("/p/lib/sub", Dir ["s.go"; "s_test.go"]);
   ("/p/lib/sub/s.go", File);
   ("/p/lib/sub/s_test.go", File);
   ("/p/lnk", LinkToDir)].

(** The same project without its report and configuration files. *)
Definition bare_tree : list (string * node) :=
  [("/p", Dir ["main.go"; "main_test.go"]);
   ("/p/main.go", File);
   ("/p/main_test.go", File)].

(** A project whose root package has no test. *)
Definition untested_tree : list (string * node) :=
  [("/p", Dir [".golang_coverage_lintrc.json"; "x.go"; "ok"; "only"]);
   ("/p/.golang_coverage_lintrc.json", File);
   ("/p/x.go", File);
   ("/p/ok", Dir ["x.go"; "x_test.go"]);
   ("/p/ok/x.go", File);
   ("/p/ok/x_test.go", File);
   ("/p/only", Dir ["x.go"]);
   ("/p/only/x.go", File)].

Definition line (hits : option string) : element :=
  Element "line" (from_option (fun h => {[ "hits" := h ]}) ∅ hits) [].

(** A report in the layout of Cobertura: the lines of a class are
    listed in its methods and once more in the class. *)
Definition report (lines : list element) : element :=
  Element "coverage" ∅
    [Element "packages" ∅
       [Element "package" ∅
          [Element "classes" ∅
             [Element "class" ∅
                [Element "methods" ∅
                   [Element "method" ∅ [Element "lines" ∅ lines]];
                 Element "lines" ∅ lines]]]]].

Definition report_80_20 : element :=
  report (replicate 80 (line (Some "1")) ++ replicate 20 (line (Some "0"))).

Definition empty_report : element := Element "coverage" ∅ [].

Definition f80 : spec_float := S754_finite false 5629499534213120 (-46).
(** The double nearest to 80.1 *)
Definition f80_1 : spec_float := S754_finite false 5636536408630886 (-46).

Definition coverage_section (threshold : json) : gmap string json :=
  {[ "min percentage" := threshold ]}.

Definition dict_min (threshold : json) : gmap string json :=
  {[ "skipped paths" := JArr [JStr "lib/testlib"];
     "coverage" := JObj (coverage_section threshold) ]}.

Definition dict_no_coverage : gmap string json :=
  {[ "skipped paths" := JArr [JStr "lib/testlib"] ]}.

Definition dict_no_threshold : gmap string json :=
  {[ "coverage" := JObj ∅ ]}.

(** A configuration whose skip rules match the root, [.] *)
Definition dict_skip_root : gmap string json :=
  {[ "skipped paths" := JArr [JStr "."];
     "skipped regex paths" := JArr [JStr ""] ]}.

(** The project with a configuration and a report. *)
Definition project (config : json_file) (report : option element)
  : filesystem :=
  fs_of "/p" tree config report.

(** The project with a configuration and no report file. *)
Definition project_without_report (config : json_file) : filesystem :=
  fs_of "/p" (filter (fun x => negb (String.eqb (fst x) "/p/coverage.xml")) tree)
        config None.

(** The project whose root package has no test. *)
Definition untested_project (config : json_file) : filesystem :=
  fs_of "/p" untested_tree config None.

(** The project without a configuration file. *)
Definition bare_project : filesystem :=
  fs_of "/p" bare_tree CannotOpen None.

(** Detecters as [SkippedPathDetecter.__init__] builds them from
    [dict_min] and from [dict_skip_root]. *)
Definition detecter : SkippedPathDetecter regex :=
  {| _path_root := "/p";
     _skipped_paths := list_to_set ["lib/testlib"];
     _skipped_regex_paths := [] |}.

Definition detecter_skip_root : SkippedPathDetecter regex :=
  {| _path_root := "/p";
     _skipped_paths := list_to_set ["."];
     _skipped_regex_paths := [""] |}.

Definition no_args : Namespace :=
  {| verbose := false; debug := false; cover_ignore_srcs := None |}.

Definition ignore_lib_args : Namespace :=
  {| verbose := false; debug := false;
     cover_ignore_srcs := Some " /p/lib/a  " |}.

(** The same engine, refusing the patterns with a parenthesis, which it
    cannot read. *)
Definition re_compile_strict (pattern : string) : option regex :=
  if Str.contains pattern "(" then None else Some pattern.

Definition dict_bad_regex : gmap string json :=
  {[ "skipped regex paths" := JArr [JStr "lib"; JStr "(mocks"] ]}.

Definition dict_skip_lib : gmap string json :=
  {[ "skipped paths" := JArr [JStr "lib/sub"];
     "skipped regex paths" := JArr [JStr "vend"; JStr "lib/test"] ]}.

Definition detecter_skip_lib : SkippedPathDetecter regex :=
  {| _path_root := "/p";
     _skipped_paths := list_to_set ["lib/sub"];
     _skipped_regex_paths := ["vend"; "lib/test"] |}.

End Demo.

(** ** The script *)

Section CheckCoverage.

Set Default Proof Using "Type".

(** The [re] module: compiled patterns, [re.compile] ([None] when it
    raises [re.error]) and [prog.match(s) is not None]. *)
Variable regex : Type.
Variable re_compile : string -> option regex.
Variable re_match : regex -> string -> bool.

(** [float(s)] for a string: [None] when it raises [ValueError]. *)
Variable float_of_string : string -> option spec_float.

Variable fs : filesystem.

(** *** Calls of the operating system.  The empty path names no file. *)

Definition isfile (path : string) : bool :=
  negb (String.eqb path "") && fs_isfile fs path.
Definition isdir (path : string) : bool :=
  negb (String.eqb path "") && fs_isdir fs path.
Definition islink (path : string) : bool :=
  negb (String.eqb path "") && fs_islink fs path.
Definition listdir (path : string) : option (list string) :=
  if String.eqb path "" then None else fs_listdir fs path.

Definition os_path_isfile (path : string) : py bool :=
  (emit (EvIsFile path);;; ret (isfile path))%py.

Definition os_path_isdir (path : string) : py bool :=
  (emit (EvIsDir path);;; ret (isdir path))%py.

Definition os_path_islink (path : string) : py bool :=
  (emit (EvIsLink path);;; ret (islink path))%py.

Definition os_listdir (path : string) : py (list string) :=
  (emit (EvListdir path);;;
   match listdir path with
   | Some entries => ret entries
   | None => raise OSError
   end)%py.

Definition os_path_relpath (path start : string) : py string :=
  lift (PosixPath.relpath (fs_cwd fs) path start).

(** [re.compile(pattern)] for a string *)
Definition re_compile_py (pattern : string) : py regex :=
  match re_compile pattern with
  | Some prog => ret prog
  | None => raise ReError
  end.

(** [re.compile(pattern)] for a value read from the configuration *)
Definition re_compile_json (pattern : json) : py regex :=
  match pattern with
  | JStr s => re_compile_py s
  | _ => raise TypeError
  end.

(** [float(v)] for a value read from the configuration *)
Definition py_float (v : json) : py spec_float :=
  match v with
  | JFloat f => ret f
  | JInt n => lift (Float.of_int n)
  | JBool b => lift (Float.of_int (if b then 1 else 0))
  | JStr s => match float_of_string s with
              | Some f => ret f
              | None => raise ValueError
              end
  | _ => raise TypeError
  end.

(** *** [load_config_file] *)

Definition load_config_file (config_path : string) : py json :=
  (emit (EvOpen config_path);;;
   match fs_json fs config_path with
   | CannotOpen => raise IOError
   | NotJson =>
       logging ERROR "Could not parse coverage config file %s: %s"
               [AStr config_path; AExn ValueError];;;
       ret JNull
   | Parsed config => ret config
   end)%py.

(** *** [SkippedPathDetecter] *)

Definition strings_of (l : list json) : list string :=
  omap (fun v => match v with JStr s => Some s | _ => None end) l.

(** [SkippedPathDetecter.__init__] *)
Definition SkippedPathDetecter_init (path_root : string) (config : json)
  : py (SkippedPathDetecter regex) :=
  (has_paths <- lift (Json.contains CONFIG_KEY_SKIPPED_PATHS config);;
   skipped_paths <-
     (if has_paths : bool then
        v <- lift (Json.getitem config CONFIG_KEY_SKIPPED_PATHS);;
        l <- lift (Json.iter v);;
        if forallb Json.hashable l
        then ret (list_to_set (strings_of l) : gset string)
        else raise TypeError
      else ret (∅ : gset string));;
   has_regex <- lift (Json.contains CONFIG_KEY_SKIPPED_REGEX_PATHS config);;
   skipped_regex_paths <-
     (if has_regex : bool then
        v <- lift (Json.getitem config CONFIG_KEY_SKIPPED_REGEX_PATHS);;
        l <- lift (Json.iter v);;
        for_each l (fun acc pattern =>
                      prog <- re_compile_json pattern;;
                      ret (acc ++ [prog])) []
      else ret []);;
   ret {| _path_root := path_root;
          _skipped_paths := skipped_paths;
          _skipped_regex_paths := skipped_regex_paths |})%py.

(** [SkippedPathDetecter.should_skip] *)
Definition should_skip (self : SkippedPathDetecter regex) (path : string)
  : py bool :=
  (isdir <- os_path_isdir path;;
   if negb isdir then ret true else
   islink <- os_path_islink path;;
   if islink : bool then ret true else
   rel_path <- os_path_relpath path (_path_root self);;
   if bool_decide (rel_path ∈ _ALWAYS_SKIPPED) then ret true else
   if bool_decide (rel_path ∈ _skipped_paths self) then ret true else
   ret (existsb (fun prog => re_match prog rel_path)
                (_skipped_regex_paths self)))%py.

(** *** [should_skip_file] *)

Definition should_skip_file (path : string)
           (ignored_file_regex_paths : list regex) : bool :=
  existsb (fun reg => re_match reg path) ignored_file_regex_paths.

(** *** [all_directories_have_tests] *)

(** The first [for] loop of an iteration: the subdirectories to visit. *)
Definition push_subdirectories (skipped_path_detecter : SkippedPathDetecter regex)
           (parent_directory_path : string) (directory_entries : list string)
           (unvisited_paths : list string) : py (list string) :=
  for_each directory_entries
    (fun unvisited_paths entry =>
       let path := PosixPath.join parent_directory_path entry in
       skip <- should_skip skipped_path_detecter path;;
       if skip : bool then ret unvisited_paths
       else ret (unvisited_paths ++ [path]))%py
    unvisited_paths.

(** The second [for] loop: [(found_go_file, found_test_file)]. *)
Definition find_go_files (ignored_file_regex_paths : list regex)
           (parent_directory_path : string) (directory_entries : list string)
  : bool * bool :=
  fold_left
    (fun '(found_go_file, found_test_file) entry =>
       if Str.endswith entry GO_FILE_SUFFIX then
         let path := PosixPath.join parent_directory_path entry in
         if should_skip_file path ignored_file_regex_paths
         then (found_go_file, found_test_file)
         else (true, found_test_file
                     || Str.endswith entry GO_TEST_FILE_SUFFIX)
       else (found_go_file, found_test_file))
    directory_entries (false, false).

(** One iteration of the [while] loop, [parent_directory_path] popped. *)
Definition visit (skipped_path_detecter : SkippedPathDetecter regex)
           (ignored_file_regex_paths : list regex)
           (parent_directory_path : string)
           (unvisited_paths bad_paths : list string)
  : py (list string * list string) :=
  (logging DEBUG "Looking for missing tests in %s"
           [AStr parent_directory_path];;;
   directory_entries <- os_listdir parent_directory_path;;
   unvisited_paths <- push_subdirectories skipped_path_detecter
                        parent_directory_path directory_entries
                        unvisited_paths;;
   let '(found_go_file, found_test_file) :=
     find_go_files ignored_file_regex_paths parent_directory_path
                   directory_entries in
   ret (unvisited_paths,
        if found_go_file && negb found_test_file
        then bad_paths ++ [parent_directory_path]
        else bad_paths))%py.

(** The [while unvisited_paths] loop; it returns [bad_paths]. *)
Fixpoint scan (fuel : nat) (skipped_path_detecter : SkippedPathDetecter regex)
         (ignored_file_regex_paths : list regex)
         (unvisited_paths bad_paths : list string) : run (list string) :=
  match pop unvisited_paths with
  | None => step (ret bad_paths)
  | Some (parent_directory_path, unvisited_paths) =>
      match fuel with
      | O => None
      | S fuel =>
          (st <- step (visit skipped_path_detecter ignored_file_regex_paths
                             parent_directory_path unvisited_paths bad_paths);;
           scan fuel skipped_path_detecter ignored_file_regex_paths
                (fst st) (snd st))%run
      end
  end.

(** What follows the loop: the report and the result. *)
Definition report (path_root : string) (bad_paths : list string) : py bool :=
  match bad_paths with
  | [] => ret true
  | _ =>
      (logging ERROR "Found golang packages without _test.go files:" [];;;
       for_each bad_paths
         (fun _ path =>
            rel_path <- os_path_relpath path path_root;;
            logging ERROR "  %s" [AStr rel_path]) tt;;;
       ret false)%py
  end.

Definition all_directories_have_tests (fuel : nat) (path_root : string)
           (config : json) (ignored_file_regex_paths : list regex)
  : run bool :=
  (skipped_path_detecter <- step (SkippedPathDetecter_init path_root config);;
   bad_paths <- scan fuel skipped_path_detecter ignored_file_regex_paths
                     [path_root] [];;
   step (report path_root bad_paths))%run.

(** *** [coverage_is_sufficient] *)

(** [xml.etree.ElementTree.parse(path).getroot()] *)
Definition et_parse (path : string) : py element :=
  (emit (EvParseXml path);;;
   match fs_xml fs path with
   | Some root => ret root
   | None => raise ParseError
   end)%py.

(** The body of the innermost loop, on
    [(uncovered_lines, covered_lines)]. *)
Definition count_line (counters : Z * Z) (line : element) : Z * Z :=
  let '(uncovered_lines, covered_lines) := counters in
  if bool_decide (ET.get line "hits" = Some "0")
  then (uncovered_lines + 1, covered_lines)%Z
  else (uncovered_lines, covered_lines + 1)%Z.

(** The three nested loops over the report. *)
Definition count_lines (root : element) : Z * Z :=
  fold_left
    (fun counters class_to_check =>
       fold_left
         (fun counters method =>
            fold_left count_line (ET.iter "line" method) counters)
         (ET.iter "method" class_to_check) counters)
    (ET.iter "class" root) (0, 0)%Z.

(** The [line] elements the loops reach, each as often as it is
    reached: those below a [method] below a [class]. *)
Definition scanned_lines (root : element) : list element :=
  concat (map (fun class_to_check =>
                 concat (map (ET.iter "line")
                             (ET.iter "method" class_to_check)))
              (ET.iter "class" root)).

Definition uncovered_line (line : element) : bool :=
  bool_decide (ET.get line "hits" = Some "0").

(** From the counters to the result. *)
Definition compare_coverage (config : json)
           (uncovered_lines covered_lines : Z) : py bool :=
  (let total_lines := (covered_lines + uncovered_lines)%Z in
   covered <- lift (Float.of_int covered_lines);;
   total <- lift (Float.of_int total_lines);;
   actual_percent <- lift (Float.div (Float.mul Float.hundred covered) total);;
   coverage <- lift (Json.getitem config CONFIG_KEY_COVERAGE);;
   threshold <- lift (Json.getitem coverage CONFIG_KEY_MIN_PERCENTAGE);;
   min_percent <- py_float threshold;;
   logging INFO "Calculated %d covered lines of %d total lines (%0.2f%%)"
           [AInt covered_lines; AInt total_lines; AFloat actual_percent];;;
   if Float.lt actual_percent min_percent then
     logging ERROR
             "Expected line coverage of at least %0.2f%% but got %0.2f%% (%d/%d)"
             [AFloat min_percent; AFloat actual_percent;
              AInt covered_lines; AInt total_lines];;;
     ret false
   else ret true)%py.

Definition coverage_is_sufficient (path_root : string) (config : json)
  : py bool :=
  (has_coverage <- lift (Json.contains CONFIG_KEY_COVERAGE config);;
   if negb has_coverage then
     logging INFO
             "Skipping coverage calculation because config file is missing the %s key."
             [AStr CONFIG_KEY_COVERAGE];;;
     ret true
   else
   coverage <- lift (Json.getitem config CONFIG_KEY_COVERAGE);;
   has_min <- lift (Json.contains CONFIG_KEY_MIN_PERCENTAGE coverage);;
   if negb has_min then
     logging ERROR "Could not find coverage threshold in %s"
             [AStr CONFIG_FILE_NAME];;;
     ret false
   else
   let coverage_file_path := PosixPath.join path_root COVERAGE_REPORT_FILE in
   isfile <- os_path_isfile coverage_file_path;;
   if negb isfile then
     logging ERROR "Could not find coverage report (%s)."
             [AStr coverage_file_path];;;
     ret false
   else
   root <- et_parse coverage_file_path;;
   let '(uncovered_lines, covered_lines) := count_lines root in
   compare_coverage config uncovered_lines covered_lines)%py.

(** *** [main]

    [parse_args()] reads the command line with [argparse] and sets the
    logging level; [main] is given what it returns.  [sys.exit(main())]
    makes the value returned the exit status. *)

Definition compile_ignored (args : Namespace) : py (list regex) :=
  match cover_ignore_srcs args with
  | None => ret []
  | Some srcs =>
      for_each (Str.split_ws (Str.strip srcs))
               (fun acc pattern =>
                  prog <- re_compile_py pattern;;
                  ret (acc ++ [prog]))%py []
  end.

Definition main (fuel : nat) (args : Namespace) : run Z :=
  (let path_root := fs_cwd fs in
   let config_path := PosixPath.join path_root CONFIG_FILE_NAME in
   isfile <- step (os_path_isfile config_path);;
   if negb isfile then
     step (logging INFO "Create %s to enable the golang test coverage linter"
                   [AStr CONFIG_FILE_NAME]);;;
     step (ret 0%Z)
   else
   config <- step (load_config_file config_path);;
   match config with
   | JNull => step (ret 1%Z)
   | _ =>
       ignored_file_regex_paths <- step (compile_ignored args);;
       tested <- all_directories_have_tests fuel path_root config
                                            ignored_file_regex_paths;;
       if negb tested then step (ret 1%Z) else
       sufficient <- step (coverage_is_sufficient path_root config);;
       if negb sufficient then step (ret 1%Z) else
       step (ret 0%Z)
   end)%run.

(** *** [parse_args]

    The numbers of the levels of [logging], and the level [parse_args]
    gives to [logging.basicConfig]: the root logger then hands to
    [stderr] the messages whose level is not below it. *)

Definition levelno (l : level) : Z :=
  match l with DEBUG => 10 | INFO => 20 | ERROR => 40 end.

Definition WARNING : Z := 30.

Definition parse_args_log_level (args : Namespace) : Z :=
  let log_level := WARNING in
  let log_level := if debug args then levelno DEBUG else log_level in
  let log_level := if verbose args then levelno INFO else log_level in
  log_level.

(** The events of a trace that are messages written to [stderr]. *)
Definition shown (log_level : Z) (ev : event) : bool :=
  match ev with
  | EvLog l _ _ => (log_level <=? levelno l)%Z
  | _ => false
  end.

Definition stderr (args : Namespace) (t : list event) : list event :=
  filter (fun ev => shown (parse_args_log_level args) ev = true) t.

Definition log_at (l : level) (ev : event) : bool :=
  match ev with
  | EvLog l' _ _ => (levelno l' =? levelno l)%Z
  | _ => false
  end.

(** *** Notions used to state the properties *)

(** Where the coverage gate looks for the report. *)
Definition report_path (path_root : string) : string :=
  PosixPath.join path_root COVERAGE_REPORT_FILE.

(** What [should_skip] computes once the two calls of the operating
    system have been made. *)
Definition skip_rules (self : SkippedPathDetecter regex) (rel_path : string)
  : bool :=
  bool_decide (rel_path ∈ _ALWAYS_SKIPPED)
  || bool_decide (rel_path ∈ _skipped_paths self)
  || existsb (fun prog => re_match prog rel_path) (_skipped_regex_paths self).

(** The value [should_skip] returns, without its trace. *)
Definition skipped (self : SkippedPathDetecter regex) (path : string) : bool :=
  negb (isdir path)
  || islink path
  || match PosixPath.relpath (fs_cwd fs) path (_path_root self) with
     | Ret rel_path => skip_rules self rel_path
     | Raise _ => false
     end.

(** An entry that counts as a go file: its name ends with [.go] and
    its path is matched by no file-ignore pattern. *)
Definition counted_go_file (ignored : list regex) (parent entry : string)
  : Prop :=
  Str.endswith entry ".go" = true
  /\ forall reg, reg ∈ ignored ->
                 re_match reg (PosixPath.join parent entry) = false.

(** A directory with a counted go file and no counted test file. *)
Definition untested (ignored : list regex) (parent : string)
           (entries : list string) : Prop :=
  (exists entry, entry ∈ entries /\ counted_go_file ignored parent entry)
  /\ ~ (exists entry, entry ∈ entries /\ counted_go_file ignored parent entry
                      /\ Str.endswith entry "_test.go" = true).

(** The events of one call of [should_skip]. *)
Definition stat_events (path : string) : list event :=
  if isdir path then [EvIsDir path; EvIsLink path] else [EvIsDir path].

(** The paths one iteration pushes, and the events of its first loop. *)
Definition pushed (self : SkippedPathDetecter regex) (parent : string)
           (entries : list string) : list string :=
  filter (fun path => skipped self path = false)
         (map (PosixPath.join parent) entries).

Definition push_events (parent : string) (entries : list string)
  : list event :=
  flat_map (fun entry => stat_events (PosixPath.join parent entry)) entries.

(** The test at the end of an iteration. *)
Definition is_untested (ignored : list regex) (parent : string)
           (entries : list string) : bool :=
  fst (find_go_files ignored parent entries)
  && negb (snd (find_go_files ignored parent entries)).

Definition go_entry (ignored : list regex) (parent entry : string) : bool :=
  Str.endswith entry GO_FILE_SUFFIX
  && negb (should_skip_file (PosixPath.join parent entry) ignored).

(** The states [(unvisited_paths, bad_paths)] of the [while] loop:
    [loop_reaches self ignored s s' t] when iterations that do not
    raise lead from [s] to [s'], emitting [t]. *)
Inductive loop_reaches (self : SkippedPathDetecter regex)
          (ignored : list regex)
  : list string * list string -> list string * list string
    -> list event -> Prop :=
| loop_here s : loop_reaches self ignored s s []
| loop_iteration unvisited bad parent rest s1 t1 s' t :
    pop unvisited = Some (parent, rest) ->
    visit self ignored parent rest bad = (Ret s1, t1) ->
    loop_reaches self ignored s1 s' t ->
    loop_reaches self ignored (unvisited, bad) s' (t1 ++ t).

(** Every directory reached from [path] through directories that are
    not skipped can be listed, and they are fewer than [depth] deep. *)
Fixpoint listable_within (depth : nat) (self : SkippedPathDetecter regex)
         (path : string) : bool :=
  match depth with
  | O => false
  | S depth =>
      match listdir path with
      | None => false
      | Some entries =>
          forallb (listable_within depth self) (pushed self path entries)
      end
  end.

(** The same test, for a directory named by its path. *)
Definition untested_dir (ignored : list regex) (path : string) : bool :=
  match listdir path with
  | Some entries => is_untested ignored path entries
  | None => false
  end.

(** A path whose relative path is none of the always-skipped names. *)
Definition not_always_skipped (path_root path : string) : Prop :=
  forall rel, PosixPath.relpath (fs_cwd fs) path path_root = Ret rel ->
              rel ∉ _ALWAYS_SKIPPED.

Definition is_log (ev : event) : Prop :=
  match ev with EvLog _ _ _ => True | _ => False end.

(** [path] is an entry of a directory that the trace lists. *)
Definition entry_of_listed (t : list event) (path : string) : Prop :=
  exists parent entries entry,
    EvListdir parent ∈ t /\ listdir parent = Some entries
    /\ entry ∈ entries /\ path = PosixPath.join parent entry.

(** The directories listed in a trace, in order. *)
Definition listed (t : list event) : list string :=
  omap (fun ev => match ev with EvListdir p => Some p | _ => None end) t.

(** Where [main] looks for the configuration. *)
Definition config_path : string :=
  PosixPath.join (fs_cwd fs) CONFIG_FILE_NAME.

(** [reachable_from self a q]: [q] is [a], or lies below [a] through
    directories that can be listed and entries that are not skipped. *)
Inductive reachable_from (self : SkippedPathDetecter regex)
  : string -> string -> Prop :=
| reach_here a : reachable_from self a a
| reach_below a entries entry q :
    listdir a = Some entries ->
    entry ∈ entries ->
    skipped self (PosixPath.join a entry) = false ->
    reachable_from self (PosixPath.join a entry) q ->
    reachable_from self a q.

(** The relative path [report] logs for a bad path. *)
Definition relative_to (path_root path : string) : string :=
  match PosixPath.relpath (fs_cwd fs) path path_root with
  | Ret rel_path => rel_path
  | Raise _ => ""
  end.

(** A configuration value that is a list of strings, or is absent. *)
Definition string_list_value (l : option (list string)) : option json :=
  (fun strs => JArr (JStr <$> strs)) <$> l.

(** A piece of [str.split()]: not empty, with no white space in it. *)
Definition is_piece (w : string) : Prop :=
  w <> "" /\ forallb (fun c => negb (Str.isspace c)) (list_ascii_of_string w) = true.

Definition all_space (s : string) : Prop :=
  forallb Str.isspace (list_ascii_of_string s) = true.

(** The [line] elements below the [method] elements of one element. *)
Definition method_lines (e : element) : list element :=
  concat (map (ET.iter "line") (ET.iter "method" e)).

(** The two counters for a list of lines, and the sum of two pairs. *)
Definition tally (lines : list element) : Z * Z :=
  (Z.of_nat (length (filter (fun l => uncovered_line l = true) lines)),
   Z.of_nat (length (filter (fun l => uncovered_line l = false) lines))).

Definition add_counters (x y : Z * Z) : Z * Z :=
  (fst x + fst y, snd x + snd y)%Z.

(** A file name: not empty, not [.] or [..], with no slash in it. *)
Definition no_slash (w : string) : Prop :=
  forallb (fun c => negb (Ascii.eqb c "/")) (list_ascii_of_string w) = true.

Definition is_name (w : string) : Prop :=
  w <> "" /\ w <> "." /\ w <> ".." /\ no_slash w.

(** The absolute path with the given names as components, as
    [os.getcwd()] returns one. *)
Definition abs_path (comps : list string) : string :=
  String "/" (Str.join "/" comps).

(** A trace without a message of the level [ERROR]. *)
Definition no_error (t : list event) : Prop :=
  Forall (fun ev => log_at ERROR ev = false) t.

(** A trace with such a message. *)
Definition some_error (t : list event) : Prop :=
  exists ev, ev ∈ t /\ log_at ERROR ev = true.

(** The directories at and below [path], as a stack hands them out:
    the directory, then what lies below its entries that are not
    skipped, the last entry first. *)
Fixpoint visit_order (depth : nat) (self : SkippedPathDetecter regex)
         (path : string) : list string :=
  match depth with
  | O => []
  | S depth =>
      match listdir path with
      | None => []
      | Some entries =>
          path :: concat (map (visit_order depth self)
                              (rev (pushed self path entries)))
      end
  end.

(** [pieces_of s l]: the string [s] is made of the pieces [l], in
    order, with white space before the first, between two that follow
    each other (there at least one character) and after the last, and
    of nothing else. *)
Inductive pieces_of : string -> list string -> Prop :=
| pieces_none ws :
    all_space ws -> pieces_of ws []
| pieces_last ws w :
    all_space ws -> is_piece w -> pieces_of (ws ++ w) [w]
| pieces_more ws w c rest l :
    all_space ws -> is_piece w -> Str.isspace c = true ->
    pieces_of rest l ->
    pieces_of (ws ++ w ++ String c rest) (w :: l).

(** ** Properties *)

(** *** The monad *)

Lemma bind_ret {A B} (a : A) (k : A -> py B) : bind (ret a) k = k a.
Proof. unfold bind, ret. destruct (k a) as [r t]. reflexivity. Qed.

Lemma bind_raise {A B} (e : exn) (k : A -> py B) :
  bind (raise e) k = raise e.
Proof. reflexivity. Qed.

Lemma bind_lift_ret {A B} (a : A) (k : A -> py B) :
  bind (lift (Ret a)) k = k a.
Proof. apply bind_ret. Qed.

Lemma bind_emit {B} (ev : event) (k : unit -> py B) :
  bind (emit ev) k = (fst (k tt), ev :: snd (k tt)).
Proof. unfold bind, emit. destruct (k tt) as [r t]. reflexivity. Qed.

Lemma bind_pair {A B} (r : outcome A) (t : list event) (k : A -> py B) :
  bind (r, t) k
  = match r with
    | Ret a => (fst (k a), t ++ snd (k a))
    | Raise e => (Raise e, t)
    end.
Proof. unfold bind. destruct r; [destruct (k a)|]; reflexivity. Qed.

(** *** The coverage scan *)

Lemma fold_left_concat {A B C} (f : A -> B -> A) (g : C -> list B)
      (l : list C) (a : A) :
  fold_left (fun acc x => fold_left f (g x) acc) l a
  = fold_left f (concat (map g l)) a.
Proof.
  revert a. induction l as [|x l IH]; intros a; simpl; [reflexivity|].
  rewrite fold_left_app. apply IH.
Qed.

Lemma count_lines_scanned (root : element) :
  count_lines root = fold_left count_line (scanned_lines root) (0, 0)%Z.
Proof.
  unfold count_lines, scanned_lines.
  generalize (0, 0)%Z. induction (ET.iter "class" root) as [|x l IH];
    intros a; simpl; [reflexivity|].
  rewrite fold_left_app.
  rewrite (fold_left_concat count_line (ET.iter "line") (ET.iter "method" x)).
  apply IH.
Qed.

Lemma fold_count_line (lines : list element) (u c : Z) :
  fold_left count_line lines (u, c)
  = ((u + Z.of_nat (length (filter (fun l => uncovered_line l = true) lines)))%Z,
     (c + Z.of_nat (length (filter (fun l => uncovered_line l = false) lines)))%Z).
Proof.
  revert u c. induction lines as [|x lines IH]; intros u c; cbn [fold_left].
  - cbn. f_equal; lia.
  - destruct (uncovered_line x) eqn:E.
    + rewrite filter_cons_True, filter_cons_False by congruence.
      replace (count_line (u, c) x) with (u + 1, c)%Z
        by (unfold count_line; fold (uncovered_line x); rewrite E; reflexivity).
      rewrite IH. cbn [length]. f_equal; lia.
    + rewrite filter_cons_False, filter_cons_True by congruence.
      replace (count_line (u, c) x) with (u, c + 1)%Z
        by (unfold count_line; fold (uncovered_line x); rewrite E; reflexivity).
      rewrite IH. cbn [length]. f_equal; lia.
Qed.


(** *** The coverage gate *)

(** C4: no coverage section, the gate passes; a coverage section
    without the threshold, it fails, and no file is looked at; a
    threshold and no report file at the root, it fails. *)
Theorem C4_coverage_gate_without_report (path_root : string)
        (d : gmap string json) :
  (d !! CONFIG_KEY_COVERAGE = None ->
   coverage_is_sufficient path_root (JObj d)
   = (Ret true,
      [EvLog INFO
             "Skipping coverage calculation because config file is missing the %s key."
             [AStr "coverage"]]))
  /\ (forall c : gmap string json,
         d !! CONFIG_KEY_COVERAGE = Some (JObj c) ->
         c !! CONFIG_KEY_MIN_PERCENTAGE = None ->
         coverage_is_sufficient path_root (JObj d)
         = (Ret false,
            [EvLog ERROR "Could not find coverage threshold in %s"
                   [AStr ".golang_coverage_lintrc.json"]]))
  /\ (forall (c : gmap string json) (threshold : json),
         d !! CONFIG_KEY_COVERAGE = Some (JObj c) ->
         c !! CONFIG_KEY_MIN_PERCENTAGE = Some threshold ->
         isfile (report_path path_root) = false ->
         coverage_is_sufficient path_root (JObj d)
         = (Ret false,
            [EvIsFile (report_path path_root);
             EvLog ERROR "Could not find coverage report (%s)."
                   [AStr (report_path path_root)]])).
Proof.
  unfold coverage_is_sufficient, report_path. repeat split.
  - intros H. cbn [Json.contains Json.getitem]. rewrite H.
    rewrite bool_decide_eq_false_2 by (intros [? ?]; discriminate).
    reflexivity.
  - intros c Hc Hm. cbn [Json.contains Json.getitem]. rewrite Hc.
    rewrite bool_decide_eq_true_2 by eauto.
    rewrite bind_lift_ret. cbn [negb]. rewrite bind_lift_ret.
    cbn [Json.contains]. rewrite Hm.
    rewrite bool_decide_eq_false_2 by (intros [? ?]; discriminate).
    reflexivity.
  - intros c threshold Hc Hm Hf. cbn [Json.contains Json.getitem]. rewrite Hc.
    rewrite bool_decide_eq_true_2 by eauto.
    rewrite bind_lift_ret. cbn [negb]. rewrite bind_lift_ret.
    cbn [Json.contains]. rewrite Hm.
    rewrite bool_decide_eq_true_2 by eauto.
    rewrite bind_lift_ret. cbn [negb].
    unfold os_path_isfile. rewrite Hf. reflexivity.
Qed.

(** *** Floats: no operation of the gate yields NaN *)

Lemma shr_1_nonneg (r : shr_record) :
  (0 <= shr_m r)%Z -> (0 <= shr_m (shr_1 r))%Z.
Proof.
  destruct r as [m b s]. cbn. intros H.
  destruct m as [|[p|p|]|p]; cbn; lia.
Qed.

Lemma iter_shr_1_nonneg (n : positive) (r : shr_record) :
  (0 <= shr_m r)%Z -> (0 <= shr_m (SpecFloat.iter_pos shr_1 n r))%Z.
Proof.
  revert r. induction n as [n IH|n IH|]; intros r H; cbn.
  - apply IH, IH, shr_1_nonneg, H.
  - apply IH, IH, H.
  - apply shr_1_nonneg, H.
Qed.

Lemma shr_fexp_nonneg (m e : Z) (l : location) :
  (0 <= m)%Z -> (0 <= shr_m (fst (shr_fexp Float.prec Float.emax m e l)))%Z.
Proof.
  intros H. unfold shr_fexp, shr.
  assert (H0 : (0 <= shr_m (shr_record_of_loc m l))%Z).
  { destruct l as [|[]]; exact H. }
  destruct (_ - e)%Z; cbn [fst]; auto using iter_shr_1_nonneg.
Qed.

Lemma round_nearest_even_nonneg (m : Z) (l : location) :
  (0 <= m)%Z -> (0 <= round_nearest_even m l)%Z.
Proof.
  intros H. unfold round_nearest_even.
  destruct l as [|[]]; try destruct (Z.even m); lia.
Qed.

Lemma binary_round_aux_not_nan (sx : bool) (mx ex : Z) (lx : location) :
  (0 <= mx)%Z ->
  Float.is_nan (binary_round_aux Float.prec Float.emax sx mx ex lx) = false.
Proof.
  intros H. unfold binary_round_aux.
  pose proof (shr_fexp_nonneg mx ex lx H) as H1.
  destruct (shr_fexp Float.prec Float.emax mx ex lx) as [mrs' e'].
  cbn [fst] in H1.
  pose proof (shr_fexp_nonneg _ e' loc_Exact
                (round_nearest_even_nonneg _ (loc_of_shr_record mrs') H1))
    as H2.
  destruct (shr_fexp Float.prec Float.emax _ e' loc_Exact) as [mrs'' e''].
  cbn [fst] in H2.
  destruct (shr_m mrs'') as [|p|p]; [reflexivity| |lia].
  destruct (e'' <=? _)%Z; reflexivity.
Qed.

(** [float(n)], when it returns, returns zero or an ordinary number. *)
Lemma of_int_finite (n : Z) (f : spec_float) :
  Float.of_int n = Ret f -> Float.is_finite f = true.
Proof.
  unfold Float.of_int.
  assert (H : Float.is_nan (binary_normalize Float.prec Float.emax n 0 false)
              = false).
  { destruct n as [|p|p]; [reflexivity| |]; cbn [binary_normalize];
      unfold binary_round; destruct (shl_align _ _ _) as [mz ez];
      apply binary_round_aux_not_nan; lia. }
  destruct (binary_normalize _ _ _ _ _); try discriminate;
    intros [= <-]; reflexivity.
Qed.

Lemma mul_not_nan (x y : spec_float) :
  Float.is_finite x = true -> Float.is_finite y = true ->
  Float.is_nan (Float.mul x y) = false.
Proof.
  destruct x, y; try discriminate; intros _ _; try reflexivity.
  cbn. apply binary_round_aux_not_nan. lia.
Qed.

Lemma div_not_nan (x y q : spec_float) :
  Float.is_nan x = false -> Float.is_finite y = true ->
  Float.div x y = Ret q -> Float.is_nan q = false.
Proof.
  unfold Float.div. destruct y as [| | |sy my ey]; try discriminate.
  intros Hx _ [= <-].
  destruct x as [| | |sx mx ex]; try discriminate; try reflexivity.
  cbn [SFdiv].
  destruct (SFdiv_core_binary Float.prec Float.emax (Z.pos mx) ex (Z.pos my) ey)
    as [[mz ez] lz] eqn:E.
  apply binary_round_aux_not_nan.
  unfold SFdiv_core_binary in E.
  set (m' := match (_ - _)%Z with
             | Z.pos _ => _ | 0%Z => _ | Z.neg _ => _
             end) in E.
  assert (H : (0 <= m')%Z).
  { subst m'. destruct (_ - _)%Z; try lia. apply Z.shiftl_nonneg. lia. }
  pose proof (Z.div_pos m' (Z.pos my) H ltac:(lia)) as H0.
  unfold Z.div in H0.
  destruct (Z.div_eucl m' (Z.pos my)) as [q r]. injection E as <- _ _.
  exact H0.
Qed.

(** *** Floats: the float of a count that is not zero is not zero *)

Lemma shr_1_div2 (r : shr_record) :
  (0 <= shr_m r)%Z -> shr_m (shr_1 r) = (shr_m r / 2)%Z.
Proof.
  destruct r as [m b s]. cbn. intros H.
  destruct m as [|[p|p|]|p]; cbn [shr_m]; try lia.
  - reflexivity.
  - apply (Z.div_unique _ 2 _ 1); lia.
  - apply (Z.div_unique _ 2 _ 0); lia.
  - reflexivity.
Qed.

Lemma iter_shr_1_div (n : positive) (r : shr_record) :
  (0 <= shr_m r)%Z ->
  shr_m (SpecFloat.iter_pos shr_1 n r) = (shr_m r / 2 ^ Z.pos n)%Z.
Proof.
  revert r. induction n as [n IH|n IH|]; intros r H; cbn [SpecFloat.iter_pos].
  - rewrite IH, IH, shr_1_div2 by auto using shr_1_nonneg, iter_shr_1_nonneg.
    rewrite !Z.div_div by lia. f_equal.
    replace (Z.pos n~1) with (Z.pos n + Z.pos n + 1)%Z by lia.
    rewrite !Z.pow_add_r by lia. lia.
  - rewrite IH, IH by auto using iter_shr_1_nonneg.
    rewrite !Z.div_div by lia. f_equal.
    replace (Z.pos n~0) with (Z.pos n + Z.pos n)%Z by lia.
    rewrite !Z.pow_add_r by lia. lia.
  - rewrite shr_1_div2 by exact H. reflexivity.
Qed.

Lemma digits2_pos_le (p : positive) :
  (2 ^ (Z.pos (digits2_pos p) - 1) <= Z.pos p)%Z.
Proof.
  induction p as [p IH|p IH|]; cbn [digits2_pos].
  - rewrite Pos2Z.inj_succ.
    replace (Z.succ (Z.pos (digits2_pos p)) - 1)%Z
      with (Z.succ (Z.pos (digits2_pos p) - 1)) by lia.
    rewrite Z.pow_succ_r by lia. lia.
  - rewrite Pos2Z.inj_succ.
    replace (Z.succ (Z.pos (digits2_pos p)) - 1)%Z
      with (Z.succ (Z.pos (digits2_pos p) - 1)) by lia.
    rewrite Z.pow_succ_r by lia. lia.
  - cbn. lia.
Qed.

(** A positive mantissa with an exponent that is not below the least
    one stays positive when it is shifted to its format. *)
Lemma shr_fexp_pos (m e : Z) (l : location) :
  (0 < m)%Z -> (Float.emin <= e)%Z ->
  (0 < shr_m (fst (shr_fexp Float.prec Float.emax m e l)))%Z
  /\ (e <= snd (shr_fexp Float.prec Float.emax m e l))%Z.
Proof.
  intros Hm He. unfold shr_fexp, shr.
  assert (H0 : shr_m (shr_record_of_loc m l) = m).
  { destruct l as [|[]]; reflexivity. }
  destruct m as [|p|p]; try lia.
  cbn [Zdigits2].
  pose proof (digits2_pos_le p) as Hd.
  set (d := Z.pos (digits2_pos p)) in *.
  unfold fexp, SpecFloat.emin. fold Float.emin.
  destruct (Z.max (d + e - Float.prec) Float.emin - e)%Z as [|n|n] eqn:En;
    cbn [fst snd]; try (rewrite H0; lia).
  rewrite iter_shr_1_div by (rewrite H0; lia). rewrite H0. split; [|lia].
  assert (Hn : Z.pos n = (d - Float.prec)%Z) by (unfold Float.prec in *; lia).
  apply Z.div_str_pos. split; [apply Z.pow_pos_nonneg; lia|].
  etransitivity; [|exact Hd].
  apply Z.pow_le_mono_r; unfold Float.prec in *; lia.
Qed.

Lemma binary_round_aux_not_zero (sx : bool) (mx ex : Z) (lx : location) :
  (0 < mx)%Z -> (Float.emin <= ex)%Z ->
  match binary_round_aux Float.prec Float.emax sx mx ex lx with
  | S754_finite _ _ _ | S754_infinity _ => True
  | _ => False
  end.
Proof.
  intros Hm He. unfold binary_round_aux.
  pose proof (shr_fexp_pos mx ex lx Hm He) as [H1 H1'].
  destruct (shr_fexp Float.prec Float.emax mx ex lx) as [mrs' e'].
  cbn [fst snd] in H1, H1'.
  assert (Hr : (0 < round_nearest_even (shr_m mrs')
                                       (loc_of_shr_record mrs'))%Z).
  { unfold round_nearest_even. destruct (loc_of_shr_record mrs') as [|[]];
      try destruct (Z.even _); lia. }
  pose proof (shr_fexp_pos _ e' loc_Exact Hr ltac:(lia)) as [H2 _].
  destruct (shr_fexp Float.prec Float.emax _ e' loc_Exact) as [mrs'' e''].
  cbn [fst] in H2.
  destruct (shr_m mrs'') as [|p|p]; try lia.
  destruct (e'' <=? _)%Z; exact I.
Qed.

(** [float(n)] of an integer that is not zero is not zero. *)
Lemma of_int_not_zero (n : Z) (f : spec_float) :
  n <> 0%Z -> Float.of_int n = Ret f ->
  exists s m e, f = S754_finite s m e.
Proof.
  intros Hn. unfold Float.of_int.
  assert (H : match binary_normalize Float.prec Float.emax n 0 false with
              | S754_finite _ _ _ | S754_infinity _ => True
              | _ => False
              end).
  { destruct n as [|p|p]; [lia| |]; cbn [binary_normalize];
      unfold binary_round, shl_align;
      set (e0 := fexp Float.prec Float.emax (Z.pos (digits2_pos p) + 0));
      assert (Float.emin <= e0)%Z
        by (subst e0; unfold fexp, SpecFloat.emin; fold Float.emin; lia);
      destruct (e0 - 0)%Z eqn:E; apply binary_round_aux_not_zero;
      unfold Float.emin, Float.emax, Float.prec in *; lia. }
  destruct (binary_normalize _ _ _ _ _); try contradiction; try discriminate.
  intros [= <-]. eauto.
Qed.

(** A division by the float of such an integer does not raise. *)
Lemma div_by_count (x y : spec_float) (n : Z) :
  n <> 0%Z -> Float.of_int n = Ret y ->
  Float.div x y = Ret (SFdiv Float.prec Float.emax x y).
Proof.
  intros Hn Hy. destruct (of_int_not_zero n y Hn Hy) as (s & m & e & ->).
  reflexivity.
Qed.

(** The percentage the gate computes is never NaN. *)
Lemma percent_not_nan (covered total : Z)
      (fcovered ftotal percent : spec_float) :
  Float.of_int covered = Ret fcovered ->
  Float.of_int total = Ret ftotal ->
  Float.div (Float.mul Float.hundred fcovered) ftotal = Ret percent ->
  Float.is_nan percent = false.
Proof.
  intros Hc Ht Hp.
  apply (div_not_nan _ _ _
                     (mul_not_nan Float.hundred fcovered eq_refl
                                  (of_int_finite _ _ Hc))
                     (of_int_finite _ _ Ht) Hp).
Qed.

Lemma SFcompare_antisym (x y : spec_float) :
  SFcompare y x = option_map CompOpp (SFcompare x y).
Proof.
  destruct x as [sx|sx| |sx mx ex], y as [sy|sy| |sy my ey]; cbn;
    try reflexivity;
    try (destruct sx; reflexivity); try (destruct sy; reflexivity);
    try (destruct sx, sy; reflexivity).
  destruct sx, sy; try reflexivity; f_equal;
    rewrite (Z.compare_antisym ex ey); destruct (Z.compare ex ey);
      cbn; try reflexivity.
  - rewrite CompOpp_involutive.
    exact (Pos.compare_cont_antisym my mx Eq).
  - symmetry. exact (Pos.compare_cont_antisym mx my Eq).
Qed.

(** When neither float is NaN, [not (x < y)] is [x >= y]. *)
Lemma not_lt_is_ge (x y : spec_float) :
  Float.is_nan x = false -> Float.is_nan y = false ->
  negb (Float.lt x y) = Float.ge x y.
Proof.
  unfold Float.lt, Float.ge, SFltb, SFleb. rewrite (SFcompare_antisym x y).
  intros Hx Hy. destruct (SFcompare x y) as [[]|] eqn:E; try reflexivity.
  destruct x, y; try discriminate; cbn in E;
    repeat match type of E with
           | context [if ?b then _ else _] => destruct b
           | context [match ?b with true => _ | false => _ end] => destruct b
           end; discriminate.
Qed.

Lemma coverage_configured (path_root : string) (d c : gmap string json)
      (threshold : json) (root : element) :
  d !! CONFIG_KEY_COVERAGE = Some (JObj c) ->
  c !! CONFIG_KEY_MIN_PERCENTAGE = Some threshold ->
  isfile (report_path path_root) = true ->
  fs_xml fs (report_path path_root) = Some root ->
  coverage_is_sufficient path_root (JObj d)
  = (fst (compare_coverage (JObj d) (fst (count_lines root))
                           (snd (count_lines root))),
     [EvIsFile (report_path path_root); EvParseXml (report_path path_root)]
       ++ snd (compare_coverage (JObj d) (fst (count_lines root))
                                (snd (count_lines root)))).
Proof.
  intros Hc Hm Hf Hx. unfold coverage_is_sufficient.
  fold (report_path path_root).
  cbn [Json.contains Json.getitem]. rewrite Hc.
  rewrite bool_decide_eq_true_2 by eauto.
  rewrite bind_lift_ret. cbn [negb]. rewrite bind_lift_ret.
  cbn [Json.contains]. rewrite Hm.
  rewrite bool_decide_eq_true_2 by eauto.
  rewrite bind_lift_ret. cbn [negb].
  unfold os_path_isfile, et_parse. rewrite Hf, Hx.
  cbn -[compare_coverage count_lines].
  destruct (count_lines root) as [u cov]. cbn [fst snd].
  destruct (compare_coverage (JObj d) u cov) as [r t] eqn:E.
  destruct r; reflexivity.
Qed.

Lemma threshold_lookup (d c : gmap string json) (threshold : json) :
  d !! CONFIG_KEY_COVERAGE = Some (JObj c) ->
  c !! CONFIG_KEY_MIN_PERCENTAGE = Some threshold ->
  Json.getitem (JObj d) CONFIG_KEY_COVERAGE = Ret (JObj c)
  /\ Json.getitem (JObj c) CONFIG_KEY_MIN_PERCENTAGE = Ret threshold.
Proof. intros Hc Hm. cbn. rewrite Hc, Hm. split; reflexivity. Qed.

(** C3 (where the script departs from it): with a threshold configured
    and a report in which the scan counts no line, the gate evaluates
    [100.0 * 0.0 / 0.0] and raises [ZeroDivisionError]; it returns
    neither true nor false. *)
Theorem C3_empty_report_raises (path_root : string) (d c : gmap string json)
        (threshold : json) (root : element) :
  d !! CONFIG_KEY_COVERAGE = Some (JObj c) ->
  c !! CONFIG_KEY_MIN_PERCENTAGE = Some threshold ->
  isfile (report_path path_root) = true ->
  fs_xml fs (report_path path_root) = Some root ->
  count_lines root = (0, 0)%Z ->
  coverage_is_sufficient path_root (JObj d)
  = (Raise ZeroDivisionError,
     [EvIsFile (report_path path_root); EvParseXml (report_path path_root)]).
Proof.
  intros Hc Hm Hf Hx H0.
  rewrite (coverage_configured _ _ _ _ _ Hc Hm Hf Hx), H0.
  reflexivity.
Qed.

(** C2 (as amended): with a threshold configured, the report parsed and
    at least one line counted, the gate computes
    [percent = 100.0 * covered / (covered + uncovered)] in binary64 and
    fails iff [percent < min_percent]; so it passes iff
    [percent >= min_percent] for every threshold that is not NaN, and it
    passes for the threshold NaN.  With 80 lines covered and 20
    uncovered the percentage is exactly 80.0; a minimum of 80.0 passes
    and a minimum of 80.1 fails. *)
Theorem C2_threshold_comparison (path_root : string) (d c : gmap string json)
        (threshold : json) (root : element) (uncovered covered : Z)
        (fcovered ftotal min_percent : spec_float) :
  d !! CONFIG_KEY_COVERAGE = Some (JObj c) ->
  c !! CONFIG_KEY_MIN_PERCENTAGE = Some threshold ->
  isfile (report_path path_root) = true ->
  fs_xml fs (report_path path_root) = Some root ->
  count_lines root = (uncovered, covered) ->
  (covered + uncovered)%Z <> 0%Z ->
  Float.of_int covered = Ret fcovered ->
  Float.of_int (covered + uncovered) = Ret ftotal ->
  py_float threshold = (Ret min_percent, []) ->
  let percent :=
    SFdiv Float.prec Float.emax (Float.mul Float.hundred fcovered) ftotal in
  fst (coverage_is_sufficient path_root (JObj d))
  = Ret (negb (Float.lt percent min_percent))
  /\ (Float.is_nan min_percent = false ->
      fst (coverage_is_sufficient path_root (JObj d))
      = Ret (Float.ge percent min_percent))
  /\ (Float.is_nan min_percent = true ->
      fst (coverage_is_sufficient path_root (JObj d)) = Ret true)
  /\ ((uncovered, covered) = (20, 80)%Z ->
      percent = Demo.f80
      /\ (min_percent = Demo.f80 ->
          fst (coverage_is_sufficient path_root (JObj d)) = Ret true)
      /\ (min_percent = Demo.f80_1 ->
          fst (coverage_is_sufficient path_root (JObj d)) = Ret false)).
Proof.
  intros Hc Hm Hf Hx Hn Hne Hfc Hft Hmin percent.
  pose proof (div_by_count (Float.mul Float.hundred fcovered) ftotal _ Hne Hft)
    as Hp.
  fold percent in Hp.
  assert (Hres : fst (coverage_is_sufficient path_root (JObj d))
                 = Ret (negb (Float.lt percent min_percent))).
  { rewrite (coverage_configured _ _ _ _ _ Hc Hm Hf Hx), Hn. cbn [fst snd].
    destruct (threshold_lookup _ _ _ Hc Hm) as [G1 G2].
    unfold compare_coverage.
    rewrite Hfc, bind_lift_ret, Hft, bind_lift_ret, Hp, bind_lift_ret.
    rewrite G1, bind_lift_ret, G2, bind_lift_ret, Hmin.
    change (Ret min_percent, @nil event) with (@ret spec_float min_percent).
    rewrite bind_ret.
    destruct (Float.lt percent min_percent); reflexivity. }
  split; [exact Hres|]. split; [|split].
  - intros Hnan. rewrite Hres. f_equal. apply not_lt_is_ge; [|exact Hnan].
    exact (percent_not_nan _ _ _ _ _ Hfc Hft Hp).
  - rewrite Hres. destruct min_percent; try discriminate. intros _.
    unfold Float.lt, SFltb. destruct percent; reflexivity.
  - intros [= -> ->].
    assert (percent = Demo.f80) as E.
    { vm_compute in Hfc, Hft. injection Hfc as <-. injection Hft as <-.
      reflexivity. }
    split; [exact E|]. rewrite Hres, E.
    split; intros ->; reflexivity.
Qed.

(** *** The orchestrator *)

Lemma main_with_config (fuel : nat) (args : Namespace) (config : json)
      (ignored : list regex) (tc : list event) :
  isfile config_path = true ->
  fs_json fs config_path = Parsed config ->
  compile_ignored args = (Ret ignored, tc) ->
  main fuel args
  = match config with
    | JNull => Some (Ret 1%Z, [EvIsFile config_path; EvOpen config_path])
    | _ =>
        match all_directories_have_tests fuel (fs_cwd fs) config ignored with
        | None => None
        | Some (Raise e, t1) =>
            Some (Raise e, [EvIsFile config_path; EvOpen config_path]
                             ++ tc ++ t1)
        | Some (Ret false, t1) =>
            Some (Ret 1%Z, [EvIsFile config_path; EvOpen config_path]
                             ++ tc ++ t1)
        | Some (Ret true, t1) =>
            match coverage_is_sufficient (fs_cwd fs) config with
            | (Raise e, t2) =>
                Some (Raise e, [EvIsFile config_path; EvOpen config_path]
                                 ++ tc ++ t1 ++ t2)
            | (Ret sufficient, t2) =>
                Some (Ret (if sufficient then 0 else 1)%Z,
                      [EvIsFile config_path; EvOpen config_path]
                        ++ tc ++ t1 ++ t2)
            end
        end
    end.
Proof.
  intros Hf Hj Hc. unfold main. fold config_path.
  unfold os_path_isfile, load_config_file. rewrite Hf, Hj, Hc.
  cbn -[all_directories_have_tests coverage_is_sufficient].
  destruct config; try reflexivity;
    (destruct (all_directories_have_tests _ _ _ _) as [[[[|]|e] t1]|];
     cbn -[coverage_is_sufficient]; try reflexivity;
     [destruct (coverage_is_sufficient _ _) as [[[|]|e] t2]; cbn;
      rewrite ?app_nil_r; reflexivity
     | rewrite ?app_nil_r; reflexivity ..]).
Qed.

Lemma gate_on_None (fuel : nat) (path_root : string) (ignored : list regex) :
  all_directories_have_tests fuel path_root JNull ignored
  = Some (Raise TypeError, []).
Proof. reflexivity. Qed.

(** C5: without a configuration file at the root [main] returns 0 and
    has looked at nothing but that file: no directory is listed and no
    report is read.  With a configuration file that is not JSON it
    returns 1. *)
Theorem C5_config_absent_or_unparsable (fuel : nat) (args : Namespace) :
  (isfile config_path = false ->
   main fuel args
   = Some (Ret 0%Z,
           [EvIsFile config_path;
            EvLog INFO "Create %s to enable the golang test coverage linter"
                  [AStr ".golang_coverage_lintrc.json"]]))
  /\ (isfile config_path = true ->
      fs_json fs config_path = NotJson ->
      main fuel args
      = Some (Ret 1%Z,
              [EvIsFile config_path; EvOpen config_path;
               EvLog ERROR "Could not parse coverage config file %s: %s"
                     [AStr config_path; AExn ValueError]])).
Proof.
  split.
  - intros Hf. unfold main. fold config_path.
    unfold os_path_isfile. rewrite Hf. reflexivity.
  - intros Hf Hj. unfold main. fold config_path.
    unfold os_path_isfile, load_config_file. rewrite Hf, Hj. reflexivity.
Qed.

(** C6: with a configuration read, [main] runs the test-presence gate,
    then the coverage gate.  If the first gate returns false, [main]
    returns 1 and its trace ends with that gate: the coverage gate has
    not run.  If the first passes and the second returns false, [main]
    returns 1.  [main] returns 0 exactly when both gates return true,
    the events of the first gate before those of the second. *)
Theorem C6_gates_in_order (fuel : nat) (args : Namespace) (config : json)
        (ignored : list regex) (tc : list event) :
  isfile config_path = true ->
  fs_json fs config_path = Parsed config ->
  compile_ignored args = (Ret ignored, tc) ->
  let before := [EvIsFile config_path; EvOpen config_path] ++ tc in
  let gate1 := all_directories_have_tests fuel (fs_cwd fs) config ignored in
  let gate2 := coverage_is_sufficient (fs_cwd fs) config in
  (forall t1, gate1 = Some (Ret false, t1) ->
              main fuel args = Some (Ret 1%Z, before ++ t1))
  /\ (forall t1 t2, gate1 = Some (Ret true, t1) -> gate2 = (Ret false, t2) ->
                    main fuel args = Some (Ret 1%Z, before ++ t1 ++ t2))
  /\ (forall t1 t2, gate1 = Some (Ret true, t1) -> gate2 = (Ret true, t2) ->
                    main fuel args = Some (Ret 0%Z, before ++ t1 ++ t2))
  /\ (forall t, main fuel args = Some (Ret 0%Z, t) ->
                exists t1 t2, gate1 = Some (Ret true, t1)
                              /\ gate2 = (Ret true, t2)
                              /\ t = before ++ t1 ++ t2).
Proof.
  intros Hf Hj Hc before gate1 gate2.
  pose proof (main_with_config fuel args config ignored tc Hf Hj Hc) as Hm.
  assert (Hnull : config = JNull -> gate1 = Some (Raise TypeError, [])).
  { intros ->. apply gate_on_None. }
  subst before gate1 gate2. repeat split.
  - intros t1 H1. rewrite Hm, H1.
    destruct config; try reflexivity.
    rewrite Hnull in H1 by reflexivity. discriminate.
  - intros t1 t2 H1 H2. rewrite Hm, H1, H2.
    destruct config; rewrite <- ?app_assoc; try reflexivity.
    rewrite Hnull in H1 by reflexivity. discriminate.
  - intros t1 t2 H1 H2. rewrite Hm, H1, H2.
    destruct config; rewrite <- ?app_assoc; try reflexivity.
    rewrite Hnull in H1 by reflexivity. discriminate.
  - intros t Ht. rewrite Hm in Ht.
    assert (G : match all_directories_have_tests fuel (fs_cwd fs) config ignored with
                | None => None
                | Some (Raise e, t1) =>
                    Some (Raise e, [EvIsFile config_path; EvOpen config_path]
                                     ++ tc ++ t1)
                | Some (Ret false, t1) =>
                    Some (Ret 1%Z, [EvIsFile config_path; EvOpen config_path]
                                     ++ tc ++ t1)
                | Some (Ret true, t1) =>
                    match coverage_is_sufficient (fs_cwd fs) config with
                    | (Raise e, t2) =>
                        Some (Raise e, [EvIsFile config_path; EvOpen config_path]
                                         ++ tc ++ t1 ++ t2)
                    | (Ret sufficient, t2) =>
                        Some (Ret (if sufficient then 0 else 1)%Z,
                              [EvIsFile config_path; EvOpen config_path]
                                ++ tc ++ t1 ++ t2)
                    end
                end = Some (Ret 0%Z, t)).
    { destruct config; try exact Ht. discriminate Ht. }
    clear Ht Hm.
    destruct (all_directories_have_tests fuel (fs_cwd fs) config ignored)
      as [[[[|]|e] t1]|]; try discriminate G.
    destruct (coverage_is_sufficient (fs_cwd fs) config) as [[[|]|e] t2];
      try discriminate G.
    injection G as <-. exists t1, t2. rewrite <- app_assoc. auto.
Qed.

(** *** The directory-skip predicate *)

Lemma relpath_total (cwd path start : string) :
  path <> "" -> exists rel, PosixPath.relpath cwd path start = Ret rel.
Proof.
  intros Hp. unfold PosixPath.relpath.
  destruct (String.eqb_spec path "") as [->|_]; [done|].
  destruct (_ ++ _); eauto.
Qed.

Lemma isdir_nonempty (path : string) : isdir path = true -> path <> "".
Proof. unfold isdir. intros H ->. discriminate H. Qed.

Lemma existsb_elem_of {A} (f : A -> bool) (l : list A) :
  existsb f l = true <-> exists x, x ∈ l /\ f x = true.
Proof.
  rewrite existsb_exists. split; intros (x & Hx & Hf); exists x;
    (split; [apply list_elem_of_In; exact Hx | exact Hf]).
Qed.

Lemma should_skip_eq (self : SkippedPathDetecter regex) (path : string) :
  should_skip self path
  = if negb (isdir path) then (Ret true, [EvIsDir path])
    else if islink path then (Ret true, [EvIsDir path; EvIsLink path])
    else match PosixPath.relpath (fs_cwd fs) path (_path_root self) with
         | Ret rel_path =>
             (Ret (skip_rules self rel_path), [EvIsDir path; EvIsLink path])
         | Raise e => (Raise e, [EvIsDir path; EvIsLink path])
         end.
Proof.
  unfold should_skip, os_path_isdir, os_path_islink, os_path_relpath,
    skip_rules.
  destruct (isdir path); [|reflexivity].
  destruct (islink path); [reflexivity|].
  destruct (PosixPath.relpath _ _ _) as [rel|e]; [|reflexivity].
  cbn. repeat case_bool_decide; reflexivity.
Qed.

(** C7: [should_skip] returns, and returns true iff the path is not a
    directory, or is a symbolic link, or its path relative to the root
    is one of [.git], [.gen], [.tmp], [vendor], [go-build], or is in the
    configured set, or is matched by a configured regex.  The checks
    come in that order and stop at the first that holds: a path that is
    not a directory is not asked for being a link, and the relative
    path is looked at only for a directory that is not a link. *)
Theorem C7_should_skip (self : SkippedPathDetecter regex) (path : string) :
  exists skip : bool,
    fst (should_skip self path) = Ret skip
    /\ (skip = true <->
        isdir path = false
        \/ islink path = true
        \/ exists rel_path,
            PosixPath.relpath (fs_cwd fs) path (_path_root self) = Ret rel_path
            /\ (rel_path ∈ [".git"; ".gen"; ".tmp"; "vendor"; "go-build"]
                \/ rel_path ∈ _skipped_paths self
                \/ exists prog, prog ∈ _skipped_regex_paths self
                                /\ re_match prog rel_path = true))
    /\ snd (should_skip self path)
       = (if isdir path then [EvIsDir path; EvIsLink path]
          else [EvIsDir path])
    /\ (isdir path = false -> skip = true)
    /\ (isdir path = true -> islink path = true -> skip = true)
    /\ (isdir path = true -> islink path = false ->
        exists rel_path,
          PosixPath.relpath (fs_cwd fs) path (_path_root self) = Ret rel_path
          /\ skip = if bool_decide (rel_path ∈ _ALWAYS_SKIPPED) then true
                    else if bool_decide (rel_path ∈ _skipped_paths self)
                         then true
                         else existsb (fun prog => re_match prog rel_path)
                                      (_skipped_regex_paths self)).
Proof.
  rewrite should_skip_eq.
  destruct (isdir path) eqn:Hd; cbn [negb].
  2:{ exists true. repeat split; auto; discriminate. }
  destruct (islink path) eqn:Hl.
  { exists true. repeat split; auto; discriminate. }
  destruct (relpath_total (fs_cwd fs) path (_path_root self)
                          (isdir_nonempty _ Hd)) as [rel Hrel].
  rewrite Hrel. exists (skip_rules self rel). cbn [fst snd].
  assert (Hrules : skip_rules self rel = true <->
                   rel ∈ _ALWAYS_SKIPPED \/ rel ∈ _skipped_paths self
                   \/ exists prog, prog ∈ _skipped_regex_paths self
                                   /\ re_match prog rel = true).
  { unfold skip_rules. rewrite !orb_true_iff, !bool_decide_eq_true.
    rewrite existsb_elem_of. apply Logic.or_assoc. }
  split; [reflexivity|]. split; [|split; [reflexivity|]].
  - rewrite Hrules. split.
    + intros H. right. right. exists rel. split; [reflexivity|exact H].
    + intros [H|[H|(rel' & E & H)]]; try discriminate.
      injection E as <-. exact H.
  - split; [discriminate|]. split; [discriminate|].
    intros _ _. exists rel. split; [reflexivity|].
    unfold skip_rules. repeat case_bool_decide; reflexivity.
Qed.

(** *** One iteration of the scanner *)

Lemma should_skip_skipped (self : SkippedPathDetecter regex) (path : string) :
  should_skip self path = (Ret (skipped self path), stat_events path).
Proof.
  rewrite should_skip_eq. unfold skipped, stat_events.
  destruct (isdir path) eqn:Hd; [|reflexivity].
  destruct (islink path); [reflexivity|].
  destruct (relpath_total (fs_cwd fs) path (_path_root self)
                          (isdir_nonempty _ Hd)) as [rel ->].
  reflexivity.
Qed.

Lemma push_subdirectories_eq (self : SkippedPathDetecter regex)
      (parent : string) (entries unvisited : list string) :
  push_subdirectories self parent entries unvisited
  = (Ret (unvisited ++ pushed self parent entries),
     push_events parent entries).
Proof.
  unfold push_subdirectories, pushed, push_events.
  revert unvisited. induction entries as [|e entries IH]; intros unvisited.
  - cbn. rewrite app_nil_r. reflexivity.
  - cbn [for_each map flat_map]. rewrite should_skip_skipped.
    destruct (skipped self (PosixPath.join parent e)) eqn:E.
    + rewrite filter_cons_False by congruence.
      cbn [bind ret]. rewrite IH. rewrite app_nil_r. reflexivity.
    + rewrite filter_cons_True by congruence.
      cbn [bind ret]. rewrite IH. rewrite app_nil_r, <- app_assoc.
      reflexivity.
Qed.

Lemma find_go_files_fold (ignored : list regex) (parent : string)
      (entries : list string) (g t : bool) :
  fold_left
    (fun '(found_go_file, found_test_file) entry =>
       if Str.endswith entry GO_FILE_SUFFIX then
         let path := PosixPath.join parent entry in
         if should_skip_file path ignored
         then (found_go_file, found_test_file)
         else (true, found_test_file
                     || Str.endswith entry GO_TEST_FILE_SUFFIX)
       else (found_go_file, found_test_file))
    entries (g, t)
  = (g || existsb (go_entry ignored parent) entries,
     t || existsb (fun entry => go_entry ignored parent entry
                                && Str.endswith entry GO_TEST_FILE_SUFFIX)
                  entries).
Proof.
  revert g t. induction entries as [|e entries IH]; intros g t.
  - cbn. rewrite !orb_false_r. reflexivity.
  - cbn [fold_left existsb]. unfold go_entry at 1 3.
    destruct (Str.endswith e GO_FILE_SUFFIX); cbn [andb orb].
    + destruct (should_skip_file _ _); cbn [negb andb orb]; rewrite IH.
      * reflexivity.
      * rewrite orb_true_r, orb_assoc. reflexivity.
    + rewrite IH. reflexivity.
Qed.

(** [should_skip_file] answers by the patterns: it returns false iff
    no pattern of the list matches the path, and true iff one does. *)
Lemma should_skip_file_false (path : string) (ignored : list regex) :
  should_skip_file path ignored = false
  <-> forall reg, reg ∈ ignored -> re_match reg path = false.
Proof.
  unfold should_skip_file.
  rewrite <- not_true_iff_false, existsb_elem_of. split.
  - intros H reg Hin. destruct (re_match reg path) eqn:E; [|reflexivity].
    exfalso. apply H. exists reg. split; assumption.
  - intros H (reg & Hin & Hm). rewrite (H reg Hin) in Hm. discriminate Hm.
Qed.

Lemma should_skip_file_true (path : string) (ignored : list regex) :
  should_skip_file path ignored = true
  <-> exists reg, reg ∈ ignored /\ re_match reg path = true.
Proof. unfold should_skip_file. apply existsb_elem_of. Qed.

Lemma is_untested_spec (ignored : list regex) (parent : string)
      (entries : list string) :
  is_untested ignored parent entries = true
  <-> untested ignored parent entries.
Proof.
  unfold is_untested, find_go_files. rewrite find_go_files_fold.
  cbn [fst snd orb]. rewrite andb_true_iff, negb_true_iff.
  rewrite <- not_true_iff_false, !existsb_elem_of.
  unfold untested, counted_go_file, go_entry, GO_FILE_SUFFIX,
    GO_TEST_FILE_SUFFIX.
  split.
  - intros [(e & He & Hg) Hn]. split.
    + exists e. apply andb_true_iff in Hg as [H1 H2%negb_true_iff].
      split; [exact He|]. split; [exact H1|].
      apply (proj1 (should_skip_file_false _ _) H2).
    + intros (e' & He' & [H1 H2] & H3). apply Hn. exists e'.
      apply (proj2 (should_skip_file_false _ _)) in H2.
      rewrite H1, H2, H3. auto.
  - intros [(e & He & H1 & H2) Hn]. split.
    + exists e. apply (proj2 (should_skip_file_false _ _)) in H2.
      rewrite H1, H2. auto.
    + intros (e' & He' & H). apply Hn. exists e'.
      apply andb_true_iff in H
        as [[H3 H4%negb_true_iff]%andb_true_iff H5].
      split; [exact He'|]. split; [|exact H5]. split; [exact H3|].
      apply (proj1 (should_skip_file_false _ _) H4).
Qed.

Lemma visit_eq (self : SkippedPathDetecter regex) (ignored : list regex)
      (parent : string) (entries unvisited bad : list string) :
  listdir parent = Some entries ->
  visit self ignored parent unvisited bad
  = (Ret (unvisited ++ pushed self parent entries,
          if is_untested ignored parent entries
          then bad ++ [parent] else bad),
     EvLog DEBUG "Looking for missing tests in %s" [AStr parent]
           :: EvListdir parent :: push_events parent entries).
Proof.
  intros Hl. unfold visit, os_listdir, logging. rewrite Hl.
  cbn -[push_subdirectories find_go_files].
  rewrite push_subdirectories_eq. unfold is_untested.
  destruct (find_go_files ignored parent entries) as [g t].
  cbn. rewrite app_nil_r. reflexivity.
Qed.

Lemma visit_raises (self : SkippedPathDetecter regex) (ignored : list regex)
      (parent : string) (unvisited bad : list string) :
  listdir parent = None ->
  visit self ignored parent unvisited bad
  = (Raise OSError,
     [EvLog DEBUG "Looking for missing tests in %s" [AStr parent];
      EvListdir parent]).
Proof. intros Hl. unfold visit, os_listdir, logging. rewrite Hl. reflexivity. Qed.

(** *** The loop of the scanner *)

Lemma pop_app {A} (l : list A) (x : A) : pop (l ++ [x]) = Some (x, l).
Proof. unfold pop. rewrite rev_unit, rev_involutive. reflexivity. Qed.

Lemma pop_Some {A} (l r : list A) (x : A) :
  pop l = Some (x, r) -> l = r ++ [x].
Proof.
  unfold pop. destruct (rev l) as [|y r'] eqn:E; [discriminate|].
  intros [= -> <-]. rewrite <- (rev_involutive l), E. reflexivity.
Qed.

Lemma pop_None {A} (l : list A) : pop l = None -> l = [].
Proof.
  unfold pop. destruct (rev l) eqn:E; [|discriminate].
  intros _. rewrite <- (rev_involutive l), E. reflexivity.
Qed.

Lemma scan_nil (fuel : nat) (self : SkippedPathDetecter regex)
      (ignored : list regex) (bad : list string) :
  scan fuel self ignored [] bad = Some (Ret bad, []).
Proof. destruct fuel; reflexivity. Qed.

Lemma scan_push (fuel : nat) (self : SkippedPathDetecter regex)
      (ignored : list regex) (rest : list string) (parent : string)
      (bad : list string) :
  scan (S fuel) self ignored (rest ++ [parent]) bad
  = match visit self ignored parent rest bad with
    | (Raise e, t) => Some (Raise e, t)
    | (Ret s1, t1) =>
        match scan fuel self ignored (fst s1) (snd s1) with
        | None => None
        | Some (r, t) => Some (r, t1 ++ t)
        end
    end.
Proof.
  cbn [scan]. rewrite pop_app. unfold bind_run, step.
  destruct (visit self ignored parent rest bad) as [[s1|e] t1]; reflexivity.
Qed.

(** A run of [scan] that ends has gone through states of the loop: it
    returns the bad paths of a state with nothing left to visit, or it
    raises in the iteration that follows a state. *)
Lemma scan_reaches (self : SkippedPathDetecter regex) (ignored : list regex)
      (fuel : nat) (unvisited bad : list string) (r : outcome (list string))
      (t : list event) :
  scan fuel self ignored unvisited bad = Some (r, t) ->
  (exists bad', r = Ret bad'
                /\ loop_reaches self ignored (unvisited, bad) ([], bad') t)
  \/ (exists unvisited' bad' t1 parent rest e t2,
         r = Raise e /\ t = t1 ++ t2
         /\ loop_reaches self ignored (unvisited, bad) (unvisited', bad') t1
         /\ pop unvisited' = Some (parent, rest)
         /\ visit self ignored parent rest bad' = (Raise e, t2)).
Proof.
  revert unvisited bad r t.
  induction fuel as [|fuel IH]; intros unvisited bad r t H.
  - cbn in H. destruct (pop unvisited) as [[parent rest]|] eqn:E;
      [discriminate|].
    injection H as <- <-. apply pop_None in E as ->.
    left. eexists. split; [reflexivity|constructor].
  - destruct (pop unvisited) as [[parent rest]|] eqn:E.
    + pose proof (pop_Some _ _ _ E) as ->. rewrite scan_push in H.
      destruct (visit self ignored parent rest bad) as [[[u1 b1]|e] t1] eqn:V.
      * cbn [fst snd] in H.
        destruct (scan fuel self ignored u1 b1) as [[r' t']|] eqn:S;
          [|discriminate].
        injection H as <- <-.
        destruct (IH _ _ _ _ S) as [(bad' & -> & R)
                                   |(u' & b' & t1' & p' & rest' & e & t2
                                     & -> & -> & R & Hp & Hv)].
        -- left. eexists. split; [reflexivity|].
           eapply loop_iteration; eauto.
        -- right. exists u', b', (t1 ++ t1'), p', rest', e, t2.
           rewrite app_assoc. repeat split; auto.
           eapply loop_iteration; eauto.
      * injection H as <- <-. right.
        exists (rest ++ [parent]), bad, [], parent, rest, e, t1.
        repeat split; auto. constructor.
    + apply pop_None in E as ->. rewrite scan_nil in H.
      injection H as <- <-. left. eexists. split; [reflexivity|constructor].
Qed.

Lemma listed_app (t1 t2 : list event) :
  listed (t1 ++ t2) = listed t1 ++ listed t2.
Proof. unfold listed. apply omap_app. Qed.

Lemma listed_push_events (parent : string) (entries : list string) :
  listed (push_events parent entries) = [].
Proof.
  unfold push_events, stat_events.
  induction entries as [|e entries IH]; [reflexivity|].
  cbn [flat_map]. rewrite listed_app, IH.
  destruct (isdir _); reflexivity.
Qed.

Lemma elem_of_listed (p : string) (t : list event) :
  p ∈ listed t <-> EvListdir p ∈ t.
Proof.
  unfold listed. rewrite list_elem_of_omap. split.
  - intros (ev & Hev & E). destruct ev; try discriminate.
    injection E as <-. exact Hev.
  - intros H. exists (EvListdir p). auto.
Qed.

(** What one iteration does, whether it raises or not. *)
Lemma visit_cases (self : SkippedPathDetecter regex) (ignored : list regex)
      (parent : string) (rest bad : list string) s1 t1 :
  visit self ignored parent rest bad = (Ret s1, t1) ->
  exists entries,
    listdir parent = Some entries
    /\ s1 = (rest ++ pushed self parent entries,
             if is_untested ignored parent entries
             then bad ++ [parent] else bad)
    /\ listed t1 = [parent].
Proof.
  destruct (listdir parent) as [entries|] eqn:Hl.
  - rewrite (visit_eq _ _ _ _ _ _ Hl). intros [= <- <-].
    exists entries. repeat split.
    cbn. rewrite listed_push_events. reflexivity.
  - rewrite (visit_raises _ _ _ _ _ Hl). discriminate.
Qed.

(** A property of paths that pushing preserves holds of everything the
    loop visits, lists and reports. *)
Lemma loop_invariant (self : SkippedPathDetecter regex)
      (ignored : list regex) (P : string -> Prop) :
  (forall parent entries q,
      P parent -> listdir parent = Some entries ->
      q ∈ pushed self parent entries -> P q) ->
  forall s s' t,
    loop_reaches self ignored s s' t ->
    Forall P (fst s) -> Forall P (snd s) ->
    Forall P (fst s') /\ Forall P (snd s') /\ Forall P (listed t).
Proof.
  intros Hpush s s' t R.
  induction R as [s|unvisited bad parent rest s1 t1 s' t Hp Hv R IH];
    intros Hu Hb.
  - repeat split; try assumption. constructor.
  - cbn [fst snd] in Hu, Hb. apply pop_Some in Hp as ->.
    apply Forall_app in Hu as [Hrest Hparent].
    rewrite Forall_singleton in Hparent.
    destruct (visit_cases _ _ _ _ _ _ _ Hv) as (entries & Hl & -> & Hlist).
    cbn [fst snd] in IH.
    destruct IH as (H1 & H2 & H3).
    + apply Forall_app. split; [exact Hrest|].
      apply Forall_forall. intros q Hq.
      exact (Hpush parent entries q Hparent Hl Hq).
    + destruct (is_untested _ _ _); [|exact Hb].
      apply Forall_app. split; [exact Hb|]. apply Forall_singleton. exact Hparent.
    + repeat split; auto. rewrite listed_app, Hlist.
      constructor; assumption.
Qed.

(** The bad paths are the untested directories among those listed. *)
Lemma loop_bad_paths (self : SkippedPathDetecter regex)
      (ignored : list regex) s s' t :
  loop_reaches self ignored s s' t ->
  snd s' = snd s ++ filter (fun p => untested_dir ignored p = true) (listed t).
Proof.
  intros R. induction R as [s|unv b p rest s1 t1 s' t Hp Hv R IH].
  - cbn. rewrite app_nil_r. reflexivity.
  - destruct (visit_cases _ _ _ _ _ _ _ Hv) as (es & Hl & -> & Hlist).
    rewrite IH. cbn [snd]. rewrite listed_app, Hlist.
    cbn [app]. destruct (is_untested ignored p es) eqn:E.
    + rewrite filter_cons_True by (unfold untested_dir; rewrite Hl; exact E).
      rewrite <- app_assoc. reflexivity.
    + rewrite filter_cons_False; [reflexivity|].
      unfold untested_dir. rewrite Hl, E. discriminate.
Qed.

Lemma scan_reports (self : SkippedPathDetecter regex) (ignored : list regex)
      (fuel : nat) (unvisited bad reported : list string) (t : list event) :
  scan fuel self ignored unvisited bad = Some (Ret reported, t) ->
  reported
  = bad ++ filter (fun p => untested_dir ignored p = true) (listed t).
Proof.
  intros Hs.
  destruct (scan_reaches _ _ _ _ _ _ _ Hs)
    as [(bad' & [= <-] & R)|(? & ? & ? & ? & ? & ? & ? & ? & _)];
    [|discriminate].
  apply loop_bad_paths in R. exact R.
Qed.

(** C1: the iteration that visits a directory appends it to the bad
    paths iff the directory has an entry ending in [.go] whose path no
    file-ignore pattern matches, and no such entry ends in [_test.go].
    With [x.go] alone, matched by no pattern, the directory is
    appended; with [x.go] and [x_test.go], neither matched by a
    pattern, it is not; and with [x.go] alone, matched by some pattern,
    it is not.  When the scan returns, the bad paths are the
    directories it listed that are untested in this sense. *)
Theorem C1_bad_path_iff_untested (self : SkippedPathDetecter regex)
        (ignored : list regex) (parent : string)
        (entries unvisited bad : list string) :
  listdir parent = Some entries ->
  exists unvisited' bad' t,
    visit self ignored parent unvisited bad = (Ret (unvisited', bad'), t)
    /\ (untested ignored parent entries -> bad' = bad ++ [parent])
    /\ (~ untested ignored parent entries -> bad' = bad)
    /\ (entries = ["x.go"] ->
        (forall reg, reg ∈ ignored ->
                     re_match reg (PosixPath.join parent "x.go") = false) ->
        bad' = bad ++ [parent])
    /\ (entries = ["x.go"; "x_test.go"] ->
        (forall reg, reg ∈ ignored ->
                     re_match reg (PosixPath.join parent "x.go") = false) ->
        (forall reg, reg ∈ ignored ->
                     re_match reg (PosixPath.join parent "x_test.go")
                     = false) ->
        bad' = bad)
    /\ (entries = ["x.go"] ->
        (exists reg, reg ∈ ignored
                     /\ re_match reg (PosixPath.join parent "x.go") = true) ->
        bad' = bad)
    /\ (forall fuel root reported t',
           scan fuel self ignored [root] [] = Some (Ret reported, t') ->
           (parent ∈ reported <->
            EvListdir parent ∈ t' /\ untested ignored parent entries)).
Proof.
  intros Hl. rewrite (visit_eq _ _ _ _ _ _ Hl).
  eexists _, _, _. split; [reflexivity|].
  pose proof (is_untested_spec ignored parent entries) as Hu.
  split; [|split; [|split; [|split; [|split]]]].
  - intros H. apply Hu in H. rewrite H. reflexivity.
  - intros H. destruct (is_untested ignored parent entries); [|reflexivity].
    exfalso. apply H, Hu. reflexivity.
  - intros -> Hx. apply (proj2 (should_skip_file_false _ _)) in Hx.
    unfold is_untested, find_go_files. cbn [fold_left].
    change (Str.endswith "x.go" GO_FILE_SUFFIX) with true.
    cbn match. rewrite Hx. reflexivity.
  - intros -> Hx Ht. apply (proj2 (should_skip_file_false _ _)) in Hx, Ht.
    unfold is_untested, find_go_files. cbn [fold_left].
    change (Str.endswith "x.go" GO_FILE_SUFFIX) with true.
    change (Str.endswith "x_test.go" GO_FILE_SUFFIX) with true.
    cbn match. rewrite Hx, Ht. reflexivity.
  - intros -> Hx. apply (proj2 (should_skip_file_true _ _)) in Hx.
    unfold is_untested, find_go_files. cbn [fold_left].
    change (Str.endswith "x.go" GO_FILE_SUFFIX) with true.
    cbn match. rewrite Hx. reflexivity.
  - intros fuel root reported t' Hs.
    rewrite (scan_reports _ _ _ _ _ _ _ Hs). cbn [app].
    rewrite list_elem_of_filter, elem_of_listed, <- Hu.
    unfold untested_dir. rewrite Hl. apply and_comm.
Qed.

(** *** What is pushed, and the root *)

Lemma commonprefix_len_same (l : list string) :
  PosixPath.commonprefix_len l l = length l.
Proof.
  induction l as [|x l IH]; [reflexivity|].
  cbn. rewrite String.eqb_refl, IH. reflexivity.
Qed.

(** The path of a directory relative to itself is [.]. *)
Lemma relpath_self (cwd path rel : string) :
  PosixPath.relpath cwd path path = Ret rel -> rel = ".".
Proof.
  unfold PosixPath.relpath. destruct (String.eqb path ""); [discriminate|].
  rewrite commonprefix_len_same, Nat.sub_diag, drop_all. cbn.
  intros [= <-]. reflexivity.
Qed.

Lemma elem_of_pushed (self : SkippedPathDetecter regex) (parent : string)
      (entries : list string) (q : string) :
  q ∈ pushed self parent entries
  <-> skipped self q = false
      /\ exists entry, entry ∈ entries /\ q = PosixPath.join parent entry.
Proof.
  unfold pushed. rewrite list_elem_of_filter, list_elem_of_fmap.
  split; intros (H1 & e & H2 & H3); (split; [exact H1|exists e; auto]).
Qed.

(** A path that is not skipped is a directory, no link, and no skip
    rule holds of its relative path. *)
Lemma not_skipped (self : SkippedPathDetecter regex) (q : string) :
  skipped self q = false ->
  isdir q = true /\ islink q = false
  /\ exists rel, PosixPath.relpath (fs_cwd fs) q (_path_root self) = Ret rel
                 /\ skip_rules self rel = false.
Proof.
  unfold skipped. intros H.
  apply orb_false_iff in H as [H H3]. apply orb_false_iff in H as [H1 H2].
  apply negb_false_iff in H1. repeat split; auto.
  destruct (relpath_total (fs_cwd fs) q (_path_root self)
                          (isdir_nonempty _ H1)) as [rel Hrel].
  rewrite Hrel in H3. eauto.
Qed.

Lemma not_skipped_not_always (self : SkippedPathDetecter regex)
      (q rel : string) :
  skipped self q = false ->
  PosixPath.relpath (fs_cwd fs) q (_path_root self) = Ret rel ->
  rel ∉ _ALWAYS_SKIPPED.
Proof.
  intros H Hrel. destruct (not_skipped _ _ H) as (_ & _ & rel' & Hrel' & Hr).
  rewrite Hrel in Hrel'. injection Hrel' as <-.
  unfold skip_rules in Hr. apply orb_false_iff in Hr as [Hr _].
  apply orb_false_iff in Hr as [Hr _].
  apply bool_decide_eq_false in Hr. exact Hr.
Qed.

(** [__init__] looks at no file and keeps the root it is given. *)
Lemma init_root (path_root : string) (config : json) r t :
  SkippedPathDetecter_init path_root config = (r, t) ->
  t = [] /\ forall self, r = Ret self -> _path_root self = path_root.
Proof.
  unfold SkippedPathDetecter_init. intros H.
  assert (Hfor : forall l acc,
             exists r', for_each l (fun acc pattern =>
                                      prog <- re_compile_json pattern;;
                                      ret (acc ++ [prog]))%py acc = (r', [])).
  { induction l as [|x l IH]; intros acc; [cbn; eauto|].
    cbn [for_each]. unfold re_compile_json, re_compile_py at 1.
    destruct x; try (cbn; eauto; fail).
    destruct (re_compile s); [|cbn; eauto].
    rewrite !bind_ret. apply IH. }
  destruct (Json.contains CONFIG_KEY_SKIPPED_PATHS config) as [[|]|e];
    [| |injection H as <- <-; split; [reflexivity|discriminate]].
  - rewrite bind_lift_ret in H.
    destruct (Json.getitem config CONFIG_KEY_SKIPPED_PATHS) as [v|e];
      [|injection H as <- <-; split; [reflexivity|discriminate]].
    rewrite bind_lift_ret in H.
    destruct (Json.iter v) as [l|e];
      [|injection H as <- <-; split; [reflexivity|discriminate]].
    rewrite bind_lift_ret in H.
    destruct (forallb Json.hashable l);
      [|injection H as <- <-; split; [reflexivity|discriminate]].
    rewrite bind_ret in H. revert H.
    generalize (list_to_set (strings_of l) : gset string). intros paths H.
    destruct (Json.contains CONFIG_KEY_SKIPPED_REGEX_PATHS config) as [[|]|e];
      [| |injection H as <- <-; split; [reflexivity|discriminate]].
    + rewrite bind_lift_ret in H.
      destruct (Json.getitem config CONFIG_KEY_SKIPPED_REGEX_PATHS) as [v'|e];
        [|injection H as <- <-; split; [reflexivity|discriminate]].
      rewrite bind_lift_ret in H.
      destruct (Json.iter v') as [l'|e];
        [|injection H as <- <-; split; [reflexivity|discriminate]].
      rewrite bind_lift_ret in H.
      destruct (Hfor l' []) as [r' Hr']. rewrite Hr' in H.
      destruct r'; injection H as <- <-;
        (split; [reflexivity|]); intros self [= <-]; reflexivity.
    + injection H as <- <-.
      split; [reflexivity|]. intros self [= <-]. reflexivity.
  - rewrite bind_lift_ret, bind_ret in H.
    destruct (Json.contains CONFIG_KEY_SKIPPED_REGEX_PATHS config) as [[|]|e];
      [| |injection H as <- <-; split; [reflexivity|discriminate]].
    + rewrite bind_lift_ret in H.
      destruct (Json.getitem config CONFIG_KEY_SKIPPED_REGEX_PATHS) as [v'|e];
        [|injection H as <- <-; split; [reflexivity|discriminate]].
      rewrite bind_lift_ret in H.
      destruct (Json.iter v') as [l'|e];
        [|injection H as <- <-; split; [reflexivity|discriminate]].
      rewrite bind_lift_ret in H.
      destruct (Hfor l' []) as [r' Hr']. rewrite Hr' in H.
      destruct r'; injection H as <- <-;
        (split; [reflexivity|]); intros self [= <-]; reflexivity.
    + injection H as <- <-.
      split; [reflexivity|]. intros self [= <-]. reflexivity.
Qed.

Lemma visit_raise_cases (self : SkippedPathDetecter regex)
      (ignored : list regex) (parent : string) (rest bad : list string) e t :
  visit self ignored parent rest bad = (Raise e, t) ->
  t = [EvLog DEBUG "Looking for missing tests in %s" [AStr parent];
       EvListdir parent].
Proof.
  destruct (listdir parent) as [entries|] eqn:Hl.
  - rewrite (visit_eq _ _ _ _ _ _ Hl). discriminate.
  - rewrite (visit_raises _ _ _ _ _ Hl). intros [= _ <-]. reflexivity.
Qed.

(** The invariant, for a run of [scan] that ends in either way. *)
Lemma scan_invariant (self : SkippedPathDetecter regex) (ignored : list regex)
      (P : string -> Prop) :
  (forall parent entries q,
      P parent -> listdir parent = Some entries ->
      q ∈ pushed self parent entries -> P q) ->
  forall fuel unvisited bad r t,
    scan fuel self ignored unvisited bad = Some (r, t) ->
    Forall P unvisited -> Forall P bad ->
    Forall P (listed t) /\ forall bad', r = Ret bad' -> Forall P bad'.
Proof.
  intros Hpush fuel unvisited bad r t Hs Hu Hb.
  destruct (scan_reaches _ _ _ _ _ _ _ Hs)
    as [(bad' & -> & R)|(u' & b' & t1 & p' & rest' & e & t2
                         & -> & -> & R & Hp & Hv)].
  - destruct (loop_invariant self ignored P Hpush _ _ _ R Hu Hb)
      as (_ & H2 & H3).
    split; [exact H3|]. intros ? [= <-]. exact H2.
  - destruct (loop_invariant self ignored P Hpush _ _ _ R Hu Hb)
      as (H1 & _ & H3).
    split; [|discriminate].
    rewrite listed_app. apply Forall_app. split; [exact H3|].
    rewrite (visit_raise_cases _ _ _ _ _ _ _ Hv). cbn.
    apply pop_Some in Hp. cbn [fst] in H1. rewrite Hp in H1.
    apply Forall_app in H1 as [_ H1]. exact H1.
Qed.

Lemma pushed_not_always (self : SkippedPathDetecter regex)
      (parent : string) (entries : list string) (q : string) :
  q ∈ pushed self parent entries ->
  not_always_skipped (_path_root self) q.
Proof.
  intros [Hq _]%elem_of_pushed rel Hrel.
  exact (not_skipped_not_always _ _ _ Hq Hrel).
Qed.

Lemma root_not_always (path_root : string) :
  not_always_skipped path_root path_root.
Proof.
  intros rel Hrel. apply relpath_self in Hrel as ->.
  unfold _ALWAYS_SKIPPED. rewrite !elem_of_cons, elem_of_nil.
  intros [H|[H|[H|[H|[H|[]]]]]]; discriminate H.
Qed.

(** What follows the loop logs and does nothing else; it returns
    whether there is no bad path. *)
Lemma report_eq (path_root : string) (bad : list string) :
  Forall (fun p => p <> "") bad ->
  exists t, report path_root bad = (Ret (bool_decide (bad = [])), t)
            /\ Forall is_log t
            /\ forall p rel,
                p ∈ bad ->
                PosixPath.relpath (fs_cwd fs) p path_root = Ret rel ->
                EvLog ERROR "  %s" [AStr rel] ∈ t.
Proof.
  intros Hne. unfold report.
  assert (Hloop : exists t,
             for_each bad
               (fun (_ : unit) path =>
                  rel_path <- os_path_relpath path path_root;;
                  logging ERROR "  %s" [AStr rel_path])%py tt
             = (Ret tt, t)
             /\ Forall is_log t
             /\ forall p rel,
                 p ∈ bad ->
                 PosixPath.relpath (fs_cwd fs) p path_root = Ret rel ->
                 EvLog ERROR "  %s" [AStr rel] ∈ t).
  { induction Hne as [|x l Hx Hl IH].
    - eexists. split; [reflexivity|]. split; [constructor|].
      intros p rel Hp. inversion Hp.
    - destruct IH as (t & Ht & Hlog & Hin).
      destruct (relpath_total (fs_cwd fs) x path_root Hx) as [rel Hrel].
      cbn [for_each]. unfold os_path_relpath in *. rewrite Hrel.
      rewrite bind_lift_ret. unfold logging at 1.
      rewrite bind_emit. rewrite Ht. cbn [fst snd].
      eexists. split; [reflexivity|]. split.
      + constructor; [exact I|exact Hlog].
      + intros p rel' Hp Hrel'. apply elem_of_cons in Hp as [->|Hp].
        * rewrite Hrel in Hrel'. injection Hrel' as <-. left.
        * right. eauto. }
  destruct Hloop as (t & Ht & Hlog & Hin).
  destruct bad as [|b0 bad0].
  { eexists. split; [reflexivity|]. split; [constructor|].
    intros p rel Hp. inversion Hp. }
  unfold logging at 1. rewrite bind_emit, Ht. cbn.
  eexists. split; [reflexivity|]. split.
  - constructor; [exact I|]. rewrite app_nil_r. exact Hlog.
  - intros p rel Hp Hrel. right. rewrite app_nil_r. eauto.
Qed.

(** *** The test-presence gate as a whole *)

Lemma gate_eq (fuel : nat) (path_root : string) (config : json)
      (ignored : list regex) :
  all_directories_have_tests fuel path_root config ignored
  = match SkippedPathDetecter_init path_root config with
    | (Raise e, t0) => Some (Raise e, t0)
    | (Ret self, t0) =>
        match scan fuel self ignored [path_root] [] with
        | None => None
        | Some (Raise e, t) => Some (Raise e, t0 ++ t)
        | Some (Ret bad, t) =>
            Some (fst (report path_root bad),
                  t0 ++ t ++ snd (report path_root bad))
        end
    end.
Proof.
  unfold all_directories_have_tests, bind_run, step.
  destruct (SkippedPathDetecter_init path_root config) as [[self|e] t0];
    [|reflexivity].
  destruct (scan fuel self ignored [path_root] []) as [[[bad|e] t]|];
    try reflexivity.
  destruct (report path_root bad) as [r t']. reflexivity.
Qed.

Lemma reported_nonempty (self : SkippedPathDetecter regex)
      (ignored : list regex) (fuel : nat) (unvisited bad : list string)
      (t : list event) :
  scan fuel self ignored unvisited [] = Some (Ret bad, t) ->
  Forall (fun p => p <> "") bad.
Proof.
  intros Hs. rewrite (scan_reports _ _ _ _ _ _ _ Hs). cbn [app].
  apply Forall_forall. intros p [Hp _]%list_elem_of_filter ->.
  unfold untested_dir, listdir in Hp. discriminate Hp.
Qed.

Lemma log_not_listdir (t : list event) (p : string) :
  Forall is_log t -> EvListdir p ∉ t.
Proof.
  intros H Hin. rewrite Forall_forall in H. exact (H _ Hin).
Qed.

(** C8: a path whose relative path is one of the always-skipped names
    is never on the frontier, never listed and never reported, in any
    state the loop reaches from the root; and no run of the scan or of
    the whole gate lists it. *)
Theorem C8_always_skipped_never_entered (self : SkippedPathDetecter regex)
        (ignored : list regex) (path_root p rel : string) :
  _path_root self = path_root ->
  PosixPath.relpath (fs_cwd fs) p path_root = Ret rel ->
  rel ∈ [".git"; ".gen"; ".tmp"; "vendor"; "go-build"] ->
  (forall unvisited bad t,
      loop_reaches self ignored ([path_root], []) (unvisited, bad) t ->
      (p ∉ unvisited) /\ (EvListdir p ∉ t) /\ (p ∉ bad))
  /\ (forall fuel r t,
         scan fuel self ignored [path_root] [] = Some (r, t) ->
         (EvListdir p ∉ t) /\ forall bad, r = Ret bad -> p ∉ bad)
  /\ (forall fuel config r t,
         all_directories_have_tests fuel path_root config ignored
         = Some (r, t) ->
         EvListdir p ∉ t).
Proof.
  intros Hroot Hrel Hin.
  assert (Hp : ~ not_always_skipped path_root p).
  { intros H. exact (H rel Hrel Hin). }
  assert (Hpush : forall (self' : SkippedPathDetecter regex),
             _path_root self' = path_root ->
             forall parent entries q,
               not_always_skipped path_root parent ->
               listdir parent = Some entries ->
               q ∈ pushed self' parent entries ->
               not_always_skipped path_root q).
  { intros self' <- parent entries q _ _ Hq.
    exact (pushed_not_always _ _ _ _ Hq). }
  assert (Hinit : Forall (not_always_skipped path_root) [path_root]).
  { constructor; [apply root_not_always|constructor]. }
  assert (Hscan : forall (self' : SkippedPathDetecter regex),
             _path_root self' = path_root ->
             forall fuel r t,
               scan fuel self' ignored [path_root] [] = Some (r, t) ->
               (EvListdir p ∉ t) /\ forall bad, r = Ret bad -> p ∉ bad).
  { intros self' Hroot' fuel r t Hs.
    destruct (scan_invariant self' ignored _ (Hpush self' Hroot')
                             _ _ _ _ _ Hs Hinit (Forall_nil_2 _)) as [H1 H2].
    rewrite Forall_forall in H1. split.
    - intros H%elem_of_listed. exact (Hp (H1 _ H)).
    - intros bad -> H. specialize (H2 _ eq_refl).
      rewrite Forall_forall in H2. exact (Hp (H2 _ H)). }
  split; [|split].
  - intros unvisited bad t R.
    destruct (loop_invariant self ignored _ (Hpush self Hroot)
                             _ _ _ R Hinit (Forall_nil_2 _)) as (H1 & H2 & H3).
    cbn [fst snd] in H1, H2. rewrite Forall_forall in H1, H2, H3.
    repeat split; intros H.
    + exact (Hp (H1 _ H)).
    + apply elem_of_listed in H. exact (Hp (H3 _ H)).
    + exact (Hp (H2 _ H)).
  - exact (Hscan self Hroot).
  - intros fuel config r t Hg. rewrite gate_eq in Hg.
    destruct (SkippedPathDetecter_init path_root config) as [[self'|e] t0]
      eqn:Ei.
    2:{ destruct (init_root _ _ _ _ Ei) as [-> _].
        injection Hg as <- <-. apply not_elem_of_nil. }
    destruct (init_root _ _ _ _ Ei) as [-> Hr].
    specialize (Hr self' eq_refl).
    destruct (scan fuel self' ignored [path_root] []) as [[[bad|e] t1]|] eqn:Es;
      [| |discriminate].
    + injection Hg as <- <-. cbn [app].
      destruct (report_eq path_root bad (reported_nonempty _ _ _ _ _ _ Es))
        as (t2 & Hrep & Hlog & _).
      rewrite Hrep. cbn [snd]. rewrite elem_of_app. intros [H|H].
      * exact (proj1 (Hscan self' Hr _ _ _ Es) H).
      * exact (log_not_listdir _ _ Hlog H).
    + injection Hg as <- <-. cbn [app].
      exact (proj1 (Hscan self' Hr _ _ _ Es)).
Qed.

(** *** Termination and fuel *)

Lemma scan_fuel_mono (self : SkippedPathDetecter regex) (ignored : list regex)
      (fuel fuel' : nat) (unvisited bad : list string) x :
  fuel <= fuel' ->
  scan fuel self ignored unvisited bad = Some x ->
  scan fuel' self ignored unvisited bad = Some x.
Proof.
  revert fuel' unvisited bad x.
  induction fuel as [|fuel IH]; intros fuel' unvisited bad x Hle Hs.
  - cbn in Hs. destruct (pop unvisited) as [[? ?]|] eqn:E; [discriminate|].
    apply pop_None in E as ->. rewrite scan_nil. exact Hs.
  - destruct fuel' as [|fuel']; [lia|].
    destruct (pop unvisited) as [[parent rest]|] eqn:E.
    + apply pop_Some in E as ->. rewrite scan_push in *.
      destruct (visit self ignored parent rest bad) as [[s1|e] t1];
        [|exact Hs].
      destruct (scan fuel self ignored s1.1 s1.2) as [[r t]|] eqn:S;
        [|discriminate].
      rewrite (IH fuel' _ _ _ ltac:(lia) S). exact Hs.
    + apply pop_None in E as ->. rewrite scan_nil in *. exact Hs.
Qed.

Lemma scan_deterministic (self : SkippedPathDetecter regex)
      (ignored : list regex) (fuel fuel' : nat)
      (unvisited bad : list string) x y :
  scan fuel self ignored unvisited bad = Some x ->
  scan fuel' self ignored unvisited bad = Some y ->
  x = y.
Proof.
  intros Hx Hy.
  apply (scan_fuel_mono _ _ _ (Nat.max fuel fuel')) in Hx; [|lia].
  apply (scan_fuel_mono _ _ _ (Nat.max fuel fuel')) in Hy; [|lia].
  congruence.
Qed.

Lemma gate_deterministic (fuel fuel' : nat) (path_root : string)
      (config : json) (ignored : list regex) x y :
  all_directories_have_tests fuel path_root config ignored = Some x ->
  all_directories_have_tests fuel' path_root config ignored = Some y ->
  x = y.
Proof.
  rewrite !gate_eq.
  destruct (SkippedPathDetecter_init path_root config) as [[self|e] t0];
    [|congruence].
  destruct (scan fuel self ignored [path_root] []) as [x'|] eqn:Ex;
    [|discriminate].
  destruct (scan fuel' self ignored [path_root] []) as [y'|] eqn:Ey;
    [|destruct x' as [[?|?] ?]; discriminate].
  rewrite (scan_deterministic _ _ _ _ _ _ _ _ Ex Ey). congruence.
Qed.

(** A tree that can be listed throughout is scanned to the end. *)
Lemma scan_terminates_from (self : SkippedPathDetecter regex)
      (ignored : list regex) (depth : nat) :
  forall path rest bad,
    listable_within depth self path = true ->
    (forall bad1, exists fuel b t,
          scan fuel self ignored rest bad1 = Some (Ret b, t)) ->
    exists fuel b t,
      scan fuel self ignored (rest ++ [path]) bad = Some (Ret b, t).
Proof.
  induction depth as [|depth IH]; intros path rest bad Hl Hrest;
    [discriminate|].
  cbn [listable_within] in Hl.
  destruct (listdir path) as [entries|] eqn:Hd; [|discriminate].
  assert (Hall : forall l,
             forallb (listable_within depth self) l = true ->
             forall bad1, exists fuel b t,
                 scan fuel self ignored (rest ++ l) bad1 = Some (Ret b, t)).
  { induction l as [|q l IHl] using rev_ind; intros Hf bad1.
    - rewrite app_nil_r. apply Hrest.
    - rewrite forallb_app in Hf. apply andb_true_iff in Hf as [Hf Hq].
      cbn in Hq. rewrite andb_true_r in Hq.
      rewrite app_assoc. apply IH; [exact Hq|].
      intros bad2. apply IHl. exact Hf. }
  destruct (Hall _ Hl (if is_untested ignored path entries
                       then bad ++ [path] else bad)) as (fuel & b & t & Hs).
  exists (S fuel). rewrite scan_push, (visit_eq _ _ _ _ _ _ Hd).
  cbn [fst snd]. rewrite Hs. eauto.
Qed.

Lemma scan_terminates (self : SkippedPathDetecter regex)
      (ignored : list regex) (depth : nat) (path_root : string) :
  listable_within depth self path_root = true ->
  exists fuel b t,
    scan fuel self ignored [path_root] [] = Some (Ret b, t).
Proof.
  intros Hl. apply (scan_terminates_from self ignored depth path_root [] []);
    [exact Hl|].
  intros bad1. exists 0, bad1, []. reflexivity.
Qed.

(** *** Where the skip predicate is applied *)

Lemma isdir_in_push_events (parent : string) (entries : list string)
      (q : string) :
  EvIsDir q ∈ push_events parent entries ->
  exists entry, entry ∈ entries /\ q = PosixPath.join parent entry.
Proof.
  unfold push_events. rewrite list_elem_of_In, in_flat_map.
  intros (e & He & Hq). exists e. split; [apply list_elem_of_In, He|].
  unfold stat_events in Hq. destruct (isdir _); cbn in Hq.
  - destruct Hq as [Hq|[Hq|[]]]; congruence.
  - destruct Hq as [Hq|[]]; congruence.
Qed.

Lemma entry_of_listed_app_r (t1 t2 : list event) (q : string) :
  entry_of_listed t2 q -> entry_of_listed (t1 ++ t2) q.
Proof.
  intros (parent & es & e & H1 & H2). exists parent, es, e.
  split; [apply elem_of_app; right; exact H1|exact H2].
Qed.

Lemma entry_of_listed_app_l (t1 t2 : list event) (q : string) :
  entry_of_listed t1 q -> entry_of_listed (t1 ++ t2) q.
Proof.
  intros (parent & es & e & H1 & H2). exists parent, es, e.
  split; [apply elem_of_app; left; exact H1|exact H2].
Qed.

Lemma loop_stats (self : SkippedPathDetecter regex) (ignored : list regex)
      s s' t :
  loop_reaches self ignored s s' t ->
  forall q, EvIsDir q ∈ t -> entry_of_listed t q.
Proof.
  intros R. induction R as [s|unv b p rest s1 t1 s' t Hp Hv R IH];
    intros q Hq.
  - inversion Hq.
  - apply elem_of_app in Hq as [Hq|Hq].
    + apply entry_of_listed_app_l.
      destruct (visit_cases _ _ _ _ _ _ _ Hv) as (es & Hl & _ & _).
      rewrite (visit_eq _ _ _ _ _ _ Hl) in Hv. injection Hv as _ <-.
      apply elem_of_cons in Hq as [Hq|Hq]; [discriminate|].
      apply elem_of_cons in Hq as [Hq|Hq]; [discriminate|].
      destruct (isdir_in_push_events _ _ _ Hq) as (e & He & ->).
      exists p, es, e. repeat split; auto. right. left.
    + apply entry_of_listed_app_r, IH, Hq.
Qed.

Lemma scan_stats (self : SkippedPathDetecter regex) (ignored : list regex)
      (fuel : nat) (unvisited bad : list string) r t :
  scan fuel self ignored unvisited bad = Some (r, t) ->
  forall q, EvIsDir q ∈ t -> entry_of_listed t q.
Proof.
  intros Hs q Hq.
  destruct (scan_reaches _ _ _ _ _ _ _ Hs)
    as [(bad' & -> & R)|(u' & b' & t1 & p' & rest' & e & t2
                         & -> & -> & R & Hp & Hv)].
  - exact (loop_stats _ _ _ _ _ R q Hq).
  - rewrite (visit_raise_cases _ _ _ _ _ _ _ Hv) in Hq |- *.
    apply elem_of_app in Hq as [Hq|Hq].
    + apply entry_of_listed_app_l. exact (loop_stats _ _ _ _ _ R q Hq).
    + apply elem_of_cons in Hq as [Hq|Hq]; [discriminate|].
      apply elem_of_cons in Hq as [Hq|Hq]; [discriminate|]. inversion Hq.
Qed.

Lemma log_not_isdir (t : list event) (q : string) :
  Forall is_log t -> EvIsDir q ∉ t.
Proof.
  intros H Hin. rewrite Forall_forall in H. exact (H _ Hin).
Qed.

(** C10: the root is listed before anything else is looked at, and
    [should_skip] is only asked about entries of directories that have
    been listed; so a root with a counted go file and no counted test
    file is reported, and the gate returns false, whatever the skip
    rules say about the root. *)
Theorem C10_root_is_always_scanned (config : json) (ignored : list regex)
        (path_root : string) (self : SkippedPathDetecter regex)
        (t0 : list event) :
  SkippedPathDetecter_init path_root config = (Ret self, t0) ->
  (forall fuel r t,
      all_directories_have_tests (S fuel) path_root config ignored
      = Some (r, t) ->
      exists t',
        t = EvLog DEBUG "Looking for missing tests in %s" [AStr path_root]
                  :: EvListdir path_root :: t')
  /\ (forall fuel r t,
         all_directories_have_tests fuel path_root config ignored
         = Some (r, t) ->
         forall q, EvIsDir q ∈ t -> entry_of_listed t q)
  /\ (forall entries depth,
         listdir path_root = Some entries ->
         untested ignored path_root entries ->
         listable_within depth self path_root = true ->
         (exists fuel t,
             all_directories_have_tests fuel path_root config ignored
             = Some (Ret false, t)
             /\ EvLog ERROR "  %s" [AStr "."] ∈ t)
         /\ (forall fuel r t,
                all_directories_have_tests fuel path_root config ignored
                = Some (r, t) ->
                r = Ret false /\ EvLog ERROR "  %s" [AStr "."] ∈ t)).
Proof.
  intros Hinit. destruct (init_root _ _ _ _ Hinit) as [-> Hroot].
  specialize (Hroot self eq_refl).
  split; [|split].
  - intros fuel r t Hg. rewrite gate_eq, Hinit in Hg.
    change [path_root] with ([] ++ [path_root]) in Hg.
    rewrite scan_push in Hg.
    destruct (listdir path_root) as [entries|] eqn:Hl.
    + rewrite (visit_eq _ _ _ _ _ _ Hl) in Hg. cbn [fst snd] in Hg.
      destruct (scan fuel self ignored _ _) as [[[bad|e] t1]|];
        [| |discriminate]; injection Hg as <- <-; cbn; eauto.
    + rewrite (visit_raises _ _ _ _ _ Hl) in Hg.
      injection Hg as <- <-. cbn. eauto.
  - intros fuel r t Hg q Hq. rewrite gate_eq, Hinit in Hg.
    destruct (scan fuel self ignored [path_root] []) as [[[bad|e] t1]|] eqn:Es;
      [| |discriminate]; injection Hg as <- <-; cbn [app] in *.
    + destruct (report_eq path_root bad (reported_nonempty _ _ _ _ _ _ Es))
        as (t2 & Hrep & Hlog & _).
      rewrite Hrep in *. cbn [snd] in *.
      apply elem_of_app in Hq as [Hq|Hq].
      * apply entry_of_listed_app_l. exact (scan_stats _ _ _ _ _ _ _ Es q Hq).
      * destruct (log_not_isdir _ _ Hlog Hq).
    + exact (scan_stats _ _ _ _ _ _ _ Es q Hq).
  - intros entries depth Hl Hu Hd.
    assert (Hex : exists fuel t,
               all_directories_have_tests fuel path_root config ignored
               = Some (Ret false, t)
               /\ EvLog ERROR "  %s" [AStr "."] ∈ t).
    { destruct (scan_terminates self ignored depth path_root Hd)
        as (fuel & bad & t & Hs).
      exists fuel. rewrite gate_eq, Hinit, Hs. cbn [app].
      assert (Hin : path_root ∈ bad).
      { destruct fuel as [|fuel]; [discriminate Hs|].
        pose proof (scan_reports _ _ _ _ _ _ _ Hs) as ->. cbn [app].
        apply list_elem_of_filter. split.
        - unfold untested_dir. rewrite Hl. apply is_untested_spec, Hu.
        - apply elem_of_listed.
          change [path_root] with ([] ++ [path_root]) in Hs.
          rewrite scan_push, (visit_eq _ _ _ _ _ _ Hl) in Hs.
          cbn [fst snd] in Hs.
          destruct (scan fuel self ignored _ _) as [[r' t']|];
            [|discriminate].
          injection Hs as _ <-. right. left. }
      destruct (report_eq path_root bad (reported_nonempty _ _ _ _ _ _ Hs))
        as (t2 & Hrep & _ & Hrel).
      rewrite Hrep. cbn [fst snd].
      assert (Hne : path_root <> "").
      { intros ->. unfold listdir in Hl. discriminate Hl. }
      destruct (relpath_total (fs_cwd fs) path_root path_root Hne)
        as [rel Hr].
      pose proof (relpath_self _ _ _ Hr) as ->.
      eexists. split.
      - rewrite bool_decide_eq_false_2; [reflexivity|].
        intros ->. inversion Hin.
      - apply elem_of_app. right. exact (Hrel _ _ Hin Hr). }
    split; [exact Hex|].
    intros fuel r t Hg. destruct Hex as (fuel' & t' & Hg' & Hin).
    pose proof (gate_deterministic _ _ _ _ _ _ _ Hg Hg') as [= -> ->].
    auto.
Qed.

(** ** Further properties of the script *)

(** *** The scanner visits the directories that are not skipped, all of them *)

Lemma reachable_from_snoc (self : SkippedPathDetecter regex)
      (a b : string) (entries : list string) (entry : string) :
  reachable_from self a b ->
  listdir b = Some entries ->
  entry ∈ entries ->
  skipped self (PosixPath.join b entry) = false ->
  reachable_from self a (PosixPath.join b entry).
Proof.
  intros R Hl He Hs. induction R as [a|a es e q Hl' He' Hs' R IH].
  - eapply reach_below; eauto. constructor.
  - eapply reach_below; eauto.
Qed.

Lemma loop_complete (self : SkippedPathDetecter regex) (ignored : list regex)
      s s' t :
  loop_reaches self ignored s s' t ->
  forall a q,
    a ∈ fst s -> reachable_from self a q ->
    q ∈ listed t \/ exists a', a' ∈ fst s' /\ reachable_from self a' q.
Proof.
  intros R. induction R as [s|unv b p rest s1 t1 s' t Hp Hv R IH];
    intros a q Ha Hq.
  - right. eauto.
  - cbn [fst] in Ha. apply pop_Some in Hp as ->.
    destruct (visit_cases _ _ _ _ _ _ _ Hv) as (es & Hl & -> & Hlist).
    cbn [fst] in IH. rewrite listed_app, Hlist.
    assert (Hnext : forall a', a' ∈ rest ++ pushed self p es ->
                               reachable_from self a' q ->
                               q ∈ [p] ++ listed t
                               \/ exists a'', a'' ∈ fst s'
                                              /\ reachable_from self a'' q).
    { intros a' Ha' Hq'. destruct (IH a' q Ha' Hq') as [H|H]; [|right; exact H].
      left. apply elem_of_app. right. exact H. }
    apply elem_of_app in Ha as [Ha|Ha].
    + apply (Hnext a); [apply elem_of_app; left; exact Ha|exact Hq].
    + apply list_elem_of_singleton in Ha as ->.
      inversion Hq as [|? es' e ? Hl' He Hs Hq']; subst.
      * left. left.
      * rewrite Hl in Hl'. injection Hl' as <-.
        apply (Hnext (PosixPath.join p e)); [|exact Hq'].
        apply elem_of_app. right. apply elem_of_pushed. eauto.
Qed.

Lemma scan_listed_reachable (self : SkippedPathDetecter regex)
      (ignored : list regex) (fuel : nat) (path_root : string)
      (r : outcome (list string)) (t : list event) (q : string) :
  scan fuel self ignored [path_root] [] = Some (r, t) ->
  EvListdir q ∈ t -> reachable_from self path_root q.
Proof.
  intros Hs Hq%elem_of_listed.
  destruct (scan_invariant self ignored (reachable_from self path_root))
    with (fuel := fuel) (unvisited := [path_root]) (bad := @nil string)
         (r := r) (t := t) as [H _]; try assumption.
  - intros parent entries q' Hparent Hl [Hq' (e & He & ->)]%elem_of_pushed.
    eapply reachable_from_snoc; eauto.
  - constructor; [constructor|constructor].
  - constructor.
  - rewrite Forall_forall in H. exact (H q Hq).
Qed.

Lemma scan_reachable_listed (self : SkippedPathDetecter regex)
      (ignored : list regex) (fuel : nat) (path_root : string)
      (bad : list string) (t : list event) (q : string) :
  scan fuel self ignored [path_root] [] = Some (Ret bad, t) ->
  reachable_from self path_root q -> EvListdir q ∈ t.
Proof.
  intros Hs Hq.
  destruct (scan_reaches _ _ _ _ _ _ _ Hs)
    as [(bad' & [= <-] & R)|(? & ? & ? & ? & ? & ? & ? & ? & _)];
    [|discriminate].
  destruct (loop_complete _ _ _ _ _ R path_root q) as [H|(a' & Ha' & _)];
    [left|exact Hq| |].
  - apply elem_of_listed. exact H.
  - inversion Ha'.
Qed.

(** X1: when the loop of the scanner returns, the directories it has
    listed are exactly the root and the directories below it reached
    through entries that [should_skip] does not skip; the paths it
    returns are exactly those of them with a counted go file and no
    counted test file. *)
Theorem X1_scan_lists_exactly_the_reachable
        (self : SkippedPathDetecter regex) (ignored : list regex)
        (fuel : nat) (path_root : string) (bad : list string)
        (t : list event) :
  scan fuel self ignored [path_root] [] = Some (Ret bad, t) ->
  (forall q, EvListdir q ∈ t <-> reachable_from self path_root q)
  /\ (forall q, q ∈ bad <->
                reachable_from self path_root q
                /\ untested_dir ignored q = true).
Proof.
  intros Hs.
  assert (Hlisted : forall q, EvListdir q ∈ t
                              <-> reachable_from self path_root q).
  { intros q. split.
    - exact (scan_listed_reachable _ _ _ _ _ _ _ Hs).
    - exact (scan_reachable_listed _ _ _ _ _ _ _ Hs). }
  split; [exact Hlisted|].
  intros q. rewrite (scan_reports _ _ _ _ _ _ _ Hs). cbn [app].
  rewrite list_elem_of_filter, elem_of_listed, Hlisted. apply and_comm.
Qed.

(** *** The result and the report of the test-presence gate *)

(** X2: with a configuration that [SkippedPathDetecter] accepts, when
    the gate returns, it returns false iff some directory reached from
    the root through entries that are not skipped has a counted go file
    and no counted test file; and then the relative path of each such
    directory is logged as an error. *)
Theorem X2_gate_false_iff_untested_directory (config : json)
        (ignored : list regex) (path_root : string)
        (self : SkippedPathDetecter regex) (t0 : list event)
        (fuel : nat) (b : bool) (t : list event) :
  SkippedPathDetecter_init path_root config = (Ret self, t0) ->
  all_directories_have_tests fuel path_root config ignored
  = Some (Ret b, t) ->
  (b = false <->
   exists q, reachable_from self path_root q
             /\ untested_dir ignored q = true)
  /\ (forall q, reachable_from self path_root q ->
                untested_dir ignored q = true ->
                EvLog ERROR "  %s" [AStr (relative_to path_root q)] ∈ t).
Proof.
  intros Hinit Hg. rewrite gate_eq, Hinit in Hg.
  destruct (scan fuel self ignored [path_root] []) as [[[bad|e] t1]|] eqn:Es;
    try discriminate.
  destruct (report_eq path_root bad (reported_nonempty _ _ _ _ _ _ Es))
    as (t2 & Hrep & _ & Hlog).
  rewrite Hrep in Hg. cbn [fst snd] in Hg. injection Hg as <- <-.
  assert (Hbad : forall q, q ∈ bad <->
                           reachable_from self path_root q
                           /\ untested_dir ignored q = true).
  { intros q. rewrite (scan_reports _ _ _ _ _ _ _ Es). cbn [app].
    rewrite list_elem_of_filter, elem_of_listed. split.
    - intros [H1 H2]. split; [|exact H1].
      exact (scan_listed_reachable _ _ _ _ _ _ _ Es H2).
    - intros [H1 H2]. split; [exact H2|].
      exact (scan_reachable_listed _ _ _ _ _ _ _ Es H1). }
  split.
  - rewrite bool_decide_eq_false. split.
    + intros Hne. destruct bad as [|q bad']; [done|].
      exists q. apply Hbad. left.
    + intros (q & Hq) ->. apply Hbad in Hq. inversion Hq.
  - intros q Hq Hu.
    assert (Hin : q ∈ bad) by (apply Hbad; auto).
    assert (Hne : q <> "").
    { pose proof (reported_nonempty _ _ _ _ _ _ Es) as H.
      rewrite Forall_forall in H. exact (H q Hin). }
    destruct (relpath_total (fs_cwd fs) q path_root Hne) as [rel Hrel].
    unfold relative_to. rewrite Hrel.
    apply elem_of_app. right. apply elem_of_app. right.
    exact (Hlog q rel Hin Hrel).
Qed.

Lemma report_loop_trace (path_root : string) (bad : list string) :
  Forall (fun p => p <> "") bad ->
  for_each bad
    (fun (_ : unit) path =>
       rel_path <- os_path_relpath path path_root;;
       logging ERROR "  %s" [AStr rel_path])%py tt
  = (Ret tt,
     map (fun p => EvLog ERROR "  %s" [AStr (relative_to path_root p)]) bad).
Proof.
  induction 1 as [|x l Hx Hl IH]; [reflexivity|].
  cbn [for_each map]. unfold os_path_relpath in *. unfold relative_to at 1.
  destruct (relpath_total (fs_cwd fs) x path_root Hx) as [rel Hrel].
  rewrite Hrel, bind_lift_ret. unfold logging at 1.
  rewrite bind_emit, IH. reflexivity.
Qed.

(** X3: what follows the loop returns true and logs nothing when there
    is no bad path; otherwise it returns false after logging one header
    line and then, for each bad path in the order found, one line with
    its path relative to the root. *)
Theorem X3_report_logs_each_bad_path (path_root : string)
        (bad : list string) :
  Forall (fun p => p <> "") bad ->
  report path_root bad
  = match bad with
    | [] => (Ret true, [])
    | _ =>
        (Ret false,
         EvLog ERROR "Found golang packages without _test.go files:" []
               :: map (fun p => EvLog ERROR "  %s"
                                      [AStr (relative_to path_root p)]) bad)
    end.
Proof.
  intros Hne. unfold report. destruct bad as [|p bad']; [reflexivity|].
  unfold logging at 1. rewrite bind_emit.
  rewrite (report_loop_trace path_root (p :: bad') Hne).
  cbn. rewrite app_nil_r. reflexivity.
Qed.

(** *** The exceptions of the scanner *)

Lemma loop_listed_listable (self : SkippedPathDetecter regex)
      (ignored : list regex) s s' t :
  loop_reaches self ignored s s' t ->
  Forall (fun q => is_Some (listdir q)) (listed t).
Proof.
  intros R. induction R as [s|unv b p rest s1 t1 s' t Hp Hv R IH].
  - constructor.
  - destruct (visit_cases _ _ _ _ _ _ _ Hv) as (es & Hl & _ & Hlist).
    rewrite listed_app, Hlist. constructor; [eauto|exact IH].
Qed.

(** X4: the loop of the scanner raises nothing but the [OSError] of
    [os.listdir]: when it raises, the last thing it did was to list a
    directory, reached from the root, that cannot be listed.  And when
    some directory reached from the root cannot be listed, the loop
    returns no result, whatever the fuel. *)
Theorem X4_scan_raises_only_from_listdir (self : SkippedPathDetecter regex)
        (ignored : list regex) (path_root : string) :
  (forall fuel e t,
      scan fuel self ignored [path_root] [] = Some (Raise e, t) ->
      e = OSError
      /\ exists t1 p,
          t = t1 ++ [EvLog DEBUG "Looking for missing tests in %s" [AStr p];
                     EvListdir p]
          /\ listdir p = None
          /\ reachable_from self path_root p)
  /\ (forall p, reachable_from self path_root p -> listdir p = None ->
                forall fuel bad t,
                  scan fuel self ignored [path_root] [] <> Some (Ret bad, t)).
Proof.
  split.
  - intros fuel e t Hs.
    destruct (scan_reaches _ _ _ _ _ _ _ Hs)
      as [(bad' & [=] & _)|(u' & b' & t1 & p & rest & e' & t2
                            & [= <-] & -> & R & Hp & Hv)].
    pose proof (visit_raise_cases _ _ _ _ _ _ _ Hv) as ->.
    destruct (listdir p) as [es|] eqn:Hl.
    { rewrite (visit_eq _ _ _ _ _ _ Hl) in Hv. discriminate Hv. }
    rewrite (visit_raises _ _ _ _ _ Hl) in Hv. injection Hv as <-.
    split; [reflexivity|]. exists t1, p.
    split; [reflexivity|]. split; [exact Hl|].
    apply (scan_listed_reachable _ _ _ _ _ _ _ Hs).
    apply elem_of_app. right. right. left.
  - intros p Hp Hl fuel bad t Hs.
    pose proof (scan_reachable_listed _ _ _ _ _ _ _ Hs Hp) as Hin.
    destruct (scan_reaches _ _ _ _ _ _ _ Hs)
      as [(bad' & [= <-] & R)|(? & ? & ? & ? & ? & ? & ? & ? & _)];
      [|discriminate].
    pose proof (loop_listed_listable _ _ _ _ _ R) as H.
    rewrite Forall_forall in H. apply elem_of_listed in Hin.
    destruct (H p Hin) as [es Hes]. congruence.
Qed.

(** *** The configuration of the skip rules *)

Lemma hashable_strings (l : list string) :
  forallb Json.hashable (JStr <$> l) = true.
Proof. induction l; [reflexivity|assumption]. Qed.

Lemma strings_of_strings (l : list string) : strings_of (JStr <$> l) = l.
Proof.
  unfold strings_of. induction l as [|x l IH]; [reflexivity|].
  cbn. f_equal. exact IH.
Qed.

Lemma compile_all (patterns : list string) (progs acc : list regex) :
  Forall2 (fun s prog => re_compile s = Some prog) patterns progs ->
  for_each (JStr <$> patterns)
           (fun acc pattern =>
              prog <- re_compile_json pattern;;
              ret (acc ++ [prog]))%py acc
  = ret (acc ++ progs).
Proof.
  intros H. revert acc. induction H as [|s prog patterns progs Hs _ IH];
    intros acc.
  - cbn. rewrite app_nil_r. reflexivity.
  - cbn [fmap list_fmap for_each]. unfold re_compile_json, re_compile_py at 1.
    rewrite Hs, !bind_ret, IH, <- app_assoc. reflexivity.
Qed.

Lemma compile_fails (patterns : list string) (acc : list regex) :
  Exists (fun s => re_compile s = None) patterns ->
  for_each (JStr <$> patterns)
           (fun acc pattern =>
              prog <- re_compile_json pattern;;
              ret (acc ++ [prog]))%py acc
  = raise ReError.
Proof.
  intros H. revert acc. induction patterns as [|s patterns IH]; intros acc.
  - inversion H.
  - cbn [fmap list_fmap for_each]. unfold re_compile_json, re_compile_py at 1.
    destruct (re_compile s) as [prog|] eqn:Hs.
    + rewrite !bind_ret. apply IH. inversion H; [congruence|assumption].
    + reflexivity.
Qed.

Lemma contains_string_list (d : gmap string json) (key : string)
      (l : option (list string)) :
  d !! key = string_list_value l ->
  Json.contains key (JObj d) = Ret (bool_decide (is_Some l)).
Proof.
  intros H. cbn [Json.contains]. rewrite H. f_equal.
  apply bool_decide_ext. unfold string_list_value. apply fmap_is_Some.
Qed.

(** X5: from a configuration object whose two skip keys, where present,
    hold lists of strings, and whose patterns all compile,
    [SkippedPathDetecter] is built without a look at the file system:
    its skip set has exactly the configured paths as members and its
    patterns are the configured ones, compiled, in order; an absent key
    gives no path and no pattern. *)
Theorem X5_detecter_holds_the_configured_rules (path_root : string)
        (d : gmap string json) (paths patterns : option (list string))
        (progs : list regex) :
  d !! CONFIG_KEY_SKIPPED_PATHS = string_list_value paths ->
  d !! CONFIG_KEY_SKIPPED_REGEX_PATHS = string_list_value patterns ->
  Forall2 (fun s prog => re_compile s = Some prog)
          (default [] patterns) progs ->
  exists self,
    SkippedPathDetecter_init path_root (JObj d) = (Ret self, [])
    /\ _path_root self = path_root
    /\ (forall rel, rel ∈ _skipped_paths self <-> rel ∈ default [] paths)
    /\ _skipped_regex_paths self = progs.
Proof.
  intros Hp Hr Hc. unfold SkippedPathDetecter_init.
  rewrite (contains_string_list _ _ _ Hp), (contains_string_list _ _ _ Hr).
  rewrite !bind_lift_ret.
  assert (Hregex :
            (if bool_decide (is_Some patterns)
             then
               v <- lift (Json.getitem (JObj d) CONFIG_KEY_SKIPPED_REGEX_PATHS);;
               l <- lift (Json.iter v);;
               for_each l (fun acc pattern =>
                             prog <- re_compile_json pattern;;
                             ret (acc ++ [prog])) []
             else ret [])%py = ret progs).
  { destruct patterns as [pats|]; cbn [default] in Hc.
    - rewrite bool_decide_eq_true_2 by eauto.
      cbn [Json.getitem]. rewrite Hr. cbn [string_list_value fmap option_fmap option_map].
      rewrite bind_lift_ret. cbn [Json.iter]. rewrite bind_lift_ret.
      apply (compile_all pats progs [] Hc).
    - rewrite bool_decide_eq_false_2 by (intros [? ?]; discriminate).
      inversion Hc. reflexivity. }
  assert (Hpaths :
            exists S : gset string,
              (if bool_decide (is_Some paths)
               then
                 v <- lift (Json.getitem (JObj d) CONFIG_KEY_SKIPPED_PATHS);;
                 l <- lift (Json.iter v);;
                 if forallb Json.hashable l
                 then ret (list_to_set (strings_of l) : gset string)
                 else raise TypeError
               else ret (∅ : gset string))%py = ret S
              /\ forall rel, rel ∈ S <-> rel ∈ default [] paths).
  { destruct paths as [ps|]; cbn [default].
    - rewrite bool_decide_eq_true_2 by eauto.
      cbn [Json.getitem]. rewrite Hp.
      cbn [string_list_value fmap option_fmap option_map].
      rewrite bind_lift_ret. cbn [Json.iter]. rewrite bind_lift_ret.
      rewrite hashable_strings, strings_of_strings.
      eexists. split; [reflexivity|]. intros rel. apply elem_of_list_to_set.
    - rewrite bool_decide_eq_false_2 by (intros [? ?]; discriminate).
      eexists. split; [reflexivity|]. intros rel.
      split; intros H; [|inversion H].
      exfalso. exact (not_elem_of_empty (C:=gset string) rel H). }
  destruct Hpaths as (S & HS & Hmem).
  rewrite HS, bind_ret, bind_lift_ret, Hregex, bind_ret.
  eexists. split; [reflexivity|]. cbn. auto.
Qed.

(** X6: a configuration whose skip rules cannot be read makes the script
    raise, not return 1.  A pattern that does not compile raises
    [re.error] out of [SkippedPathDetecter], out of the gate and out of
    [main], before any directory is listed; a value for the skipped
    paths that cannot be iterated, or a list of them with a list or an
    object among its elements, raises [TypeError]. *)
Theorem X6_unreadable_skip_rules_raise (path_root : string)
        (d : gmap string json) :
  (forall (paths : option (list string)) (patterns : list string),
      d !! CONFIG_KEY_SKIPPED_PATHS = string_list_value paths ->
      d !! CONFIG_KEY_SKIPPED_REGEX_PATHS = Some (JArr (JStr <$> patterns)) ->
      Exists (fun s => re_compile s = None) patterns ->
      SkippedPathDetecter_init path_root (JObj d) = (Raise ReError, [])
      /\ (forall fuel ignored,
             all_directories_have_tests fuel path_root (JObj d) ignored
             = Some (Raise ReError, []))
      /\ (forall fuel args ignored tc,
             path_root = fs_cwd fs ->
             isfile config_path = true ->
             fs_json fs config_path = Parsed (JObj d) ->
             compile_ignored args = (Ret ignored, tc) ->
             main fuel args
             = Some (Raise ReError,
                     [EvIsFile config_path; EvOpen config_path] ++ tc)))
  /\ (forall v,
         d !! CONFIG_KEY_SKIPPED_PATHS = Some v ->
         Json.iter v = Raise TypeError ->
         SkippedPathDetecter_init path_root (JObj d) = (Raise TypeError, []))
  /\ (forall l,
         d !! CONFIG_KEY_SKIPPED_PATHS = Some (JArr l) ->
         Exists (fun v => Json.hashable v = false) l ->
         SkippedPathDetecter_init path_root (JObj d) = (Raise TypeError, [])).
Proof.
  split; [|split].
  - intros paths patterns Hp Hr Hbad.
    assert (Hinit : SkippedPathDetecter_init path_root (JObj d)
                    = (Raise ReError, [])).
    { unfold SkippedPathDetecter_init.
      rewrite (contains_string_list _ _ _ Hp), bind_lift_ret.
      assert (Hpaths :
                exists S : gset string,
                  (if bool_decide (is_Some paths)
                   then
                     v <- lift (Json.getitem (JObj d) CONFIG_KEY_SKIPPED_PATHS);;
                     l <- lift (Json.iter v);;
                     if forallb Json.hashable l
                     then ret (list_to_set (strings_of l) : gset string)
                     else raise TypeError
                   else ret (∅ : gset string))%py = ret S).
      { destruct paths as [ps|].
        - rewrite bool_decide_eq_true_2 by eauto.
          cbn [Json.getitem]. rewrite Hp.
          cbn [string_list_value fmap option_fmap option_map].
          rewrite bind_lift_ret. cbn [Json.iter]. rewrite bind_lift_ret.
          rewrite hashable_strings. eauto.
        - rewrite bool_decide_eq_false_2 by (intros [? ?]; discriminate).
          eauto. }
      destruct Hpaths as (S & ->). rewrite bind_ret.
      cbn [Json.contains]. rewrite Hr.
      rewrite bool_decide_eq_true_2 by eauto. rewrite bind_lift_ret.
      cbn [Json.getitem]. rewrite Hr, bind_lift_ret.
      cbn [Json.iter]. rewrite bind_lift_ret.
      rewrite (compile_fails patterns [] Hbad). reflexivity. }
    split; [exact Hinit|]. split.
    + intros fuel ignored. rewrite gate_eq, Hinit. reflexivity.
    + intros fuel args ignored tc -> Hf Hj Hc.
      rewrite (main_with_config fuel args (JObj d) ignored tc Hf Hj Hc).
      rewrite gate_eq, Hinit. rewrite app_nil_r. reflexivity.
  - intros v Hv Hiter. unfold SkippedPathDetecter_init.
    cbn [Json.contains]. rewrite Hv.
    rewrite bool_decide_eq_true_2 by eauto. rewrite bind_lift_ret.
    cbn [Json.getitem]. rewrite Hv, bind_lift_ret, Hiter. reflexivity.
  - intros l Hl Hbad. unfold SkippedPathDetecter_init.
    cbn [Json.contains]. rewrite Hl.
    rewrite bool_decide_eq_true_2 by eauto. rewrite bind_lift_ret.
    cbn [Json.getitem]. rewrite Hl, bind_lift_ret.
    cbn [Json.iter]. rewrite bind_lift_ret.
    assert (forallb Json.hashable l = false) as ->; [|reflexivity].
    apply not_true_iff_false. rewrite forallb_forall.
    apply Exists_exists in Hbad as (v & Hin & Hv). intros H.
    rewrite (H v) in Hv; [discriminate|]. apply list_elem_of_In, Hin.
Qed.

(** *** What [should_skip] refuses is never entered *)

(** X7: a path other than the root for which [should_skip] returns true
    (a file, a symbolic link, a directory that the built-in or the
    configured rules skip) is never put on the frontier, never listed
    and never reported, in any state the loop reaches and in any run of
    the loop. *)
Theorem X7_skipped_paths_are_never_entered (self : SkippedPathDetecter regex)
        (ignored : list regex) (path_root p : string) :
  p <> path_root ->
  fst (should_skip self p) = Ret true ->
  (forall unvisited bad t,
      loop_reaches self ignored ([path_root], []) (unvisited, bad) t ->
      (p ∉ unvisited) /\ (EvListdir p ∉ t) /\ (p ∉ bad))
  /\ (forall fuel r t,
         scan fuel self ignored [path_root] [] = Some (r, t) ->
         (EvListdir p ∉ t) /\ forall bad, r = Ret bad -> p ∉ bad).
Proof.
  intros Hne Hskip. rewrite should_skip_skipped in Hskip.
  injection Hskip as Hskip.
  set (P := fun q => q = path_root \/ skipped self q = false).
  assert (Hp : ~ P p).
  { intros [H|H]; [exact (Hne H)|congruence]. }
  assert (Hpush : forall parent entries q,
             P parent -> listdir parent = Some entries ->
             q ∈ pushed self parent entries -> P q).
  { intros parent entries q _ _ [Hq _]%elem_of_pushed. right. exact Hq. }
  assert (Hinit : Forall P [path_root]).
  { constructor; [left; reflexivity|constructor]. }
  split.
  - intros unvisited bad t R.
    destruct (loop_invariant self ignored P Hpush _ _ _ R Hinit (Forall_nil_2 _))
      as (H1 & H2 & H3).
    cbn [fst snd] in H1, H2. rewrite Forall_forall in H1, H2, H3.
    repeat split; intros H.
    + exact (Hp (H1 _ H)).
    + apply elem_of_listed in H. exact (Hp (H3 _ H)).
    + exact (Hp (H2 _ H)).
  - intros fuel r t Hs.
    destruct (scan_invariant self ignored P Hpush _ _ _ _ _ Hs Hinit
                             (Forall_nil_2 _)) as [H1 H2].
    rewrite Forall_forall in H1. split.
    + intros H%elem_of_listed. exact (Hp (H1 _ H)).
    + intros bad -> H. specialize (H2 _ eq_refl).
      rewrite Forall_forall in H2. exact (Hp (H2 _ H)).
Qed.

(** *** The configuration file and the return value of [main] *)

(** X8: a configuration file that holds the JSON value [null] is read as
    [None]: [main] returns 1 and runs no gate.  A configuration file
    that is there but cannot be opened makes [main] raise [IOError].
    Whenever [main] returns, it returns 0 or 1. *)
Theorem X8_null_config_and_return_values (fuel : nat) (args : Namespace) :
  (isfile config_path = true ->
   fs_json fs config_path = Parsed JNull ->
   main fuel args = Some (Ret 1%Z, [EvIsFile config_path; EvOpen config_path]))
  /\ (isfile config_path = true ->
      fs_json fs config_path = CannotOpen ->
      main fuel args
      = Some (Raise IOError, [EvIsFile config_path; EvOpen config_path]))
  /\ (forall n t, main fuel args = Some (Ret n, t) -> n = 0%Z \/ n = 1%Z).
Proof.
  split; [|split].
  - intros Hf Hj. unfold main. fold config_path.
    unfold os_path_isfile, load_config_file. rewrite Hf, Hj. reflexivity.
  - intros Hf Hj. unfold main. fold config_path.
    unfold os_path_isfile, load_config_file. rewrite Hf, Hj. reflexivity.
  - intros n t. unfold main. fold config_path.
    unfold os_path_isfile, load_config_file.
    destruct (isfile config_path).
    2:{ cbn. intros [= <- _]. auto. }
    destruct (fs_json fs config_path) as [| |config];
      [cbn; discriminate|cbn; intros [= <- _]; auto|].
    destruct (compile_ignored args) as [[ignored|e] tc] eqn:Ec.
    2:{ destruct config; cbn; rewrite ?Ec; cbn; try discriminate;
        intros [= <- _]; auto. }
    destruct config; cbn -[all_directories_have_tests coverage_is_sufficient];
      rewrite ?Ec; cbn -[all_directories_have_tests coverage_is_sufficient];
      try (intros [= <- _]; auto; fail);
      (destruct (all_directories_have_tests fuel (fs_cwd fs) _ ignored)
         as [[[[|]|e1] t1]|];
       cbn -[coverage_is_sufficient]; try discriminate;
       [destruct (coverage_is_sufficient (fs_cwd fs) _) as [[[|]|e2] t2];
        cbn; try discriminate; intros [= <- _]; auto
       |intros [= <- _]; auto]).
Qed.

(** *** The file-ignore patterns of the command line *)

Lemma split_ws_aux_pieces (cur : list ascii) (s : string) :
  forallb (fun c => negb (Str.isspace c)) cur = true ->
  Forall is_piece (Str.split_ws_aux cur s).
Proof.
  revert cur. induction s as [|c s IH]; intros cur Hcur.
  - cbn. destruct cur as [|c0 cur'] eqn:E; [constructor|].
    rewrite <- E in *. constructor; [|constructor]. split.
    + intros H. apply (f_equal list_ascii_of_string) in H.
      rewrite list_ascii_of_string_of_list_ascii in H. cbn in H.
      apply (f_equal (@rev ascii)) in H. rewrite rev_involutive in H.
      subst cur. discriminate H.
    + rewrite list_ascii_of_string_of_list_ascii.
      rewrite forallb_forall in *. intros x Hx. apply Hcur, in_rev, Hx.
  - cbn [Str.split_ws_aux]. destruct (Str.isspace c) eqn:Ec.
    + apply Forall_app. split; [|apply IH; reflexivity].
      destruct cur as [|c0 cur'] eqn:E; [constructor|].
      rewrite <- E in *. constructor; [|constructor]. split.
      * intros H. apply (f_equal list_ascii_of_string) in H.
        rewrite list_ascii_of_string_of_list_ascii in H. cbn in H.
        apply (f_equal (@rev ascii)) in H. rewrite rev_involutive in H.
        subst cur. discriminate H.
      * rewrite list_ascii_of_string_of_list_ascii.
        rewrite forallb_forall in *. intros x Hx. apply Hcur, in_rev, Hx.
    + apply IH. cbn. rewrite Ec. exact Hcur.
Qed.

Lemma split_ws_all_space (s : string) :
  all_space s -> Str.split_ws s = [].
Proof.
  unfold all_space, Str.split_ws. induction s as [|c s IH]; [reflexivity|].
  cbn. intros [Hc Hs]%andb_true_iff. rewrite Hc. exact (IH Hs).
Qed.

Lemma lstrip_all_space (s : string) : all_space s -> Str.lstrip s = "".
Proof.
  unfold all_space. induction s as [|c s IH]; [reflexivity|].
  cbn. intros [Hc Hs]%andb_true_iff. rewrite Hc. exact (IH Hs).
Qed.

Lemma compile_pieces (pieces : list string) (acc : list regex) r t :
  for_each pieces
           (fun acc pattern =>
              prog <- re_compile_py pattern;;
              ret (acc ++ [prog]))%py acc = (r, t) ->
  t = []
  /\ match r with
     | Ret ignored =>
         exists progs, ignored = acc ++ progs
                       /\ Forall2 (fun w prog => re_compile w = Some prog)
                                  pieces progs
     | Raise e =>
         e = ReError /\ Exists (fun w => re_compile w = None) pieces
     end.
Proof.
  revert acc. induction pieces as [|w pieces IH]; intros acc.
  - cbn. intros [= <- <-]. split; [reflexivity|].
    exists []. rewrite app_nil_r. split; [reflexivity|constructor].
  - cbn [for_each]. unfold re_compile_py at 1.
    destruct (re_compile w) as [prog|] eqn:Hw.
    + rewrite !bind_ret. intros H. destruct (IH _ H) as [-> Hr].
      split; [reflexivity|]. destruct r as [ignored|e].
      * destruct Hr as (progs & -> & HF). exists (prog :: progs).
        rewrite <- app_assoc. split; [reflexivity|]. constructor; assumption.
      * destruct Hr as [-> HE]. split; [reflexivity|]. right. exact HE.
    + cbn. intros [= <- <-]. split; [reflexivity|].
      split; [reflexivity|]. left. exact Hw.
Qed.

(** *** What the coverage scan counts *)

Lemma count_lines_tally (root : element) :
  count_lines root = tally (scanned_lines root).
Proof. rewrite count_lines_scanned, fold_count_line. reflexivity. Qed.

Lemma tally_app (l1 l2 : list element) :
  tally (l1 ++ l2) = add_counters (tally l1) (tally l2).
Proof.
  unfold tally, add_counters. cbn [fst snd].
  rewrite !filter_app, !length_app, !Nat2Z.inj_add. reflexivity.
Qed.

Lemma scanned_lines_node (t : string) (a : gmap string string)
      (cs : list element) :
  scanned_lines (Element t a cs)
  = (if String.eqb t "class" then method_lines (Element t a cs) else [])
      ++ concat (map scanned_lines cs).
Proof.
  unfold scanned_lines at 1. fold method_lines. cbn [ET.iter].
  rewrite map_app, concat_app. f_equal.
  - destruct (String.eqb t "class"); [cbn; apply app_nil_r|reflexivity].
  - induction cs as [|c cs IH]; [reflexivity|].
    cbn [map concat]. rewrite map_app, concat_app, IH. reflexivity.
Qed.

Lemma tally_concat (cs : list element) :
  tally (concat (map scanned_lines cs))
  = fold_right add_counters (0, 0)%Z (map count_lines cs).
Proof.
  induction cs as [|c cs IH]; [reflexivity|].
  cbn [map concat fold_right]. rewrite tally_app, IH, count_lines_tally.
  reflexivity.
Qed.

(** X10: the counters of the coverage scan depend on [class], [method]
    and [line] elements only.  Below an element that is no [class] they
    are the sums of the counters of its children, so an enclosing
    element (whatever its attributes) changes nothing, and a report
    without a [class] counts nothing.  A [class] element counts the
    lines below its methods and, once more, whatever its children
    count: a class that holds nothing but one class without classes
    below it counts every line of that class twice. *)
Theorem X10_counters_over_the_tree (t : string) (a : gmap string string)
        (cs : list element) :
  (t <> "class" ->
   count_lines (Element t a cs)
   = fold_right add_counters (0, 0)%Z (map count_lines cs))
  /\ (t <> "class" -> forall root,
        count_lines (Element t a [root]) = count_lines root)
  /\ (ET.iter "class" (Element t a cs) = [] ->
      count_lines (Element t a cs) = (0, 0)%Z)
  /\ (t = "class" ->
      count_lines (Element t a cs)
      = add_counters (tally (method_lines (Element t a cs)))
                     (fold_right add_counters (0, 0)%Z (map count_lines cs)))
  /\ (t = "class" -> forall c,
        cs = [c] -> ET.iter "class" c = [c] ->
        count_lines (Element t a cs)
        = add_counters (count_lines c) (count_lines c)).
Proof.
  assert (Hnode : count_lines (Element t a cs)
                  = add_counters
                      (tally (if String.eqb t "class"
                              then method_lines (Element t a cs) else []))
                      (fold_right add_counters (0, 0)%Z (map count_lines cs))).
  { rewrite count_lines_tally, scanned_lines_node, tally_app, tally_concat.
    reflexivity. }
  assert (Hzero : forall x : Z * Z, add_counters (0, 0)%Z x = x).
  { intros [u c]. reflexivity. }
  split; [|split; [|split; [|split]]].
  - intros Ht. rewrite Hnode. apply String.eqb_neq in Ht. rewrite Ht.
    apply Hzero.
  - intros Ht root. rewrite !count_lines_tally, scanned_lines_node.
    apply String.eqb_neq in Ht. rewrite Ht. cbn. rewrite app_nil_r.
    reflexivity.
  - intros H. rewrite count_lines_tally. unfold scanned_lines. rewrite H.
    reflexivity.
  - intros ->. rewrite Hnode. reflexivity.
  - intros -> c -> Hc. rewrite !count_lines_tally.
    unfold scanned_lines. cbn [ET.iter String.eqb Ascii.eqb Bool.eqb].
    cbn [map concat app]. rewrite Hc. cbn [map concat].
    rewrite !app_nil_r, tally_app.
    f_equal; unfold method_lines;
      cbn [ET.iter String.eqb Ascii.eqb Bool.eqb map concat app];
      rewrite ?app_nil_r; reflexivity.
Qed.

(** *** Edges of the coverage gate *)

Lemma lt_zero_sign (s : bool) (m : spec_float) :
  Float.lt (S754_zero s) m = Float.lt (S754_zero false) m.
Proof. destruct m; reflexivity. Qed.

Lemma compare_coverage_at (d c : gmap string json) (threshold : json)
      (uncovered covered : Z) (fcovered ftotal : spec_float) :
  d !! CONFIG_KEY_COVERAGE = Some (JObj c) ->
  c !! CONFIG_KEY_MIN_PERCENTAGE = Some threshold ->
  (covered + uncovered)%Z <> 0%Z ->
  Float.of_int covered = Ret fcovered ->
  Float.of_int (covered + uncovered) = Ret ftotal ->
  compare_coverage (JObj d) uncovered covered
  = (min_percent <- py_float threshold;;
     logging INFO "Calculated %d covered lines of %d total lines (%0.2f%%)"
             [AInt covered; AInt (covered + uncovered);
              AFloat (SFdiv Float.prec Float.emax
                            (Float.mul Float.hundred fcovered) ftotal)];;;
     if Float.lt (SFdiv Float.prec Float.emax
                        (Float.mul Float.hundred fcovered) ftotal)
                 min_percent
     then
       logging ERROR
               "Expected line coverage of at least %0.2f%% but got %0.2f%% (%d/%d)"
               [AFloat min_percent;
                AFloat (SFdiv Float.prec Float.emax
                              (Float.mul Float.hundred fcovered) ftotal);
                AInt covered; AInt (covered + uncovered)];;;
       ret false
     else ret true)%py.
Proof.
  intros Hc Hm Hne Hfc Hft.
  destruct (threshold_lookup _ _ _ Hc Hm) as [G1 G2].
  unfold compare_coverage.
  rewrite Hfc, bind_lift_ret, Hft, bind_lift_ret.
  rewrite (div_by_count _ _ _ Hne Hft), bind_lift_ret.
  rewrite G1, bind_lift_ret, G2, bind_lift_ret. reflexivity.
Qed.

(** X11: with a threshold configured and a report in which lines are
    counted and none is covered, the percentage is 0.0: the gate fails
    for every threshold above zero and passes for a threshold that is
    zero or negative. *)
Theorem X11_no_line_covered (path_root : string) (d c : gmap string json)
        (threshold : json) (root : element) (uncovered : Z)
        (ftotal min_percent : spec_float) :
  d !! CONFIG_KEY_COVERAGE = Some (JObj c) ->
  c !! CONFIG_KEY_MIN_PERCENTAGE = Some threshold ->
  isfile (report_path path_root) = true ->
  fs_xml fs (report_path path_root) = Some root ->
  count_lines root = (uncovered, 0%Z) ->
  uncovered <> 0%Z ->
  Float.of_int uncovered = Ret ftotal ->
  py_float threshold = (Ret min_percent, []) ->
  fst (coverage_is_sufficient path_root (JObj d))
  = Ret (negb (Float.lt (S754_zero false) min_percent))
  /\ (forall m e, min_percent = S754_finite false m e ->
                  fst (coverage_is_sufficient path_root (JObj d)) = Ret false)
  /\ (forall s, min_percent = S754_zero s ->
                fst (coverage_is_sufficient path_root (JObj d)) = Ret true)
  /\ (forall m e, min_percent = S754_finite true m e ->
                  fst (coverage_is_sufficient path_root (JObj d)) = Ret true).
Proof.
  intros Hc Hm Hf Hx Hn Hne Hft Hmin.
  assert (Hres : fst (coverage_is_sufficient path_root (JObj d))
                 = Ret (negb (Float.lt (S754_zero false) min_percent))).
  { rewrite (coverage_configured _ _ _ _ _ Hc Hm Hf Hx), Hn. cbn [fst snd].
    rewrite (compare_coverage_at d c threshold uncovered 0
                                 (S754_zero false) ftotal Hc Hm)
      by (try reflexivity; assumption).
    rewrite Hmin.
    change (Ret min_percent, @nil event) with (@ret spec_float min_percent).
    rewrite bind_ret.
    destruct (of_int_not_zero _ _ Hne Hft) as (s & m & e & ->).
    change (SFdiv Float.prec Float.emax
                  (Float.mul Float.hundred (S754_zero false))
                  (S754_finite s m e))
      with (S754_zero (xorb false s)).
    rewrite lt_zero_sign.
    destruct (Float.lt (S754_zero false) min_percent); reflexivity. }
  split; [exact Hres|]. rewrite Hres.
  split; [|split]; intros; subst min_percent; reflexivity.
Qed.

(** X12: a threshold is only looked at after the report has been parsed
    and the percentage computed, and it is not checked before [float()]
    is applied to it: when [float()] raises, the gate raises the same
    exception, having logged nothing.  So it raises [TypeError] for a
    threshold that is [null], a list or an object, and [ValueError] for
    a string that [float()] cannot read. *)
Theorem X12_threshold_that_is_no_number (path_root : string)
        (d c : gmap string json) (threshold : json) (root : element)
        (uncovered covered : Z) (fcovered ftotal : spec_float) :
  d !! CONFIG_KEY_COVERAGE = Some (JObj c) ->
  c !! CONFIG_KEY_MIN_PERCENTAGE = Some threshold ->
  isfile (report_path path_root) = true ->
  fs_xml fs (report_path path_root) = Some root ->
  count_lines root = (uncovered, covered) ->
  (covered + uncovered)%Z <> 0%Z ->
  Float.of_int covered = Ret fcovered ->
  Float.of_int (covered + uncovered) = Ret ftotal ->
  (forall e, py_float threshold = (Raise e, []) ->
             coverage_is_sufficient path_root (JObj d)
             = (Raise e, [EvIsFile (report_path path_root);
                          EvParseXml (report_path path_root)]))
  /\ (match threshold with
      | JNull | JArr _ | JObj _ => True
      | _ => False
      end ->
      coverage_is_sufficient path_root (JObj d)
      = (Raise TypeError, [EvIsFile (report_path path_root);
                           EvParseXml (report_path path_root)]))
  /\ (forall s, threshold = JStr s -> float_of_string s = None ->
                coverage_is_sufficient path_root (JObj d)
                = (Raise ValueError, [EvIsFile (report_path path_root);
                                      EvParseXml (report_path path_root)])).
Proof.
  intros Hc Hm Hf Hx Hn Hne Hfc Hft.
  assert (Hgen : forall e, py_float threshold = (Raise e, []) ->
                           coverage_is_sufficient path_root (JObj d)
                           = (Raise e, [EvIsFile (report_path path_root);
                                        EvParseXml (report_path path_root)])).
  { intros e He.
    rewrite (coverage_configured _ _ _ _ _ Hc Hm Hf Hx), Hn. cbn [fst snd].
    rewrite (compare_coverage_at d c threshold uncovered covered
                                 fcovered ftotal Hc Hm Hne Hfc Hft).
    rewrite He. reflexivity. }
  split; [exact Hgen|]. split.
  - intros Ht. apply Hgen. destruct threshold; try contradiction; reflexivity.
  - intros s -> Hs. apply Hgen. cbn. rewrite Hs. reflexivity.
Qed.

(** *** Paths built from names, and their relative paths *)

Lemma append_cons (c : ascii) (w x : string) :
  (String c w ++ x)%string = String c (w ++ x)%string.
Proof. reflexivity. Qed.

Lemma append_empty_r (w : string) : (w ++ "")%string = w.
Proof.
  induction w as [|c w IH]; [reflexivity|]. rewrite append_cons, IH.
  reflexivity.
Qed.

Lemma append_assoc (x y z : string) :
  ((x ++ y) ++ z)%string = (x ++ y ++ z)%string.
Proof.
  induction x as [|c x IH]; [reflexivity|]. rewrite !append_cons, IH.
  reflexivity.
Qed.

Lemma no_slash_cons (c : ascii) (w : string) :
  no_slash (String c w) <-> c <> "/"%char /\ no_slash w.
Proof.
  unfold no_slash. cbn. rewrite andb_true_iff, negb_true_iff.
  rewrite Ascii.eqb_neq. reflexivity.
Qed.

Lemma split_no_slash (w : string) : no_slash w -> Str.split "/" w = [w].
Proof.
  induction w as [|c w IH]; [reflexivity|].
  intros [Hc Hw]%no_slash_cons. cbn [Str.split].
  destruct (Ascii.eqb_spec c "/") as [E|_]; [contradiction|].
  rewrite (IH Hw). reflexivity.
Qed.

Lemma split_name_slash (w x : string) :
  no_slash w ->
  Str.split "/" (w ++ String "/" x) = w :: Str.split "/" x.
Proof.
  induction w as [|c w IH]; [reflexivity|].
  intros [Hc Hw]%no_slash_cons.
  change (String c w ++ String "/" x)%string
    with (String c (w ++ String "/" x)%string).
  cbn [Str.split].
  destruct (Ascii.eqb_spec c "/") as [E|_]; [contradiction|].
  rewrite (IH Hw). reflexivity.
Qed.

Lemma split_join (l : list string) :
  Forall no_slash l -> l <> [] -> Str.split "/" (Str.join "/" l) = l.
Proof.
  induction 1 as [|w l Hw Hl IH]; [done|]. intros _.
  destruct l as [|x l].
  - cbn. apply split_no_slash, Hw.
  - change (Str.join "/" (w :: x :: l))
      with (w ++ String "/" (Str.join "/" (x :: l)))%string.
    rewrite (split_name_slash _ _ Hw), IH by discriminate. reflexivity.
Qed.

Lemma name_no_slash (l : list string) :
  Forall is_name l -> Forall no_slash l.
Proof.
  intros H. eapply Forall_impl; [exact H|].
  intros w (_ & _ & _ & Hw). exact Hw.
Qed.

Lemma normpath_comps_names (acc l : list string) :
  Forall is_name l ->
  PosixPath.normpath_comps true acc l = rev acc ++ l.
Proof.
  intros H. revert acc. induction H as [|w l (H1 & H2 & H3 & _) _ IH];
    intros acc.
  - cbn. rewrite app_nil_r. reflexivity.
  - cbn [PosixPath.normpath_comps].
    apply String.eqb_neq in H1, H2, H3. rewrite H1, H2, H3.
    cbn [orb negb]. rewrite IH. cbn [rev]. rewrite <- app_assoc. reflexivity.
Qed.

Lemma startswith_slash_name (w x : string) :
  is_name w -> Str.startswith (w ++ x) "/" = false.
Proof.
  intros (H1 & _ & _ & H). destruct w as [|c w]; [done|].
  apply no_slash_cons in H as [Hc _]. unfold Str.startswith.
  change (String c w ++ x)%string with (String c (w ++ x)%string).
  cbn [String.prefix].
  destruct (ascii_dec "/" c) as [<-|_]; [done|reflexivity].
Qed.

Lemma startswith_slash_join (l : list string) :
  Forall is_name l -> Str.startswith (Str.join "/" l) "/" = false.
Proof.
  intros H. destruct H as [|w l Hw Hl]; [reflexivity|].
  destruct l as [|x l].
  - cbn [Str.join]. rewrite <- (append_empty_r w).
    apply startswith_slash_name, Hw.
  - change (Str.join "/" (w :: x :: l))
      with (w ++ String "/" (Str.join "/" (x :: l)))%string.
    apply startswith_slash_name, Hw.
Qed.

Lemma prefix_cons (c : ascii) (x s : string) :
  String.prefix (String c x) (String c s) = String.prefix x s.
Proof.
  cbn [String.prefix]. destruct (ascii_dec c c) as [_|N]; [reflexivity|].
  contradiction.
Qed.

Lemma startswith_cons (c : ascii) (x s : string) :
  Str.startswith (String c s) (String c x) = Str.startswith s x.
Proof. apply prefix_cons. Qed.

Lemma startswith_empty (s : string) : Str.startswith s "" = true.
Proof. destruct s; reflexivity. Qed.

(** A normalised absolute path is its own [abspath]. *)
Lemma abspath_abs_path (cwd : string) (l : list string) :
  Forall is_name l -> PosixPath.abspath cwd (abs_path l) = abs_path l.
Proof.
  intros H. unfold PosixPath.abspath, PosixPath.isabs, abs_path.
  rewrite startswith_cons, startswith_empty.
  unfold PosixPath.normpath.
  change (String.eqb (String "/" (Str.join "/" l)) "") with false.
  rewrite !startswith_cons, startswith_empty.
  cbn match.
  rewrite (startswith_slash_join l H). cbn [andb].
  change (Str.split "/" (String "/" (Str.join "/" l)))
    with ("" :: Str.split "/" (Str.join "/" l)).
  cbn [PosixPath.normpath_comps String.eqb orb].
  destruct l as [|w l].
  - reflexivity.
  - rewrite split_join by (try discriminate; apply name_no_slash, H).
    rewrite normpath_comps_names by exact H. reflexivity.
Qed.

Lemma components_abs_path (l : list string) :
  Forall is_name l ->
  filter PosixPath.nonempty (Str.split "/" (abs_path l)) = l.
Proof.
  intros H. unfold abs_path.
  change (Str.split "/" (String "/" (Str.join "/" l)))
    with ("" :: Str.split "/" (Str.join "/" l)).
  rewrite filter_cons_False by (cbn; auto).
  destruct l as [|w l]; [reflexivity|].
  rewrite split_join by (try discriminate; apply name_no_slash, H).
  induction H as [|x l' (Hx & _) _ IH]; [reflexivity|].
  rewrite filter_cons_True; [f_equal; exact IH|].
  unfold PosixPath.nonempty. apply String.eqb_neq in Hx. rewrite Hx.
  reflexivity.
Qed.

Lemma commonprefix_len_app (l rest : list string) :
  PosixPath.commonprefix_len l (l ++ rest) = length l.
Proof.
  induction l as [|x l IH]; [destruct rest; reflexivity|].
  cbn. rewrite String.eqb_refl, IH. reflexivity.
Qed.

Lemma startswith_name (e : string) :
  is_name e -> Str.startswith e "/" = false.
Proof.
  intros He. rewrite <- (append_empty_r e). apply startswith_slash_name, He.
Qed.

(** *** [str.endswith] with the slash *)

Lemma endswith_cons (c d : ascii) (s : string) :
  s <> "" ->
  Str.endswith (String c s) (String d "") = Str.endswith s (String d "").
Proof.
  intros Hs. destruct s as [|e s]; [done|]. unfold Str.endswith.
  cbn [String.length Nat.leb Nat.sub String.substring].
  rewrite Nat.sub_0_r. reflexivity.
Qed.

Lemma endswith_no_slash (w : string) :
  w <> "" -> no_slash w -> Str.endswith w "/" = false.
Proof.
  induction w as [|c w IH]; [done|]. intros _ [Hc Hw]%no_slash_cons.
  destruct w as [|d w].
  - unfold Str.endswith. cbn.
    destruct (Ascii.eqb_spec c "/") as [E|_]; [contradiction|reflexivity].
  - rewrite endswith_cons by done. apply IH; [done|exact Hw].
Qed.

Lemma append_nonempty (x w : string) : w <> "" -> (x ++ w)%string <> "".
Proof.
  intros Hw. destruct x as [|c x]; [exact Hw|]. rewrite append_cons. done.
Qed.

Lemma endswith_append (x w : string) :
  w <> "" -> Str.endswith (x ++ w) "/" = Str.endswith w "/".
Proof.
  intros Hw. induction x as [|c x IH]; [reflexivity|].
  rewrite append_cons, endswith_cons by (apply append_nonempty, Hw).
  exact IH.
Qed.

Lemma join_nonempty (l : list string) :
  Forall is_name l -> l <> [] -> Str.join "/" l <> "".
Proof.
  intros H Hl. destruct H as [|w l (Hw & _) _]; [done|].
  destruct w as [|c w]; [done|]. destruct l; [done|].
  cbn [Str.join]. rewrite append_cons. done.
Qed.

Lemma endswith_join (l : list string) :
  Forall is_name l -> l <> [] -> Str.endswith (Str.join "/" l) "/" = false.
Proof.
  induction 1 as [|w l Hw Hl IH]; [done|]. intros _.
  destruct l as [|x l].
  - cbn [Str.join]. destruct Hw as (H1 & _ & _ & H4).
    apply endswith_no_slash; assumption.
  - change (Str.join "/" (w :: x :: l))
      with (w ++ String "/" (Str.join "/" (x :: l)))%string.
    rewrite endswith_append by done.
    rewrite endswith_cons by (apply join_nonempty; [exact Hl|done]).
    apply IH. done.
Qed.

(** *** [os.path.join] on names *)

Lemma join_snoc (l : list string) (e : string) :
  l <> [] ->
  Str.join "/" (l ++ [e]) = (Str.join "/" l ++ String "/" e)%string.
Proof.
  induction l as [|w l IH]; [done|]. intros _. destruct l as [|x l].
  - reflexivity.
  - change (Str.join "/" ((w :: x :: l) ++ [e]))
      with (w ++ String "/" (Str.join "/" ((x :: l) ++ [e])))%string.
    rewrite IH by done.
    change (Str.join "/" (w :: x :: l))
      with (w ++ String "/" (Str.join "/" (x :: l)))%string.
    rewrite append_assoc, append_cons. reflexivity.
Qed.

Lemma join_abs_path (l : list string) (e : string) :
  Forall is_name l -> is_name e ->
  PosixPath.join (abs_path l) e = abs_path (l ++ [e]).
Proof.
  intros Hl He. unfold PosixPath.join. rewrite (startswith_name e He).
  unfold abs_path.
  change (String.eqb (String "/" (Str.join "/" l)) "") with false.
  cbn [orb]. destruct l as [|w l].
  - reflexivity.
  - rewrite endswith_cons by (apply join_nonempty; [exact Hl|done]).
    rewrite endswith_join by (try done; exact Hl).
    rewrite join_snoc by done. reflexivity.
Qed.

Lemma fold_join_abs_path (rest comps : list string) :
  Forall is_name comps -> Forall is_name rest ->
  fold_left PosixPath.join rest (abs_path comps) = abs_path (comps ++ rest).
Proof.
  intros Hc Hr. revert comps Hc.
  induction Hr as [|e rest He _ IH]; intros comps Hc.
  - rewrite app_nil_r. reflexivity.
  - cbn [fold_left]. rewrite join_abs_path by assumption.
    rewrite IH by (apply Forall_app; split; [exact Hc|by constructor]).
    rewrite <- app_assoc. reflexivity.
Qed.

Lemma join_rel (l : list string) (e : string) :
  Forall is_name l -> l <> [] -> is_name e ->
  PosixPath.join (Str.join "/" l) e = Str.join "/" (l ++ [e]).
Proof.
  intros Hl Hn He. unfold PosixPath.join. rewrite (startswith_name e He).
  pose proof (join_nonempty l Hl Hn) as Hj.
  apply String.eqb_neq in Hj. rewrite Hj, endswith_join by assumption.
  cbn [orb]. rewrite join_snoc by exact Hn. reflexivity.
Qed.

Lemma join_all_names (l : list string) :
  Forall is_name l -> PosixPath.join_all l = Str.join "/" l.
Proof.
  intros H. destruct H as [|a p Ha Hp]; [reflexivity|].
  cbn [PosixPath.join_all].
  change a with (Str.join "/" [a]) at 1.
  change (a :: p) with ([a] ++ p).
  assert (Hl : Forall is_name [a]) by (by constructor).
  assert (Hn : [a] <> []) by done.
  revert Hl Hn. generalize [a] as l. induction Hp as [|e p He _ IH];
    intros l Hl Hn.
  - rewrite app_nil_r. reflexivity.
  - cbn [fold_left]. rewrite join_rel by assumption.
    rewrite IH.
    + rewrite <- app_assoc. reflexivity.
    + apply Forall_app. split; [exact Hl|by constructor].
    + destruct l; done.
Qed.

(** The path of a directory relative to one of its ancestors. *)
Lemma relpath_below (cwd : string) (comps rest : list string) :
  Forall is_name comps -> Forall is_name rest ->
  PosixPath.relpath cwd (abs_path (comps ++ rest)) (abs_path comps)
  = Ret (match rest with [] => "." | _ => Str.join "/" rest end).
Proof.
  intros Hc Hr.
  assert (Hcr : Forall is_name (comps ++ rest))
    by (apply Forall_app; split; assumption).
  unfold PosixPath.relpath.
  change (String.eqb (abs_path (comps ++ rest)) "") with false.
  cbv zeta. cbn match.
  rewrite !abspath_abs_path, !components_abs_path by assumption.
  rewrite commonprefix_len_app, Nat.sub_diag, drop_app_length.
  cbn [repeat app]. destruct rest as [|e rest]; [reflexivity|].
  rewrite join_all_names by exact Hr. reflexivity.
Qed.

(** X13 ([should_skip], lines 107-115, on the paths line 132 joins).
    Let the root be the absolute path of the names [comps] and let a
    directory that is no link lie below it through the names [rest].
    Its path relative to the root is these names joined with slashes,
    and [should_skip] answers by the skip rules for that relative
    path.  The relative path is one of the always-skipped names only
    for a direct child of the root that bears such a name: a directory
    further down, whatever its name, is skipped only by a configured
    rule, and is entered when the configuration holds none. *)
Theorem X13_always_skipped_names_hold_for_children_of_the_root
        (self : SkippedPathDetecter regex) (comps rest : list string) :
  _path_root self = abs_path comps ->
  Forall is_name comps -> Forall is_name rest -> rest <> [] ->
  isdir (fold_left PosixPath.join rest (abs_path comps)) = true ->
  islink (fold_left PosixPath.join rest (abs_path comps)) = false ->
  let path := fold_left PosixPath.join rest (abs_path comps) in
  let rel := Str.join "/" rest in
  path = abs_path (comps ++ rest)
  /\ os_path_relpath path (_path_root self) = (Ret rel, [])
  /\ should_skip self path
     = (Ret (skip_rules self rel), [EvIsDir path; EvIsLink path])
  /\ (rel ∈ _ALWAYS_SKIPPED
      <-> exists e, rest = [e] /\ e ∈ _ALWAYS_SKIPPED)
  /\ (2 <= length rest ->
      _skipped_paths self = ∅ -> _skipped_regex_paths self = [] ->
      fst (should_skip self path) = Ret false).
Proof.
  intros Hroot Hc Hr Hne Hd Hl path rel.
  assert (Hpath : path = abs_path (comps ++ rest))
    by (apply fold_join_abs_path; assumption).
  assert (Hrel : PosixPath.relpath (fs_cwd fs) path (_path_root self)
                 = Ret rel).
  { rewrite Hpath, Hroot, relpath_below by assumption.
    destruct rest; [done|reflexivity]. }
  assert (Hskip : should_skip self path
                  = (Ret (skip_rules self rel),
                     [EvIsDir path; EvIsLink path])).
  { rewrite should_skip_eq. fold path in Hd, Hl. rewrite Hd, Hl, Hrel.
    reflexivity. }
  assert (Halways : rel ∈ _ALWAYS_SKIPPED
                    <-> exists e, rest = [e] /\ e ∈ _ALWAYS_SKIPPED).
  { split.
    - intros Hin. exists rel. split; [|exact Hin].
      rewrite <- (split_join rest) by (try exact Hne; apply name_no_slash, Hr).
      fold rel. unfold _ALWAYS_SKIPPED in Hin.
      repeat (apply elem_of_cons in Hin as [->|Hin]; [reflexivity|]).
      apply elem_of_nil in Hin. contradiction.
    - intros (e & -> & He). exact He. }
  split; [exact Hpath|]. split; [unfold os_path_relpath; rewrite Hrel; reflexivity|].
  split; [exact Hskip|]. split; [exact Halways|].
  intros Hlen Hpaths Hre. rewrite Hskip. cbn [fst]. f_equal.
  unfold skip_rules. rewrite Hpaths, Hre. cbn [existsb].
  rewrite (bool_decide_eq_false_2 (rel ∈ (∅ : gset string)))
    by apply not_elem_of_empty.
  rewrite bool_decide_eq_false_2; [reflexivity|].
  intros (e & -> & _)%Halways. cbn in Hlen. lia.
Qed.

(** *** The messages of the level [ERROR] *)

Lemma bind_Ret_inv {A B} (m : py A) (k : A -> py B) (b : B) (t : list event) :
  bind m k = (Ret b, t) ->
  exists a t1 t2, m = (Ret a, t1) /\ k a = (Ret b, t2) /\ t = t1 ++ t2.
Proof.
  destruct m as [[a|e] t1]; cbn; [|discriminate].
  destruct (k a) as [r t2] eqn:Hk. intros [= -> <-]. eauto 6.
Qed.

Lemma lift_Ret_inv {A} (o : outcome A) (a : A) (t : list event) :
  lift o = (Ret a, t) -> o = Ret a /\ t = [].
Proof. unfold lift. intros [= -> <-]. auto. Qed.

Lemma py_float_trace (v : json) r t : py_float v = (r, t) -> t = [].
Proof.
  destruct v; cbn; try (intros [= _ <-]; reflexivity).
  destruct (float_of_string s); intros [= _ <-]; reflexivity.
Qed.

Lemma no_error_app (t1 t2 : list event) :
  no_error (t1 ++ t2) <-> no_error t1 /\ no_error t2.
Proof. apply Forall_app. Qed.

Lemma some_error_app (t1 t2 : list event) :
  some_error (t1 ++ t2) <-> some_error t1 \/ some_error t2.
Proof.
  unfold some_error. split.
  - intros (ev & [H|H]%elem_of_app & He); [left|right]; eauto.
  - intros [(ev & H & He)|(ev & H & He)]; exists ev;
      (split; [apply elem_of_app; auto|exact He]).
Qed.

Lemma no_error_push_events (parent : string) (entries : list string) :
  no_error (push_events parent entries).
Proof.
  unfold push_events, no_error. induction entries as [|e l IH]; [constructor|].
  cbn [flat_map]. apply Forall_app. split; [|exact IH].
  unfold stat_events. destruct (isdir _); repeat constructor.
Qed.

Lemma loop_no_error (self : SkippedPathDetecter regex) (ignored : list regex)
      s s' t :
  loop_reaches self ignored s s' t -> no_error t.
Proof.
  induction 1 as [|unvisited bad parent rest s1 t1 s' t Hpop Hv _ IH];
    [constructor|].
  apply no_error_app. split; [|exact IH].
  destruct (visit_cases _ _ _ _ _ _ _ Hv) as (entries & Hl & _ & _).
  rewrite (visit_eq _ _ _ _ _ _ Hl) in Hv. injection Hv as _ <-.
  constructor; [reflexivity|]. constructor; [reflexivity|].
  apply no_error_push_events.
Qed.

Lemma report_errors (path_root : string) (bad : list string) (b : bool)
      (t : list event) :
  report path_root bad = (Ret b, t) ->
  if b then t = [] else some_error t.
Proof.
  unfold report. destruct bad as [|p bad]; [intros [= <- <-]; reflexivity|].
  unfold logging at 1. rewrite bind_emit.
  destruct (for_each _ _ _;;; ret false)%py as [r t'] eqn:Hfor.
  cbn [fst snd]. intros [= -> <-].
  assert (Hb : b = false).
  { apply bind_Ret_inv in Hfor as (_ & _ & _ & _ & [= <- _] & _).
    reflexivity. }
  subst b. eexists. split; [left|reflexivity].
Qed.

Lemma gate_errors (fuel : nat) (path_root : string) (config : json)
      (ignored : list regex) (b : bool) (t : list event) :
  all_directories_have_tests fuel path_root config ignored
  = Some (Ret b, t) ->
  if b then no_error t else some_error t.
Proof.
  rewrite gate_eq.
  destruct (SkippedPathDetecter_init path_root config) as [[self|e] t0] eqn:Hi;
    [|discriminate].
  destruct (init_root _ _ _ _ Hi) as [-> _].
  destruct (scan fuel self ignored [path_root] []) as [[[bad|e] t1]|] eqn:Hs;
    [|discriminate..].
  intros [= Hb <-]. cbn [app].
  destruct (report path_root bad) as [r tr] eqn:Hr. cbn [fst snd] in *.
  subst r. pose proof (report_errors _ _ _ _ Hr) as He.
  destruct b.
  - subst tr. rewrite app_nil_r.
    destruct (scan_reaches _ _ _ _ _ _ _ Hs)
      as [(bad' & _ & Hloop)|(? & ? & ? & ? & ? & ? & ? & [=] & _)].
    exact (loop_no_error _ _ _ _ _ Hloop).
  - apply some_error_app. right. exact He.
Qed.

Lemma compare_coverage_errors (config : json) (u c : Z) (b : bool)
      (t : list event) :
  compare_coverage config u c = (Ret b, t) ->
  if b then no_error t else some_error t.
Proof.
  unfold compare_coverage. cbv zeta. intros H.
  apply bind_Ret_inv in H as (covered & ? & ? & [_ ->]%lift_Ret_inv & H & ->).
  apply bind_Ret_inv in H as (total & ? & ? & [_ ->]%lift_Ret_inv & H & ->).
  apply bind_Ret_inv in H as (actual & ? & ? & [_ ->]%lift_Ret_inv & H & ->).
  apply bind_Ret_inv in H as (cov & ? & ? & [_ ->]%lift_Ret_inv & H & ->).
  apply bind_Ret_inv in H as (thr & ? & ? & [_ ->]%lift_Ret_inv & H & ->).
  apply bind_Ret_inv in H as (m & ? & ? & ->%py_float_trace & H & ->).
  cbn [app]. unfold logging at 1 in H. rewrite bind_emit in H.
  destruct (Float.lt actual m).
  - unfold logging in H. rewrite bind_emit in H. cbn in H.
    injection H as <- <-. eexists. split; [right; left|reflexivity].
  - cbn in H. injection H as <- <-. repeat constructor.
Qed.

Lemma coverage_errors (path_root : string) (config : json) (b : bool)
      (t : list event) :
  coverage_is_sufficient path_root config = (Ret b, t) ->
  if b then no_error t else some_error t.
Proof.
  unfold coverage_is_sufficient. intros H.
  apply bind_Ret_inv in H as (hc & ? & ? & [_ ->]%lift_Ret_inv & H & ->).
  cbn [app]. destruct hc; cbn [negb] in H.
  2: { unfold logging in H. rewrite bind_emit in H. cbn in H.
       injection H as <- <-. repeat constructor. }
  apply bind_Ret_inv in H as (cov & ? & ? & [_ ->]%lift_Ret_inv & H & ->).
  apply bind_Ret_inv in H as (hm & ? & ? & [_ ->]%lift_Ret_inv & H & ->).
  cbn [app]. destruct hm; cbn [negb] in H.
  2: { unfold logging in H. rewrite bind_emit in H. cbn in H.
       injection H as <- <-. eexists. split; [left|reflexivity]. }
  cbv zeta in H.
  apply bind_Ret_inv in H as (isf & tf & ? & Hf & H & ->).
  injection Hf as <- <-.
  destruct (isfile (PosixPath.join path_root COVERAGE_REPORT_FILE)).
  2: { cbn [negb] in H. unfold logging in H.
       rewrite bind_emit in H. cbn in H. injection H as <- <-.
       eexists. split; [right; left|reflexivity]. }
  cbn [negb] in H.
  apply bind_Ret_inv in H as (root & tp & ? & Hp & H & ->).
  assert (Htp : tp = [EvParseXml (PosixPath.join path_root COVERAGE_REPORT_FILE)]).
  { unfold et_parse in Hp. rewrite bind_emit in Hp.
    destruct (fs_xml fs _); cbn in Hp; injection Hp as _ <-; reflexivity. }
  subst tp. destruct (count_lines root) as [u c].
  rename H into Hc. cbn [app].
  pose proof (compare_coverage_errors _ _ _ _ _ Hc) as He.
  destruct b.
  - constructor; [reflexivity|]. constructor; [reflexivity|exact He].
  - destruct He as (ev & Hin & He). exists ev.
    split; [right; right; exact Hin|exact He].
Qed.

Lemma compile_ignored_trace (args : Namespace) r t :
  compile_ignored args = (r, t) -> t = [].
Proof.
  unfold compile_ignored. destruct (cover_ignore_srcs args) as [srcs|];
    [|intros [= _ <-]; reflexivity].
  assert (Hfor : forall l acc,
             for_each l (fun acc pattern =>
                           prog <- re_compile_py pattern;;
                           ret (acc ++ [prog]))%py acc = (r, t) -> t = []).
  { induction l as [|x l IH]; intros acc; [intros [= _ <-]; reflexivity|].
    cbn [for_each]. unfold re_compile_py at 1.
    destruct (re_compile x); [|intros [= _ <-]; reflexivity].
    rewrite !bind_ret. apply IH. }
  apply Hfor.
Qed.

Lemma error_shown (args : Namespace) (t : list event) (ev : event) :
  ev ∈ t -> log_at ERROR ev = true -> ev ∈ stderr args t.
Proof.
  intros Hin He. apply list_elem_of_filter. split; [|exact Hin].
  destruct ev as [| | | | | |l fmt a]; try discriminate He.
  destruct l; try discriminate He.
  unfold parse_args_log_level. destruct (debug args), (verbose args);
    reflexivity.
Qed.

Lemma stderr_by_default (args : Namespace) (t : list event) :
  verbose args = false -> debug args = false ->
  stderr args t = filter (fun ev => log_at ERROR ev = true) t.
Proof.
  intros Hv Hd. unfold stderr, parse_args_log_level. rewrite Hv, Hd.
  apply list_filter_iff. intros [| | | | | |l fmt a]; try reflexivity.
  destruct l; cbn; split; intros H; try discriminate H; reflexivity.
Qed.

Lemma no_error_filter (t : list event) :
  no_error t -> filter (fun ev => log_at ERROR ev = true) t = [].
Proof.
  induction 1 as [|ev t Hev _ IH]; [reflexivity|].
  rewrite filter_cons_False by (rewrite Hev; discriminate). exact IH.
Qed.

(** X14 ([parse_args], lines 254-261).  The level handed to
    [logging.basicConfig] is set from [--debug] first and from
    [--verbose] after it, so [--verbose] wins: with it, given alone or
    together with [--debug], the messages of the levels [INFO] and
    [ERROR] reach [stderr] and those of the level [DEBUG] do not.
    [--debug] alone lets every message through, and without a flag
    only the messages of the level [ERROR] are written. *)
Theorem X14_verbose_overrides_debug (args : Namespace) (t : list event) :
  (verbose args = true ->
   stderr args t
   = filter (fun ev => log_at INFO ev || log_at ERROR ev = true) t)
  /\ (verbose args = false -> debug args = true ->
      stderr args t
      = filter (fun ev => log_at DEBUG ev || log_at INFO ev
                          || log_at ERROR ev = true) t)
  /\ (verbose args = false -> debug args = false ->
      stderr args t = filter (fun ev => log_at ERROR ev = true) t).
Proof.
  split; [|split].
  - intros Hv. unfold stderr, parse_args_log_level. rewrite Hv.
    apply list_filter_iff. intros [| | | | | |l fmt a]; try reflexivity.
    destruct l; cbn; split; intros H; try discriminate H; reflexivity.
  - intros Hv Hd. unfold stderr, parse_args_log_level. rewrite Hv, Hd.
    apply list_filter_iff. intros [| | | | | |l fmt a]; try reflexivity.
    destruct l; cbn; split; intros H; try discriminate H; reflexivity.
  - apply stderr_by_default.
Qed.

(** X15 ([main], lines 214-238, with the messages of the functions it
    calls).  When [main] returns, the exit status tells whether an
    error was reported.  With status 0 no message of the level [ERROR]
    was logged, and without [--verbose] and [--debug] nothing at all
    is written to [stderr].  With status 1 a message of the level
    [ERROR] is written to [stderr] whatever the flags are, but for one
    case: a configuration file that holds the JSON value [null] makes
    [main] return 1 after opening the file, with no message. *)
Theorem X15_exit_status_and_error_messages
        (fuel : nat) (args : Namespace) (n : Z) (t : list event) :
  main fuel args = Some (Ret n, t) ->
  (n = 0%Z /\ no_error t
   /\ (verbose args = false -> debug args = false -> stderr args t = []))
  \/ (n = 1%Z
      /\ (some_error (stderr args t)
          \/ (fs_json fs config_path = Parsed JNull
              /\ t = [EvIsFile config_path; EvOpen config_path]
              /\ stderr args t = []))).
Proof.
  intros H.
  assert (Hquiet : forall t', no_error t' ->
            verbose args = false -> debug args = false ->
            stderr args t' = []).
  { intros t' Hn Hv Hd. rewrite stderr_by_default by assumption.
    apply no_error_filter, Hn. }
  assert (Hloud : forall t', some_error t' -> some_error (stderr args t')).
  { intros t' (ev & Hin & He). exists ev.
    split; [apply error_shown; assumption|exact He]. }
  destruct (isfile config_path) eqn:Hf.
  2: { unfold main in H. fold config_path in H.
       unfold os_path_isfile in H. rewrite Hf in H. cbn in H.
       injection H as <- <-. left. split; [reflexivity|].
       assert (Hn : no_error
                 [EvIsFile config_path;
                  EvLog INFO
                    "Create %s to enable the golang test coverage linter"
                    [AStr CONFIG_FILE_NAME]]) by (repeat constructor).
       split; [exact Hn|]. apply Hquiet, Hn. }
  destruct (fs_json fs config_path) as [| |config] eqn:Hj.
  - unfold main in H. fold config_path in H.
    unfold os_path_isfile, load_config_file in H. rewrite Hf, Hj in H.
    cbn in H. discriminate H.
  - unfold main in H. fold config_path in H.
    unfold os_path_isfile, load_config_file in H. rewrite Hf, Hj in H.
    cbn in H. injection H as <- <-. right. split; [reflexivity|].
    left. apply Hloud. eexists. split; [right; right; left|reflexivity].
  - assert (Hnull : config = JNull ->
              Some (Ret 1%Z, [EvIsFile config_path; EvOpen config_path])
              = Some (Ret n, t) ->
              n = 1%Z
              /\ (some_error (stderr args t)
                  \/ (Parsed config = Parsed JNull
                      /\ t = [EvIsFile config_path; EvOpen config_path]
                      /\ stderr args t = []))).
    { intros -> [= <- <-]. split; [reflexivity|]. right.
      repeat split. }
    destruct (compile_ignored args) as [[ignored|e] tc] eqn:Hc.
    + pose proof (compile_ignored_trace _ _ _ Hc) as ->.
      rewrite (main_with_config fuel args config ignored [] Hf Hj Hc) in H.
      assert (Hgates :
                match all_directories_have_tests fuel (fs_cwd fs) config
                                                 ignored with
                | None => None
                | Some (Raise e, t1) =>
                    Some (Raise e, [EvIsFile config_path; EvOpen config_path]
                                     ++ [] ++ t1)
                | Some (Ret false, t1) =>
                    Some (Ret 1%Z, [EvIsFile config_path; EvOpen config_path]
                                     ++ [] ++ t1)
                | Some (Ret true, t1) =>
                    match coverage_is_sufficient (fs_cwd fs) config with
                    | (Raise e, t2) =>
                        Some (Raise e,
                              [EvIsFile config_path; EvOpen config_path]
                                ++ [] ++ t1 ++ t2)
                    | (Ret sufficient, t2) =>
                        Some (Ret (if sufficient then 0 else 1)%Z,
                              [EvIsFile config_path; EvOpen config_path]
                                ++ [] ++ t1 ++ t2)
                    end
                end = Some (Ret n, t) ->
                (n = 0%Z /\ no_error t
                 /\ (verbose args = false -> debug args = false ->
                     stderr args t = []))
                \/ (n = 1%Z
                    /\ (some_error (stderr args t)
                        \/ (Parsed config = Parsed JNull
                            /\ t = [EvIsFile config_path; EvOpen config_path]
                            /\ stderr args t = [])))).
      { clear H. intros H.
        destruct (all_directories_have_tests _ _ _ _)
          as [[[[|]|e] t1]|] eqn:Hg; try discriminate H.
        - pose proof (gate_errors _ _ _ _ _ _ Hg) as H1. cbv beta iota in H1.
          destruct (coverage_is_sufficient _ _) as [[[|]|e] t2] eqn:Hs;
            try discriminate H; injection H as <- <-; cbn [app];
            pose proof (coverage_errors _ _ _ _ Hs) as H2;
            cbv beta iota in H2.
          + left. split; [reflexivity|].
            assert (Hn : no_error
                      (EvIsFile config_path :: EvOpen config_path
                         :: t1 ++ t2)).
            { constructor; [reflexivity|]. constructor; [reflexivity|].
              apply no_error_app. split; assumption. }
            split; [exact Hn|apply Hquiet, Hn].
          + right. split; [reflexivity|]. left. apply Hloud.
            destruct H2 as (ev & Hin & He). exists ev.
            split; [|exact He].
            right. right. apply elem_of_app. right. exact Hin.
        - injection H as <- <-. cbn [app].
          pose proof (gate_errors _ _ _ _ _ _ Hg) as H1.
          cbv beta iota in H1.
          right. split; [reflexivity|]. left. apply Hloud.
          destruct H1 as (ev & Hin & He). exists ev.
          split; [|exact He]. right. right. exact Hin. }
      destruct config;
        [right; apply Hnull; [reflexivity|exact H]|exact (Hgates H)..].
    + unfold main in H. fold config_path in H.
      unfold os_path_isfile, load_config_file in H.
      rewrite Hf, Hj, Hc in H.
      destruct config; cbn in H; try discriminate H.
      right. apply Hnull; [reflexivity|exact H].
Qed.

(** *** The fuel of the loop *)

Lemma gate_fuel_mono (fuel fuel' : nat) (path_root : string) (config : json)
      (ignored : list regex) x :
  fuel <= fuel' ->
  all_directories_have_tests fuel path_root config ignored = Some x ->
  all_directories_have_tests fuel' path_root config ignored = Some x.
Proof.
  intros Hle. rewrite !gate_eq.
  destruct (SkippedPathDetecter_init path_root config) as [[self|e] t0];
    [|exact (fun H => H)].
  destruct (scan fuel self ignored [path_root] []) as [y|] eqn:Hs;
    [|discriminate].
  rewrite (scan_fuel_mono _ _ _ _ _ _ _ Hle Hs). exact (fun H => H).
Qed.

Lemma main_fuel_mono (fuel fuel' : nat) (args : Namespace) x :
  fuel <= fuel' -> main fuel args = Some x -> main fuel' args = Some x.
Proof.
  intros Hle. unfold main. fold config_path.
  unfold os_path_isfile, load_config_file.
  destruct (isfile config_path); [|exact (fun H => H)].
  destruct (fs_json fs config_path) as [| |config]; try exact (fun H => H).
  destruct (compile_ignored args) as [[ignored|e] tc];
    destruct config; try exact (fun H => H);
    cbn -[all_directories_have_tests coverage_is_sufficient];
    (destruct (all_directories_have_tests fuel _ _ _) as [y|] eqn:Hg;
     [|discriminate];
     rewrite (gate_fuel_mono _ _ _ _ _ _ Hle Hg); exact (fun H => H)).
Qed.

(** X16 ([main] and the loop of [all_directories_have_tests], lines
    125-150).  Let every directory that is reached from the root through
    directories that are not skipped be listable, at most [depth]
    levels down.  Then the loop ends and [main] ends, with a result or
    an exception, and what [main] yields does not depend on the bound
    put on the number of iterations, once the bound is large
    enough. *)
Theorem X16_main_ends_on_a_finite_tree (args : Namespace) (depth : nat) :
  (forall config self t,
      fs_json fs config_path = Parsed config ->
      SkippedPathDetecter_init (fs_cwd fs) config = (Ret self, t) ->
      listable_within depth self (fs_cwd fs) = true) ->
  exists fuel x, forall fuel', fuel <= fuel' -> main fuel' args = Some x.
Proof.
  intros Hfin.
  assert (Hgate : forall config ignored,
             fs_json fs config_path = Parsed config ->
             exists fuel y,
               all_directories_have_tests fuel (fs_cwd fs) config ignored
               = Some y).
  { intros config ignored Hj.
    destruct (SkippedPathDetecter_init (fs_cwd fs) config)
      as [[self|e] t0] eqn:Hi.
    - destruct (scan_terminates self ignored depth (fs_cwd fs)
                                (Hfin _ _ _ Hj Hi)) as (fuel & b & t & Hs).
      exists fuel. rewrite gate_eq, Hi, Hs. eauto.
    - exists 0. rewrite gate_eq, Hi. eauto. }
  assert (Hsome : exists fuel x, main fuel args = Some x).
  { unfold main. fold config_path.
    unfold os_path_isfile, load_config_file.
    destruct (isfile config_path); [|exists 0; cbn; eauto].
    destruct (fs_json fs config_path) as [| |config] eqn:Hj;
      try (exists 0; cbn; eauto; fail).
    destruct (compile_ignored args) as [[ignored|e] tc].
    - destruct (Hgate config ignored eq_refl) as (fuel & y & Hg).
      exists fuel.
      destruct config;
        cbn -[all_directories_have_tests coverage_is_sufficient];
        try (eauto; fail);
        (rewrite Hg; destruct y as [[[|]|e] t1];
         cbn -[coverage_is_sufficient]; try (eauto; fail);
         destruct (coverage_is_sufficient _ _) as [[[|]|e] t2]; cbn; eauto).
    - exists 0. destruct config; cbn; eauto. }
  destruct Hsome as (fuel & x & Hm). exists fuel, x.
  intros fuel' Hle. exact (main_fuel_mono _ _ _ _ Hle Hm).
Qed.

(** *** The order of the visits *)

Lemma scan_order_from (self : SkippedPathDetecter regex)
      (ignored : list regex) (depth : nat) :
  forall path rest bad L,
    listable_within depth self path = true ->
    (forall bad1, exists fuel b t,
          scan fuel self ignored rest bad1 = Some (Ret b, t)
          /\ listed t = L) ->
    exists fuel b t,
      scan fuel self ignored (rest ++ [path]) bad = Some (Ret b, t)
      /\ listed t = visit_order depth self path ++ L.
Proof.
  induction depth as [|depth IH]; intros path rest bad L Hl Hrest;
    [discriminate|].
  cbn [listable_within] in Hl. cbn [visit_order].
  destruct (listdir path) as [entries|] eqn:Hd; [|discriminate].
  assert (Hall : forall l,
             forallb (listable_within depth self) l = true ->
             forall bad1, exists fuel b t,
                 scan fuel self ignored (rest ++ l) bad1 = Some (Ret b, t)
                 /\ listed t
                    = concat (map (visit_order depth self) (rev l)) ++ L).
  { induction l as [|q l IHl] using rev_ind; intros Hf bad1.
    - rewrite app_nil_r. apply Hrest.
    - rewrite forallb_app in Hf. apply andb_true_iff in Hf as [Hf Hq].
      cbn in Hq. rewrite andb_true_r in Hq.
      rewrite rev_app_distr. cbn [rev app map concat].
      rewrite app_assoc, <- (app_assoc (visit_order depth self q)).
      apply IH; [exact Hq|].
      intros bad2. apply IHl. exact Hf. }
  destruct (Hall _ Hl (if is_untested ignored path entries
                       then bad ++ [path] else bad))
    as (fuel & b & t & Hs & Ht).
  exists (S fuel). rewrite scan_push, (visit_eq _ _ _ _ _ _ Hd).
  cbn [fst snd]. rewrite Hs. eexists _, _. split; [reflexivity|].
  change (EvLog DEBUG "Looking for missing tests in %s" [AStr path]
            :: EvListdir path :: push_events path entries)
    with ([EvLog DEBUG "Looking for missing tests in %s" [AStr path];
           EvListdir path] ++ push_events path entries).
  rewrite !listed_app, listed_push_events, Ht. reflexivity.
Qed.

(** X17 (the loop of [all_directories_have_tests], lines 124-150).
    The paths to visit are kept on a stack, so the directories are
    listed depth first and the entries of a directory are entered in
    the reverse of the order [os.listdir] gave them: the last entry
    that is not skipped comes first, with all that lies below it.  The
    bad paths come out in that same order, so the report names them in
    the order of the visits. *)
Theorem X17_directories_are_visited_last_entry_first
        (self : SkippedPathDetecter regex) (ignored : list regex)
        (depth fuel : nat) (path_root : string)
        (r : outcome (list string)) (t : list event) :
  listable_within depth self path_root = true ->
  scan fuel self ignored [path_root] [] = Some (r, t) ->
  listed t = visit_order depth self path_root
  /\ r = Ret (filter (fun p => untested_dir ignored p = true)
                     (visit_order depth self path_root)).
Proof.
  intros Hl Hs.
  destruct (scan_order_from self ignored depth path_root [] [] [] Hl)
    as (fuel' & b & t' & Hs' & Ht').
  { intros bad1. exists 0, bad1, []. split; reflexivity. }
  cbn [app] in Hs'. rewrite app_nil_r in Ht'.
  pose proof (scan_deterministic _ _ _ _ _ _ _ _ Hs Hs') as [= -> ->].
  split; [exact Ht'|].
  rewrite (scan_reports _ _ _ _ _ _ _ Hs), Ht'. reflexivity.
Qed.

(** *** [str.strip] and [str.split] by the pieces of a string *)

Lemma all_space_cons (c : ascii) (ws : string) :
  all_space (String c ws) <-> Str.isspace c = true /\ all_space ws.
Proof. unfold all_space. cbn. apply andb_true_iff. Qed.

Lemma is_piece_cons_inv (w : string) :
  is_piece w ->
  exists c w', w = String c w' /\ Str.isspace c = false
               /\ forallb (fun c => negb (Str.isspace c))
                          (list_ascii_of_string w') = true.
Proof.
  intros [Hne Hw]. destruct w as [|c w']; [done|]. exists c, w'.
  cbn in Hw. apply andb_true_iff in Hw as [Hc%negb_true_iff Hw']. auto.
Qed.

Lemma split_ws_aux_skip (ws s : string) :
  all_space ws -> Str.split_ws_aux [] (ws ++ s) = Str.split_ws_aux [] s.
Proof.
  induction ws as [|c ws IH]; [reflexivity|].
  intros [Hc Hws]%all_space_cons. rewrite append_cons.
  cbn [Str.split_ws_aux]. rewrite Hc. cbn [app]. exact (IH Hws).
Qed.

Lemma split_ws_aux_word (w s : string) (cur : list ascii) :
  forallb (fun c => negb (Str.isspace c)) (list_ascii_of_string w) = true ->
  Str.split_ws_aux cur (w ++ s)
  = Str.split_ws_aux (rev (list_ascii_of_string w) ++ cur) s.
Proof.
  revert cur. induction w as [|c w IH]; intros cur Hw; [reflexivity|].
  cbn in Hw. apply andb_true_iff in Hw as [Hc%negb_true_iff Hw].
  rewrite append_cons. cbn [Str.split_ws_aux]. rewrite Hc, (IH _ Hw).
  cbn [list_ascii_of_string rev]. rewrite <- app_assoc. reflexivity.
Qed.

Lemma split_ws_aux_end (cur : list ascii) :
  cur <> [] ->
  Str.split_ws_aux cur "" = [string_of_list_ascii (rev cur)].
Proof. destruct cur; [done|reflexivity]. Qed.

Lemma split_ws_aux_sep (cur : list ascii) (c : ascii) (s : string) :
  cur <> [] -> Str.isspace c = true ->
  Str.split_ws_aux cur (String c s)
  = string_of_list_ascii (rev cur) :: Str.split_ws_aux [] s.
Proof.
  intros Hcur Hc. cbn [Str.split_ws_aux]. rewrite Hc.
  destruct cur; [done|reflexivity].
Qed.

Lemma word_read_back (w : string) :
  string_of_list_ascii (rev (rev (list_ascii_of_string w) ++ [])) = w.
Proof.
  rewrite app_nil_r, rev_involutive. apply string_of_list_ascii_of_string.
Qed.

Lemma word_not_nil (c : ascii) (w : string) :
  rev (list_ascii_of_string (String c w)) ++ [] <> [].
Proof.
  cbn [list_ascii_of_string rev]. rewrite app_nil_r.
  intros H. apply app_eq_nil in H as [_ H]. discriminate H.
Qed.

(** The pieces of a string are what [str.split()] returns for it. *)
Lemma split_ws_of_pieces (s : string) (l : list string) :
  pieces_of s l -> Str.split_ws s = l.
Proof.
  unfold Str.split_ws.
  induction 1 as [ws Hws|ws w Hws Hw|ws w c rest l Hws Hw Hc _ IH].
  - apply split_ws_all_space, Hws.
  - rewrite (split_ws_aux_skip _ _ Hws).
    destruct (is_piece_cons_inv _ Hw) as (c & w' & -> & Hc & Hw').
    pose proof (split_ws_aux_word (String c w') "" []) as Hword.
    rewrite append_empty_r in Hword.
    rewrite Hword by (cbn; rewrite Hc; exact Hw').
    rewrite split_ws_aux_end by apply word_not_nil.
    rewrite word_read_back. reflexivity.
  - rewrite (split_ws_aux_skip _ _ Hws).
    destruct (is_piece_cons_inv _ Hw) as (c0 & w' & -> & Hc0 & Hw').
    rewrite split_ws_aux_word by (cbn; rewrite Hc0; exact Hw').
    rewrite split_ws_aux_sep by (try apply word_not_nil; exact Hc).
    rewrite word_read_back, IH. reflexivity.
Qed.

Lemma string_of_list_ascii_app (l1 l2 : list ascii) :
  string_of_list_ascii (l1 ++ l2)
  = (string_of_list_ascii l1 ++ string_of_list_ascii l2)%string.
Proof.
  induction l1 as [|c l1 IH]; [reflexivity|].
  cbn [app string_of_list_ascii]. rewrite append_cons, IH. reflexivity.
Qed.

Lemma list_ascii_of_string_app (a b : string) :
  list_ascii_of_string (a ++ b)
  = list_ascii_of_string a ++ list_ascii_of_string b.
Proof.
  induction a as [|c a IH]; [reflexivity|].
  rewrite append_cons. cbn [list_ascii_of_string app]. rewrite IH.
  reflexivity.
Qed.

Lemma piece_of_cur (cur : list ascii) :
  cur <> [] ->
  forallb (fun c => negb (Str.isspace c)) cur = true ->
  is_piece (string_of_list_ascii (rev cur)).
Proof.
  intros Hne Hcur. split.
  - intros H. apply (f_equal list_ascii_of_string) in H.
    rewrite list_ascii_of_string_of_list_ascii in H. cbn in H.
    apply (f_equal (@rev ascii)) in H. rewrite rev_involutive in H.
    contradiction.
  - rewrite list_ascii_of_string_of_list_ascii.
    rewrite forallb_forall in *. intros x Hx. apply Hcur, in_rev, Hx.
Qed.

Lemma pieces_of_space_cons (c : ascii) (s : string) (l : list string) :
  Str.isspace c = true -> pieces_of s l -> pieces_of (String c s) l.
Proof.
  intros Hc H.
  assert (Hws : forall ws, all_space ws -> all_space (String c ws))
    by (intros ws Hws; apply all_space_cons; auto).
  destruct H as [ws H1|ws w H1 H2|ws w c' rest l H1 H2 H3 H4];
    rewrite <- ?append_cons.
  - apply pieces_none, Hws, H1.
  - apply pieces_last; [apply Hws, H1|exact H2].
  - apply pieces_more; [apply Hws, H1|assumption..].
Qed.

(** What [str.split()] returns for a string are pieces of it. *)
Lemma pieces_of_split_ws_aux (s : string) (cur : list ascii) :
  forallb (fun c => negb (Str.isspace c)) cur = true ->
  pieces_of (string_of_list_ascii (rev cur) ++ s) (Str.split_ws_aux cur s).
Proof.
  revert cur. induction s as [|c s IH]; intros cur Hcur.
  - rewrite append_empty_r. destruct cur as [|c0 cur'] eqn:E.
    + apply pieces_none. reflexivity.
    + rewrite <- E in *. rewrite split_ws_aux_end by (subst cur; done).
      apply (pieces_last ""); [reflexivity|].
      apply piece_of_cur; [subst cur; done|exact Hcur].
  - destruct (Str.isspace c) eqn:Ec.
    + destruct cur as [|c0 cur'] eqn:E.
      * cbn [Str.split_ws_aux]. rewrite Ec. cbn [app].
        apply (pieces_of_space_cons c s _ Ec). apply (IH []). reflexivity.
      * rewrite <- E in *.
        rewrite split_ws_aux_sep by (try exact Ec; subst cur; done).
        apply (pieces_more ""); [reflexivity| |exact Ec|].
        -- apply piece_of_cur; [subst cur; done|exact Hcur].
        -- apply (IH []). reflexivity.
    + cbn [Str.split_ws_aux]. rewrite Ec.
      assert (Hstep : (string_of_list_ascii (rev cur) ++ String c s)%string
                      = (string_of_list_ascii (rev (c :: cur)) ++ s)%string).
      { cbn [rev]. rewrite string_of_list_ascii_app, append_assoc.
        reflexivity. }
      rewrite Hstep. apply IH. cbn. rewrite Ec. exact Hcur.
Qed.

Lemma pieces_of_split_ws (s : string) : pieces_of s (Str.split_ws s).
Proof. apply (pieces_of_split_ws_aux s []). reflexivity. Qed.

(** White space at the end of a string gives no piece. *)
Lemma split_ws_aux_space_end (cur : list ascii) (ws : string) :
  all_space ws -> Str.split_ws_aux cur ws = Str.split_ws_aux cur "".
Proof.
  destruct ws as [|c ws]; [reflexivity|].
  intros [Hc Hws]%all_space_cons. cbn [Str.split_ws_aux]. rewrite Hc.
  change (Str.split_ws_aux [] ws) with (Str.split_ws ws).
  rewrite (split_ws_all_space _ Hws). apply app_nil_r.
Qed.

Lemma split_ws_aux_app_space (x ws : string) (cur : list ascii) :
  all_space ws -> Str.split_ws_aux cur (x ++ ws) = Str.split_ws_aux cur x.
Proof.
  intros Hws. revert cur. induction x as [|c x IH]; intros cur.
  - apply split_ws_aux_space_end, Hws.
  - rewrite append_cons. cbn [Str.split_ws_aux]. rewrite !IH. reflexivity.
Qed.

Lemma lstrip_decomp (s : string) :
  exists ws, all_space ws /\ s = (ws ++ Str.lstrip s)%string.
Proof.
  induction s as [|c s (ws & Hws & IH)]; [exists ""; split; reflexivity|].
  cbn [Str.lstrip]. destruct (Str.isspace c) eqn:Ec.
  - exists (String c ws). split; [apply all_space_cons; auto|].
    rewrite append_cons, <- IH. reflexivity.
  - exists "". split; reflexivity.
Qed.

(** [s.strip().split()] is [s.split()]. *)
Lemma split_ws_strip (s : string) :
  Str.split_ws (Str.strip s) = Str.split_ws s.
Proof.
  destruct (lstrip_decomp s) as (ws0 & Hws0 & Hs).
  set (x := Str.lstrip s) in *.
  set (r := string_of_list_ascii (rev (list_ascii_of_string x))).
  destruct (lstrip_decomp r) as (ws & Hws & Hr).
  assert (Hx : x = (Str.strip s
                    ++ string_of_list_ascii (rev (list_ascii_of_string ws)))
                     %string).
  { unfold Str.strip. fold x. fold r.
    rewrite <- string_of_list_ascii_app, <- rev_app_distr,
      <- list_ascii_of_string_app, <- Hr.
    unfold r. rewrite list_ascii_of_string_of_list_ascii, rev_involutive.
    symmetry. apply string_of_list_ascii_of_string. }
  assert (Hrev : all_space
                   (string_of_list_ascii (rev (list_ascii_of_string ws)))).
  { unfold all_space in *. rewrite list_ascii_of_string_of_list_ascii.
    rewrite forallb_forall in *. intros c Hc. apply Hws, in_rev, Hc. }
  rewrite Hs at 2. unfold Str.split_ws.
  rewrite (split_ws_aux_skip _ _ Hws0), Hx.
  rewrite (split_ws_aux_app_space _ _ _ Hrev). reflexivity.
Qed.

(** The loop that compiles the pieces, read forwards. *)
Lemma compile_every_piece (pieces : list string) (progs acc : list regex) :
  Forall2 (fun w prog => re_compile w = Some prog) pieces progs ->
  for_each pieces
           (fun acc pattern =>
              prog <- re_compile_py pattern;;
              ret (acc ++ [prog]))%py acc
  = (Ret (acc ++ progs), []).
Proof.
  intros H. revert acc. induction H as [|w prog pieces progs Hw _ IH];
    intros acc.
  - cbn. rewrite app_nil_r. reflexivity.
  - cbn [for_each]. unfold re_compile_py at 1. rewrite Hw, !bind_ret, IH.
    rewrite <- app_assoc. reflexivity.
Qed.

Lemma compile_bad_piece (pieces : list string) (acc : list regex) :
  Exists (fun w => re_compile w = None) pieces ->
  for_each pieces
           (fun acc pattern =>
              prog <- re_compile_py pattern;;
              ret (acc ++ [prog]))%py acc
  = (Raise ReError, []).
Proof.
  intros H. revert acc. induction pieces as [|w pieces IH]; intros acc.
  - inversion H.
  - cbn [for_each]. unfold re_compile_py at 1.
    destruct (re_compile w) as [prog|] eqn:Hw; [|reflexivity].
    rewrite !bind_ret. apply IH.
    apply Exists_cons in H as [H|H]; [congruence|exact H].
Qed.

(** X9: the file-ignore patterns are the compiled pieces of the value
    of [--cover_ignore_srcs]: the value is white space, a piece, white
    space, a piece and so on, which fixes the pieces.  Without the
    option, or with a value of white space only, there is no pattern.
    When every piece compiles, the patterns are the compiled pieces in
    order, and no file is looked at.  When some piece does not compile,
    [re.error] is raised, and [main] raises it after reading the
    configuration and before listing any directory. *)
Theorem X9_file_ignore_patterns (args : Namespace) :
  (cover_ignore_srcs args = None -> compile_ignored args = (Ret [], []))
  /\ (forall srcs,
         exists pieces,
           pieces_of srcs pieces
           /\ forall pieces', pieces_of srcs pieces' -> pieces' = pieces)
  /\ (forall srcs, cover_ignore_srcs args = Some srcs -> all_space srcs ->
                   compile_ignored args = (Ret [], []))
  /\ (forall srcs pieces,
         cover_ignore_srcs args = Some srcs ->
         pieces_of srcs pieces ->
         (forall progs,
             Forall2 (fun w prog => re_compile w = Some prog) pieces progs ->
             compile_ignored args = (Ret progs, []))
         /\ (Exists (fun w => re_compile w = None) pieces ->
             compile_ignored args = (Raise ReError, [])
             /\ forall fuel config,
                 isfile config_path = true ->
                 fs_json fs config_path = Parsed config ->
                 config <> JNull ->
                 main fuel args
                 = Some (Raise ReError,
                         [EvIsFile config_path; EvOpen config_path]))).
Proof.
  assert (Hrun : forall srcs pieces,
             cover_ignore_srcs args = Some srcs ->
             pieces_of srcs pieces ->
             compile_ignored args
             = for_each pieces
                        (fun acc pattern =>
                           prog <- re_compile_py pattern;;
                           ret (acc ++ [prog]))%py []).
  { intros srcs pieces Ecov Hp. unfold compile_ignored. rewrite Ecov.
    rewrite split_ws_strip, (split_ws_of_pieces _ _ Hp). reflexivity. }
  split; [|split; [|split]].
  - intros Ecov. unfold compile_ignored. rewrite Ecov. reflexivity.
  - intros srcs. exists (Str.split_ws srcs).
    split; [apply pieces_of_split_ws|].
    intros pieces' Hp. symmetry. apply split_ws_of_pieces, Hp.
  - intros srcs Ecov Hs. rewrite (Hrun srcs [] Ecov); [reflexivity|].
    apply pieces_none, Hs.
  - intros srcs pieces Ecov Hp. rewrite (Hrun _ _ Ecov Hp). split.
    + intros progs HF. apply (compile_every_piece pieces progs [] HF).
    + intros HE. split; [apply compile_bad_piece, HE|].
      intros fuel config Hf Hj Hnull.
      assert (Hraise : compile_ignored args = (Raise ReError, [])).
      { rewrite (Hrun _ _ Ecov Hp). apply compile_bad_piece, HE. }
      unfold main. fold config_path.
      unfold os_path_isfile, load_config_file. rewrite Hf, Hj, Hraise.
      destruct config; try contradiction; reflexivity.
Qed.

End CheckCoverage.

(** ** Examples on the concrete world *)


Lemma C4_witness :
  coverage_is_sufficient Demo.float_of_string
    (Demo.project (Parsed (JObj Demo.dict_no_coverage)) None)
    "/p" (JObj Demo.dict_no_coverage)
  = (Ret true,
     [EvLog INFO
            "Skipping coverage calculation because config file is missing the %s key."
            [AStr "coverage"]])
  /\ fst (coverage_is_sufficient Demo.float_of_string
            (Demo.project (Parsed (JObj Demo.dict_no_threshold))
                          (Some Demo.report_80_20))
            "/p" (JObj Demo.dict_no_threshold))
     = Ret false
  /\ fst (coverage_is_sufficient Demo.float_of_string
            (Demo.project_without_report
               (Parsed (JObj (Demo.dict_min (JFloat Demo.f80)))))
            "/p" (JObj (Demo.dict_min (JFloat Demo.f80))))
     = Ret false.
Proof.
  split; [|split].
  - apply (proj1 (C4_coverage_gate_without_report Demo.float_of_string
                    (Demo.project (Parsed (JObj Demo.dict_no_coverage)) None)
                    "/p" Demo.dict_no_coverage)).
    vm_compute. reflexivity.
  - rewrite (proj1 (proj2 (C4_coverage_gate_without_report Demo.float_of_string
                             (Demo.project (Parsed (JObj Demo.dict_no_threshold))
                                           (Some Demo.report_80_20))
                             "/p" Demo.dict_no_threshold)) ∅);
      [reflexivity | vm_compute; reflexivity | vm_compute; reflexivity].
  - rewrite (proj2 (proj2 (C4_coverage_gate_without_report Demo.float_of_string
                             (Demo.project_without_report
                                (Parsed (JObj (Demo.dict_min (JFloat Demo.f80)))))
                             "/p" (Demo.dict_min (JFloat Demo.f80))))
                   (Demo.coverage_section (JFloat Demo.f80)) (JFloat Demo.f80));
      [reflexivity | vm_compute; reflexivity | vm_compute; reflexivity
       | vm_compute; reflexivity].
Defined.

Lemma C3_failing_input :
  coverage_is_sufficient Demo.float_of_string
    (Demo.project (Parsed (JObj (Demo.dict_min (JFloat Demo.f80))))
                  (Some Demo.empty_report))
    "/p" (JObj (Demo.dict_min (JFloat Demo.f80)))
  = (Raise ZeroDivisionError,
     [EvIsFile "/p/coverage.xml"; EvParseXml "/p/coverage.xml"]).
Proof.
  apply (C3_empty_report_raises Demo.float_of_string
           (Demo.project (Parsed (JObj (Demo.dict_min (JFloat Demo.f80))))
                         (Some Demo.empty_report))
           "/p" (Demo.dict_min (JFloat Demo.f80))
           (Demo.coverage_section (JFloat Demo.f80)) (JFloat Demo.f80)
           Demo.empty_report);
    vm_compute; reflexivity.
Defined.

Lemma C2_witness :
  fst (coverage_is_sufficient Demo.float_of_string
         (Demo.project (Parsed (JObj (Demo.dict_min (JFloat Demo.f80))))
                       (Some Demo.report_80_20))
         "/p" (JObj (Demo.dict_min (JFloat Demo.f80))))
  = Ret true
  /\ fst (coverage_is_sufficient Demo.float_of_string
            (Demo.project (Parsed (JObj (Demo.dict_min (JFloat Demo.f80_1))))
                          (Some Demo.report_80_20))
            "/p" (JObj (Demo.dict_min (JFloat Demo.f80_1))))
     = Ret false.
Proof.
  split.
  - assert (D := proj2 (proj2 (proj2
      (C2_threshold_comparison Demo.float_of_string
         (Demo.project (Parsed (JObj (Demo.dict_min (JFloat Demo.f80))))
                       (Some Demo.report_80_20))
         "/p" (Demo.dict_min (JFloat Demo.f80))
         (Demo.coverage_section (JFloat Demo.f80)) (JFloat Demo.f80)
         Demo.report_80_20 20 80 Demo.f80 Float.hundred Demo.f80
         eq_refl eq_refl eq_refl eq_refl eq_refl ltac:(lia)
         eq_refl eq_refl eq_refl)))).
    exact (proj1 (proj2 (D eq_refl)) eq_refl).
  - assert (D := proj2 (proj2 (proj2
      (C2_threshold_comparison Demo.float_of_string
         (Demo.project (Parsed (JObj (Demo.dict_min (JFloat Demo.f80_1))))
                       (Some Demo.report_80_20))
         "/p" (Demo.dict_min (JFloat Demo.f80_1))
         (Demo.coverage_section (JFloat Demo.f80_1)) (JFloat Demo.f80_1)
         Demo.report_80_20 20 80 Demo.f80 Float.hundred Demo.f80_1
         eq_refl eq_refl eq_refl eq_refl eq_refl ltac:(lia)
         eq_refl eq_refl eq_refl)))).
    exact (proj2 (proj2 (D eq_refl)) eq_refl).
Defined.

(** The literal [80.1] of the examples is the quotient [801.0 / 10.0],
    correctly rounded. *)
Example f80_1_is_801_over_10 :
  Float.div (S754_finite false 7045670510788608 (-43))
            (S754_finite false 5629499534213120 (-49))
  = Ret Demo.f80_1
  /\ Float.of_int 801 = Ret (S754_finite false 7045670510788608 (-43))
  /\ Float.of_int 10 = Ret (S754_finite false 5629499534213120 (-49)).
Proof. repeat split; vm_compute; reflexivity. Qed.

(** C2, as the claim states it, fails: with the threshold NaN (which
    [json.load] reads from the literal [NaN]) and 80 lines of 100
    covered, [80.0 >= nan] is false and the gate passes. *)
Lemma C2_counterexample :
  ~ (forall (fs : filesystem) (path_root : string) (d c : gmap string json)
            (threshold : json) (root : element) (uncovered covered : Z)
            (fcovered ftotal min_percent : spec_float),
        d !! CONFIG_KEY_COVERAGE = Some (JObj c) ->
        c !! CONFIG_KEY_MIN_PERCENTAGE = Some threshold ->
        isfile fs (report_path path_root) = true ->
        fs_xml fs (report_path path_root) = Some root ->
        count_lines root = (uncovered, covered) ->
        (covered + uncovered)%Z <> 0%Z ->
        Float.of_int covered = Ret fcovered ->
        Float.of_int (covered + uncovered) = Ret ftotal ->
        py_float Demo.float_of_string threshold = (Ret min_percent, []) ->
        fst (coverage_is_sufficient Demo.float_of_string fs path_root (JObj d))
        = Ret (Float.ge (SFdiv Float.prec Float.emax
                               (Float.mul Float.hundred fcovered) ftotal)
                        min_percent)).
Proof.
  intros H.
  specialize (H (Demo.project (Parsed (JObj (Demo.dict_min (JFloat S754_nan))))
                              (Some Demo.report_80_20))
                "/p" (Demo.dict_min (JFloat S754_nan))
                (Demo.coverage_section (JFloat S754_nan)) (JFloat S754_nan)
                Demo.report_80_20 20%Z 80%Z Demo.f80 Float.hundred S754_nan
                eq_refl eq_refl eq_refl eq_refl eq_refl ltac:(discriminate)
                eq_refl eq_refl eq_refl).
  vm_compute in H. discriminate H.
Qed.

(** With the pattern [zzz], which matches no path of the project,
    [/p/only] (one go file, no test) is reported and [/p/ok] (a go file
    and its test) is not; with a pattern that matches [/p/only/x.go],
    [/p/only] is not reported. *)
Lemma C1_witness :
  (exists unvisited' t,
      visit Demo.regex Demo.re_match (Demo.untested_project CannotOpen)
            Demo.detecter ["zzz"] "/p/only" [] []
      = (Ret (unvisited', ["/p/only"]), t))
  /\ (exists unvisited' t,
         visit Demo.regex Demo.re_match (Demo.untested_project CannotOpen)
               Demo.detecter ["zzz"] "/p/ok" [] []
         = (Ret (unvisited', []), t))
  /\ (exists unvisited' t,
         visit Demo.regex Demo.re_match (Demo.untested_project CannotOpen)
               Demo.detecter ["/p/only/x"] "/p/only" [] []
         = (Ret (unvisited', []), t)).
Proof.
  assert (Hzzz : forall path,
             String.prefix "zzz" path = false ->
             forall reg : Demo.regex,
               reg ∈ ["zzz"] -> Demo.re_match reg path = false).
  { intros path Hp reg Hreg. apply list_elem_of_singleton in Hreg.
    subst reg. exact Hp. }
  split; [|split].
  - destruct (C1_bad_path_iff_untested Demo.regex Demo.re_match
                (Demo.untested_project CannotOpen) Demo.detecter ["zzz"]
                "/p/only" ["x.go"] [] [] eq_refl)
      as (u & b & t & Hv & _ & _ & Hx & _).
    rewrite (Hx eq_refl (Hzzz "/p/only/x.go" eq_refl)) in Hv.
    exists u, t. exact Hv.
  - destruct (C1_bad_path_iff_untested Demo.regex Demo.re_match
                (Demo.untested_project CannotOpen) Demo.detecter ["zzz"]
                "/p/ok" ["x.go"; "x_test.go"] [] [] eq_refl)
      as (u & b & t & Hv & _ & _ & _ & Hx & _).
    rewrite (Hx eq_refl (Hzzz "/p/ok/x.go" eq_refl)
                (Hzzz "/p/ok/x_test.go" eq_refl)) in Hv.
    exists u, t. exact Hv.
  - destruct (C1_bad_path_iff_untested Demo.regex Demo.re_match
                (Demo.untested_project CannotOpen) Demo.detecter
                ["/p/only/x"] "/p/only" ["x.go"] [] [] eq_refl)
      as (u & b & t & Hv & _ & _ & _ & _ & Hx & _).
    rewrite (Hx eq_refl) in Hv; [exists u, t; exact Hv|].
    exists "/p/only/x". split; [apply list_elem_of_here|reflexivity].
Defined.

Lemma C5_witness :
  main Demo.regex Demo.re_compile Demo.re_match Demo.float_of_string
       Demo.bare_project 0 Demo.no_args
  = Some (Ret 0%Z,
          [EvIsFile "/p/.golang_coverage_lintrc.json";
           EvLog INFO "Create %s to enable the golang test coverage linter"
                 [AStr ".golang_coverage_lintrc.json"]])
  /\ main Demo.regex Demo.re_compile Demo.re_match Demo.float_of_string
          (Demo.project NotJson None) 0 Demo.no_args
     = Some (Ret 1%Z,
             [EvIsFile "/p/.golang_coverage_lintrc.json";
              EvOpen "/p/.golang_coverage_lintrc.json";
              EvLog ERROR "Could not parse coverage config file %s: %s"
                    [AStr "/p/.golang_coverage_lintrc.json"; AExn ValueError]]).
Proof.
  split.
  - exact (proj1 (C5_config_absent_or_unparsable Demo.regex Demo.re_compile
                    Demo.re_match Demo.float_of_string Demo.bare_project
                    0 Demo.no_args) eq_refl).
  - exact (proj2 (C5_config_absent_or_unparsable Demo.regex Demo.re_compile
                    Demo.re_match Demo.float_of_string
                    (Demo.project NotJson None) 0 Demo.no_args)
                 eq_refl eq_refl).
Defined.

Lemma C6_witness :
  fst <$> main Demo.regex Demo.re_compile Demo.re_match Demo.float_of_string
               (Demo.project (Parsed (JObj (Demo.dict_min (JFloat Demo.f80))))
                             (Some Demo.report_80_20))
               10 Demo.no_args
  = Some (Ret 1%Z)
  /\ fst <$> main Demo.regex Demo.re_compile Demo.re_match Demo.float_of_string
                  (Demo.project (Parsed (JObj (Demo.dict_min (JFloat Demo.f80))))
                                (Some Demo.report_80_20))
                  10 Demo.ignore_lib_args
     = Some (Ret 0%Z)
  /\ fst <$> main Demo.regex Demo.re_compile Demo.re_match Demo.float_of_string
                  (Demo.project (Parsed (JObj (Demo.dict_min (JFloat Demo.f80_1))))
                                (Some Demo.report_80_20))
                  10 Demo.ignore_lib_args
     = Some (Ret 1%Z).
Proof.
  split; [|split].
  - destruct (all_directories_have_tests Demo.regex Demo.re_compile Demo.re_match
                (Demo.project (Parsed (JObj (Demo.dict_min (JFloat Demo.f80))))
                              (Some Demo.report_80_20))
                10 "/p" (JObj (Demo.dict_min (JFloat Demo.f80))) [])
      as [[[[|]|e] t1]|] eqn:E; try (vm_compute in E; discriminate E).
    rewrite (proj1 (C6_gates_in_order Demo.regex Demo.re_compile Demo.re_match
                      Demo.float_of_string
                      (Demo.project (Parsed (JObj (Demo.dict_min (JFloat Demo.f80))))
                                    (Some Demo.report_80_20))
                      10 Demo.no_args (JObj (Demo.dict_min (JFloat Demo.f80)))
                      [] [] eq_refl eq_refl eq_refl) t1 E).
    reflexivity.
  - destruct (all_directories_have_tests Demo.regex Demo.re_compile Demo.re_match
                (Demo.project (Parsed (JObj (Demo.dict_min (JFloat Demo.f80))))
                              (Some Demo.report_80_20))
                10 "/p" (JObj (Demo.dict_min (JFloat Demo.f80))) ["/p/lib/a"])
      as [[[[|]|e] t1]|] eqn:E; try (vm_compute in E; discriminate E).
    destruct (coverage_is_sufficient Demo.float_of_string
                (Demo.project (Parsed (JObj (Demo.dict_min (JFloat Demo.f80))))
                              (Some Demo.report_80_20))
                "/p" (JObj (Demo.dict_min (JFloat Demo.f80))))
      as [[[|]|e] t2] eqn:E2; try (vm_compute in E2; discriminate E2).
    rewrite (proj1 (proj2 (proj2
               (C6_gates_in_order Demo.regex Demo.re_compile Demo.re_match
                  Demo.float_of_string
                  (Demo.project (Parsed (JObj (Demo.dict_min (JFloat Demo.f80))))
                                (Some Demo.report_80_20))
                  10 Demo.ignore_lib_args (JObj (Demo.dict_min (JFloat Demo.f80)))
                  ["/p/lib/a"] [] eq_refl eq_refl eq_refl))) t1 t2 E E2).
    reflexivity.
  - destruct (all_directories_have_tests Demo.regex Demo.re_compile Demo.re_match
                (Demo.project (Parsed (JObj (Demo.dict_min (JFloat Demo.f80_1))))
                              (Some Demo.report_80_20))
                10 "/p" (JObj (Demo.dict_min (JFloat Demo.f80_1))) ["/p/lib/a"])
      as [[[[|]|e] t1]|] eqn:E; try (vm_compute in E; discriminate E).
    destruct (coverage_is_sufficient Demo.float_of_string
                (Demo.project (Parsed (JObj (Demo.dict_min (JFloat Demo.f80_1))))
                              (Some Demo.report_80_20))
                "/p" (JObj (Demo.dict_min (JFloat Demo.f80_1))))
      as [[[|]|e] t2] eqn:E2; try (vm_compute in E2; discriminate E2).
    rewrite (proj1 (proj2
               (C6_gates_in_order Demo.regex Demo.re_compile Demo.re_match
                  Demo.float_of_string
                  (Demo.project (Parsed (JObj (Demo.dict_min (JFloat Demo.f80_1))))
                                (Some Demo.report_80_20))
                  10 Demo.ignore_lib_args (JObj (Demo.dict_min (JFloat Demo.f80_1)))
                  ["/p/lib/a"] [] eq_refl eq_refl eq_refl)) t1 t2 E E2).
    reflexivity.
Defined.

(** On the concrete project [should_skip] skips the file [main.go], the
    link [lnk], [vendor] and the configured [lib/testlib], and keeps
    [lib]. *)
Example C7_on_the_project :
  map (fun p => fst (should_skip Demo.regex Demo.re_match
                                 (Demo.project CannotOpen None)
                                 Demo.detecter p))
      ["/p/main.go"; "/p/lnk"; "/p/vendor"; "/p/lib/testlib"; "/p/lib"; ""]
  = [Ret true; Ret true; Ret true; Ret true; Ret false; Ret true].
Proof. vm_compute. reflexivity. Qed.

Lemma C8_witness :
  PosixPath.relpath "/p" "/p/vendor" "/p" = Ret "vendor"
  /\ match scan Demo.regex Demo.re_match (Demo.project CannotOpen None)
                10 Demo.detecter [] ["/p"] [] with
     | Some (Ret bad, t) => (EvListdir "/p/vendor" ∉ t) /\ ("/p/vendor" ∉ bad)
     | _ => False
     end.
Proof.
  split; [reflexivity|].
  pose proof (proj1 (proj2
    (C8_always_skipped_never_entered Demo.regex Demo.re_compile Demo.re_match
       (Demo.project CannotOpen None) Demo.detecter [] "/p" "/p/vendor"
       "vendor" eq_refl eq_refl
       ltac:(vm_compute; do 3 apply list_elem_of_further;
             apply list_elem_of_here)))) as H.
  destruct (scan Demo.regex Demo.re_match (Demo.project CannotOpen None)
                 10 Demo.detecter [] ["/p"] []) as [[[bad|e] t]|] eqn:E;
    try (vm_compute in E; discriminate E).
  destruct (H 10 (Ret bad) t E) as [H1 H2]. split; [exact H1|].
  exact (H2 bad eq_refl).
Defined.

Lemma C10_witness :
  skipped Demo.regex Demo.re_match
          (Demo.untested_project (Parsed (JObj Demo.dict_skip_root)))
          Demo.detecter_skip_root "/p" = true
  /\ exists fuel t,
      all_directories_have_tests Demo.regex Demo.re_compile Demo.re_match
        (Demo.untested_project (Parsed (JObj Demo.dict_skip_root)))
        fuel "/p" (JObj Demo.dict_skip_root) []
      = Some (Ret false, t)
      /\ EvLog ERROR "  %s" [AStr "."] ∈ t.
Proof.
  split; [vm_compute; reflexivity|].
  refine (proj1 (proj2 (proj2
    (C10_root_is_always_scanned Demo.regex Demo.re_compile Demo.re_match
       (Demo.untested_project (Parsed (JObj Demo.dict_skip_root)))
       (JObj Demo.dict_skip_root) [] "/p" Demo.detecter_skip_root []
       _)) [".golang_coverage_lintrc.json"; "x.go"; "ok"; "only"] 1
       eq_refl _ _)).
  - vm_compute. reflexivity.
  - apply (is_untested_spec Demo.regex Demo.re_match). vm_compute. reflexivity.
  - vm_compute. reflexivity.
Defined.

(** ** The further properties on the concrete world *)

Lemma X1_witness :
  exists bad t,
    scan Demo.regex Demo.re_match (Demo.project CannotOpen None)
         10 Demo.detecter [] ["/p"] [] = Some (Ret bad, t)
    /\ bad = ["/p/lib"]
    /\ (forall q, EvListdir q ∈ t
                  <-> reachable_from Demo.regex Demo.re_match
                        (Demo.project CannotOpen None) Demo.detecter "/p" q)
    /\ (forall q, q ∈ bad
                  <-> reachable_from Demo.regex Demo.re_match
                        (Demo.project CannotOpen None) Demo.detecter "/p" q
                      /\ untested_dir Demo.regex Demo.re_match
                           (Demo.project CannotOpen None) [] q = true).
Proof.
  eexists _, _. split; [vm_compute; reflexivity|]. split; [reflexivity|].
  apply (X1_scan_lists_exactly_the_reachable Demo.regex Demo.re_match
           (Demo.project CannotOpen None) Demo.detecter [] 10 "/p").
  vm_compute. reflexivity.
Defined.

Lemma X2_witness :
  exists t,
    all_directories_have_tests Demo.regex Demo.re_compile Demo.re_match
      (Demo.project CannotOpen None) 10 "/p"
      (JObj (Demo.dict_min (JFloat Demo.f80))) []
    = Some (Ret false, t)
    /\ (exists q, reachable_from Demo.regex Demo.re_match
                    (Demo.project CannotOpen None) Demo.detecter "/p" q
                  /\ untested_dir Demo.regex Demo.re_match
                       (Demo.project CannotOpen None) [] q = true).
Proof.
  eexists. split; [vm_compute; reflexivity|].
  apply (proj1 (X2_gate_false_iff_untested_directory
                  Demo.regex Demo.re_compile Demo.re_match
                  (Demo.project CannotOpen None)
                  (JObj (Demo.dict_min (JFloat Demo.f80))) [] "/p"
                  Demo.detecter [] 10 false _
                  ltac:(vm_compute; reflexivity)
                  ltac:(vm_compute; reflexivity))).
  reflexivity.
Defined.

Lemma X3_witness :
  report (Demo.project CannotOpen None) "/p" ["/p/lib"; "/p/lib/sub"]
  = (Ret false,
     [EvLog ERROR "Found golang packages without _test.go files:" [];
      EvLog ERROR "  %s" [AStr "lib"];
      EvLog ERROR "  %s" [AStr "lib/sub"]]).
Proof.
  rewrite (X3_report_logs_each_bad_path (Demo.project CannotOpen None) "/p"
             ["/p/lib"; "/p/lib/sub"]
             ltac:(repeat constructor; discriminate)).
  vm_compute. reflexivity.
Defined.

Lemma X4_witness :
  exists t1,
    scan Demo.regex Demo.re_match (Demo.project CannotOpen None)
         10 Demo.detecter [] ["/q"] []
    = Some (Raise OSError,
            t1 ++ [EvLog DEBUG "Looking for missing tests in %s" [AStr "/q"];
                   EvListdir "/q"])
    /\ forall fuel bad t,
        scan Demo.regex Demo.re_match (Demo.project CannotOpen None)
             fuel Demo.detecter [] ["/q"] [] <> Some (Ret bad, t).
Proof.
  exists []. split; [vm_compute; reflexivity|].
  apply (proj2 (X4_scan_raises_only_from_listdir Demo.regex Demo.re_match
                  (Demo.project CannotOpen None) Demo.detecter [] "/q")
               "/q").
  - constructor.
  - vm_compute. reflexivity.
Defined.

Lemma X5_witness :
  exists self,
    SkippedPathDetecter_init Demo.regex Demo.re_compile "/p"
                             (JObj Demo.dict_skip_lib) = (Ret self, [])
    /\ _path_root self = "/p"
    /\ (forall rel, rel ∈ _skipped_paths self <-> rel ∈ ["lib/sub"])
    /\ _skipped_regex_paths self = ["vend"; "lib/test"].
Proof.
  apply (X5_detecter_holds_the_configured_rules Demo.regex Demo.re_compile
           "/p" Demo.dict_skip_lib (Some ["lib/sub"])
           (Some ["vend"; "lib/test"]) ["vend"; "lib/test"]).
  - vm_compute. reflexivity.
  - vm_compute. reflexivity.
  - repeat constructor.
Defined.

Lemma X6_witness :
  SkippedPathDetecter_init Demo.regex Demo.re_compile_strict "/p"
                           (JObj Demo.dict_bad_regex)
  = (Raise ReError, [])
  /\ main Demo.regex Demo.re_compile_strict Demo.re_match
          Demo.float_of_string
          (Demo.project (Parsed (JObj Demo.dict_bad_regex)) None)
          10 Demo.no_args
     = Some (Raise ReError,
             [EvIsFile "/p/.golang_coverage_lintrc.json";
              EvOpen "/p/.golang_coverage_lintrc.json"]).
Proof.
  pose proof (proj1 (X6_unreadable_skip_rules_raise
                       Demo.regex Demo.re_compile_strict Demo.re_match
                       Demo.float_of_string
                       (Demo.project (Parsed (JObj Demo.dict_bad_regex)) None)
                       "/p" Demo.dict_bad_regex)
                    None ["lib"; "(mocks"]
                    ltac:(vm_compute; reflexivity)
                    ltac:(vm_compute; reflexivity)
                    ltac:(right; left; vm_compute; reflexivity))
    as (H1 & _ & H3).
  split; [exact H1|].
  exact (H3 10 Demo.no_args [] [] eq_refl eq_refl eq_refl eq_refl).
Defined.

Lemma X7_witness :
  exists r t,
    scan Demo.regex Demo.re_match (Demo.project CannotOpen None)
         10 Demo.detecter [] ["/p"] [] = Some (r, t)
    /\ (EvListdir "/p/lib/testlib" ∉ t)
    /\ forall bad, r = Ret bad -> "/p/lib/testlib" ∉ bad.
Proof.
  eexists _, _. split; [vm_compute; reflexivity|].
  apply (proj2 (X7_skipped_paths_are_never_entered Demo.regex Demo.re_match
                  (Demo.project CannotOpen None) Demo.detecter []
                  "/p" "/p/lib/testlib"
                  ltac:(discriminate) ltac:(vm_compute; reflexivity)) 10).
  vm_compute. reflexivity.
Defined.

Lemma X8_witness :
  main Demo.regex Demo.re_compile Demo.re_match Demo.float_of_string
       (Demo.project (Parsed JNull) None) 0 Demo.no_args
  = Some (Ret 1%Z,
          [EvIsFile "/p/.golang_coverage_lintrc.json";
           EvOpen "/p/.golang_coverage_lintrc.json"])
  /\ main Demo.regex Demo.re_compile Demo.re_match Demo.float_of_string
          (Demo.project CannotOpen None) 0 Demo.no_args
     = Some (Raise IOError,
             [EvIsFile "/p/.golang_coverage_lintrc.json";
              EvOpen "/p/.golang_coverage_lintrc.json"]).
Proof.
  split.
  - exact (proj1 (X8_null_config_and_return_values
                    Demo.regex Demo.re_compile Demo.re_match
                    Demo.float_of_string (Demo.project (Parsed JNull) None)
                    0 Demo.no_args) eq_refl eq_refl).
  - exact (proj1 (proj2 (X8_null_config_and_return_values
                           Demo.regex Demo.re_compile Demo.re_match
                           Demo.float_of_string (Demo.project CannotOpen None)
                           0 Demo.no_args)) eq_refl eq_refl).
Defined.

(** The value [ /p/lib/a  ] has the one piece [/p/lib/a]; the value
    [a (b] has the pieces [a] and [(b], of which the stricter engine
    does not compile the second. *)
Lemma X9_witness :
  compile_ignored Demo.regex Demo.re_compile Demo.ignore_lib_args
  = (Ret ["/p/lib/a"], [])
  /\ compile_ignored Demo.regex Demo.re_compile_strict
       {| verbose := false; debug := false;
          cover_ignore_srcs := Some "a (b" |}
     = (Raise ReError, []).
Proof.
  assert (P1 : pieces_of " /p/lib/a  " ["/p/lib/a"]).
  { change (pieces_of (" " ++ "/p/lib/a" ++ String " " " ") ["/p/lib/a"]).
    apply pieces_more;
      [reflexivity|split; [discriminate|reflexivity]|reflexivity|].
    apply pieces_none. reflexivity. }
  assert (P2 : pieces_of "a (b" ["a"; "(b"]).
  { change (pieces_of ("" ++ "a" ++ String " " ("" ++ "(b")) ["a"; "(b"]).
    apply pieces_more;
      [reflexivity|split; [discriminate|reflexivity]|reflexivity|].
    apply pieces_last; [reflexivity|split; [discriminate|reflexivity]]. }
  split.
  - apply (proj1 (proj2 (proj2 (proj2
             (X9_file_ignore_patterns
                Demo.regex Demo.re_compile Demo.re_match
                Demo.float_of_string Demo.bare_project
                Demo.ignore_lib_args)))
             " /p/lib/a  " ["/p/lib/a"] eq_refl P1)).
    repeat constructor.
  - apply (proj2 (proj2 (proj2 (proj2
             (X9_file_ignore_patterns
                Demo.regex Demo.re_compile_strict Demo.re_match
                Demo.float_of_string Demo.bare_project
                {| verbose := false; debug := false;
                   cover_ignore_srcs := Some "a (b" |})))
             "a (b" ["a"; "(b"] eq_refl P2)).
    right. left. reflexivity.
Defined.

Lemma X10_witness :
  count_lines (Demo.report [Demo.line (Some "0"); Demo.line None])
  = (1, 1)%Z
  /\ count_lines
       (Element "class" ∅
          [Element "class" ∅
             [Element "method" ∅ [Demo.line (Some "0"); Demo.line None]]])
     = (2, 2)%Z.
Proof.
  split.
  - unfold Demo.report.
    rewrite (proj1 (proj2 (X10_counters_over_the_tree "coverage" ∅ []))
               ltac:(discriminate)).
    vm_compute. reflexivity.
  - rewrite (proj2 (proj2 (proj2 (proj2
               (X10_counters_over_the_tree "class" ∅
                  [Element "class" ∅
                     [Element "method" ∅
                        [Demo.line (Some "0"); Demo.line None]]]))))
               eq_refl _ eq_refl eq_refl).
    vm_compute. reflexivity.
Defined.

Lemma X11_witness :
  fst (coverage_is_sufficient Demo.float_of_string
         (Demo.project (Parsed (JObj (Demo.dict_min (JFloat Demo.f80))))
                       (Some (Demo.report (replicate 3 (Demo.line (Some "0"))))))
         "/p" (JObj (Demo.dict_min (JFloat Demo.f80))))
  = Ret false.
Proof.
  exact (proj1 (proj2
    (X11_no_line_covered Demo.float_of_string
       (Demo.project (Parsed (JObj (Demo.dict_min (JFloat Demo.f80))))
                     (Some (Demo.report (replicate 3 (Demo.line (Some "0"))))))
       "/p" (Demo.dict_min (JFloat Demo.f80))
       (Demo.coverage_section (JFloat Demo.f80)) (JFloat Demo.f80)
       (Demo.report (replicate 3 (Demo.line (Some "0")))) 3
       (S754_finite false 6755399441055744 (-51)) Demo.f80
       eq_refl eq_refl eq_refl eq_refl eq_refl ltac:(lia)
       eq_refl eq_refl)) _ _ eq_refl).
Defined.

(** A threshold that is [null] raises [TypeError]; a threshold that is
    the string [high], which [float()] does not read, raises
    [ValueError]. *)
Lemma X12_witness :
  coverage_is_sufficient Demo.float_of_string
    (Demo.project (Parsed (JObj (Demo.dict_min JNull)))
                  (Some Demo.report_80_20))
    "/p" (JObj (Demo.dict_min JNull))
  = (Raise TypeError,
     [EvIsFile "/p/coverage.xml"; EvParseXml "/p/coverage.xml"])
  /\ coverage_is_sufficient Demo.float_of_string
       (Demo.project (Parsed (JObj (Demo.dict_min (JStr "high"))))
                     (Some Demo.report_80_20))
       "/p" (JObj (Demo.dict_min (JStr "high")))
     = (Raise ValueError,
        [EvIsFile "/p/coverage.xml"; EvParseXml "/p/coverage.xml"]).
Proof.
  split.
  - exact (proj1 (proj2
      (X12_threshold_that_is_no_number Demo.float_of_string
         (Demo.project (Parsed (JObj (Demo.dict_min JNull)))
                       (Some Demo.report_80_20))
         "/p" (Demo.dict_min JNull) (Demo.coverage_section JNull) JNull
         Demo.report_80_20 20 80 Demo.f80 Float.hundred
         eq_refl eq_refl eq_refl eq_refl eq_refl ltac:(lia)
         eq_refl eq_refl)) I).
  - exact (proj2 (proj2
      (X12_threshold_that_is_no_number Demo.float_of_string
         (Demo.project (Parsed (JObj (Demo.dict_min (JStr "high"))))
                       (Some Demo.report_80_20))
         "/p" (Demo.dict_min (JStr "high"))
         (Demo.coverage_section (JStr "high")) (JStr "high")
         Demo.report_80_20 20 80 Demo.f80 Float.hundred
         eq_refl eq_refl eq_refl eq_refl eq_refl ltac:(lia)
         eq_refl eq_refl)) "high" eq_refl eq_refl).
Defined.

(** What [float()] reads and what it refuses, on some strings. *)
Example float_of_string_reads :
  Demo.float_of_string " 1e2 " = Some Float.hundred
  /\ Demo.float_of_string "+.5" = Demo.float_of_string "5E-1"
  /\ Demo.float_of_string "-Infinity" = Some (S754_infinity true)
  /\ Demo.float_of_string "1e400" = Some (S754_infinity false)
  /\ Demo.float_of_string "NaN" = Some S754_nan
  /\ map Demo.float_of_string
         ["high"; ""; "."; "1e"; "80L"; "8 0"; "0x10"; "80%"; "1.5.2"]
     = replicate 9 None.
Proof. repeat split; vm_compute; reflexivity. Qed.

(** A threshold written as a string that [float()] reads is a
    threshold like any other: with 80 lines of 100 covered the gate
    passes for ["80"] and fails for ["80.1"]. *)
Example threshold_written_as_a_string :
  Demo.float_of_string "80" = Some Demo.f80
  /\ Demo.float_of_string "80.1" = Some Demo.f80_1
  /\ fst (coverage_is_sufficient Demo.float_of_string
            (Demo.project (Parsed (JObj (Demo.dict_min (JStr "80"))))
                          (Some Demo.report_80_20))
            "/p" (JObj (Demo.dict_min (JStr "80"))))
     = Ret true
  /\ fst (coverage_is_sufficient Demo.float_of_string
            (Demo.project (Parsed (JObj (Demo.dict_min (JStr "80.1"))))
                          (Some Demo.report_80_20))
            "/p" (JObj (Demo.dict_min (JStr "80.1"))))
     = Ret false.
Proof. repeat split; vm_compute; reflexivity. Qed.

Lemma X13_witness :
  should_skip Demo.regex Demo.re_match (Demo.project CannotOpen None)
              Demo.detecter "/p/lib/sub"
  = (Ret (skip_rules Demo.regex Demo.re_match Demo.detecter "lib/sub"),
     [EvIsDir "/p/lib/sub"; EvIsLink "/p/lib/sub"])
  /\ ("lib/sub" ∈ _ALWAYS_SKIPPED
      <-> exists e, ["lib"; "sub"] = [e] /\ e ∈ _ALWAYS_SKIPPED).
Proof.
  pose proof (X13_always_skipped_names_hold_for_children_of_the_root
                Demo.regex Demo.re_match (Demo.project CannotOpen None)
                Demo.detecter ["p"] ["lib"; "sub"] eq_refl
                ltac:(repeat constructor; discriminate)
                ltac:(repeat constructor; discriminate)
                ltac:(discriminate)
                ltac:(vm_compute; reflexivity)
                ltac:(vm_compute; reflexivity))
    as (_ & _ & H3 & H4 & _).
  split; [exact H3|exact H4].
Defined.

Lemma X14_witness :
  stderr {| verbose := true; debug := true; cover_ignore_srcs := None |}
         [EvLog DEBUG "Looking for missing tests in %s" [AStr "/p"];
          EvListdir "/p";
          EvLog INFO "Create %s to enable the golang test coverage linter"
                [AStr ".golang_coverage_lintrc.json"];
          EvLog ERROR "Found golang packages without _test.go files:" []]
  = [EvLog INFO "Create %s to enable the golang test coverage linter"
           [AStr ".golang_coverage_lintrc.json"];
     EvLog ERROR "Found golang packages without _test.go files:" []].
Proof.
  rewrite (proj1 (X14_verbose_overrides_debug
                    {| verbose := true; debug := true;
                       cover_ignore_srcs := None |} _) eq_refl).
  vm_compute. reflexivity.
Defined.

Lemma X15_witness :
  exists t,
    main Demo.regex Demo.re_compile Demo.re_match Demo.float_of_string
         (Demo.project (Parsed (JObj (Demo.dict_min (JFloat Demo.f80))))
                       (Some Demo.report_80_20))
         10 Demo.no_args
    = Some (Ret 1%Z, t)
    /\ some_error (stderr Demo.no_args t).
Proof.
  eexists. split; [vm_compute; reflexivity|].
  destruct (X15_exit_status_and_error_messages
              Demo.regex Demo.re_compile Demo.re_match Demo.float_of_string
              (Demo.project (Parsed (JObj (Demo.dict_min (JFloat Demo.f80))))
                            (Some Demo.report_80_20))
              10 Demo.no_args 1 _ ltac:(vm_compute; reflexivity))
    as [[H _]|[_ [H|[H _]]]]; [discriminate H|exact H|discriminate H].
Defined.

Lemma X16_witness :
  exists fuel x,
    forall fuel', fuel <= fuel' ->
      main Demo.regex Demo.re_compile Demo.re_match Demo.float_of_string
           (Demo.project (Parsed (JObj (Demo.dict_min (JFloat Demo.f80))))
                         (Some Demo.report_80_20))
           fuel' Demo.no_args
      = Some x.
Proof.
  apply (X16_main_ends_on_a_finite_tree
           Demo.regex Demo.re_compile Demo.re_match Demo.float_of_string
           (Demo.project (Parsed (JObj (Demo.dict_min (JFloat Demo.f80))))
                         (Some Demo.report_80_20))
           Demo.no_args 4).
  intros config self t Hj Hi. vm_compute in Hj. injection Hj as <-.
  vm_compute in Hi. injection Hi as <- <-. vm_compute. reflexivity.
Defined.

Lemma X17_witness :
  exists t,
    scan Demo.regex Demo.re_match (Demo.untested_project CannotOpen)
         10 Demo.detecter [] ["/p"] []
    = Some (Ret ["/p"; "/p/only"], t)
    /\ listed t = ["/p"; "/p/only"; "/p/ok"].
Proof.
  eexists. split; [vm_compute; reflexivity|].
  rewrite (proj1 (X17_directories_are_visited_last_entry_first
                    Demo.regex Demo.re_match
                    (Demo.untested_project CannotOpen) Demo.detecter []
                    3 10 "/p" _ _
                    ltac:(vm_compute; reflexivity)
                    ltac:(vm_compute; reflexivity))).
  vm_compute. reflexivity.
Defined.
